(** * dispd-encoder: the encoder session controller of MiracleCast

    A shallow embedding of [src/disp/dispd-encoder.c].  The controller
    object [struct dispd_encoder] becomes a record, every function of the
    file becomes a computation in a small state-and-output monad, and
    every call that leaves the file (libc, sd-event, sd-bus, the state
    change handler) is written to an output trace together with the value
    it returned, so that the statements below can speak about what the
    controller did to its worker process and in which order. *)

From Stdlib Require Import ZArith List String Ascii Bool Lia.
Import ListNotations.
Local Open Scope Z_scope.

(** ** Enumerations *)

(** [enum dispd_encoder_state].  The header that declares it is not part
    of the sources at hand; the constants are the ones the file uses, in
    the order of the [names] table of [state_to_name]. *)
Inductive dispd_encoder_state : Type :=
| DISPD_ENCODER_STATE_NULL
| DISPD_ENCODER_STATE_SPAWNED
| DISPD_ENCODER_STATE_CONFIGURED
| DISPD_ENCODER_STATE_READY
| DISPD_ENCODER_STATE_STARTED
| DISPD_ENCODER_STATE_PAUSED
| DISPD_ENCODER_STATE_TERMINATED.

Definition state_eqb (a b : dispd_encoder_state) : bool :=
  match a, b with
  | DISPD_ENCODER_STATE_NULL, DISPD_ENCODER_STATE_NULL
  | DISPD_ENCODER_STATE_SPAWNED, DISPD_ENCODER_STATE_SPAWNED
  | DISPD_ENCODER_STATE_CONFIGURED, DISPD_ENCODER_STATE_CONFIGURED
  | DISPD_ENCODER_STATE_READY, DISPD_ENCODER_STATE_READY
  | DISPD_ENCODER_STATE_STARTED, DISPD_ENCODER_STATE_STARTED
  | DISPD_ENCODER_STATE_PAUSED, DISPD_ENCODER_STATE_PAUSED
  | DISPD_ENCODER_STATE_TERMINATED, DISPD_ENCODER_STATE_TERMINATED => true
  | _, _ => false
  end.

(** Modelled from the spec: [enum wfd_encoder_config] is declared in a
    header that is not part of the sources at hand.  The keys are the
    ones [dispd_encoder_configure] names, one for each entry the
    specification lists for the Configure request; their numbers are not
    needed. *)
Inductive wfd_encoder_config : Type :=
| WFD_ENCODER_CONFIG_PEER_ADDRESS
| WFD_ENCODER_CONFIG_RTP_PORT0
| WFD_ENCODER_CONFIG_PEER_RTCP_PORT
| WFD_ENCODER_CONFIG_LOCAL_ADDRESS
| WFD_ENCODER_CONFIG_LOCAL_RTCP_PORT
| WFD_ENCODER_CONFIG_X
| WFD_ENCODER_CONFIG_Y
| WFD_ENCODER_CONFIG_WIDTH
| WFD_ENCODER_CONFIG_HEIGHT.

Inductive signal : Type := SIGTERM | SIGKILL.

Inductive source_kind : Type :=
| CHILD_SOURCE | CHILD_TERM_TIME_SOURCE | PIPE_SOURCE.

Inductive slot_kind : Type :=
| NAME_DISAPPEARED_SLOT | STATE_CHANGE_NOTIFY_SLOT.

Definition EAGAIN : Z := 11.
Definition EINVAL : Z := 22.
Definition ENOMEM : Z := 12.

(** ** Bus messages *)

(** What [sd_bus_message_append] writes with the type strings the file
    uses: ["i"] (a configuration key), ["s"] and ["u"]. *)
Inductive bus_basic : Type :=
| B_int (k : wfd_encoder_config)
| B_str (s : string)
| B_u32 (v : Z).

(** The body of a message under construction: the items in the order
    they were appended. *)
Inductive bus_item : Type :=
| Open (ty : ascii) (contents : string)
| Close
| Basic (b : bus_basic).

Record sd_bus_message : Type := mk_message {
  msg_destination : option string;
  msg_member : string;
  msg_body : list bus_item;
}.

Definition msg_add (m : sd_bus_message) (i : bus_item) : sd_bus_message :=
  mk_message (msg_destination m) (msg_member m) (msg_body m ++ [i]).

(** ** The output trace *)

Inductive extcall : Type :=
| c_calloc
| c_pipe
| c_fork
| c_close (fd : Z)
| c_kill (pid : Z) (sig : signal)
| c_read (fd : Z)
| c_strdup
| c_free_name
| c_free_encoder
| c_sd_event_add_child (pid : Z)
| c_sd_event_add_io (fd : Z)
| c_sd_event_now
| c_sd_event_add_time (usec : Z)
| c_sd_event_source_unref (k : source_kind)
| c_sd_bus_default_system
| c_sd_bus_add_match (k : slot_kind) (sender : option string)
| c_sd_bus_slot_unref (k : slot_kind)
| c_sd_bus_unref
| c_sd_bus_message_skip
| c_sd_bus_message_enter_container
| c_sd_bus_message_new_method_call (dest : option string) (member : string)
| c_sd_bus_message_open_container (ty : ascii) (contents : string)
| c_sd_bus_message_append (b : bus_basic)
| c_sd_bus_message_close_container
| c_sd_bus_call (m : sd_bus_message).

(** What the controller does to the world: a call that leaves the file,
    with the value it returned; a call of the installed handler, with the
    state it was given; and a mark for every entry into
    [dispd_encoder_kill_child], which signals only if a child is
    watched. *)
Inductive effect : Type :=
| Call (c : extcall) (r : Z)
| Handler (s : dispd_encoder_state)
| KillChild.

(** ** The controller *)

(** [struct dispd_encoder].  A watcher pointer is [None] for NULL and
    otherwise carries what the code later asks the source for: the pid of
    the child watcher, the descriptor of the pipe watcher, the deadline
    of the timer.  [loop] is never read or written by the file and
    [userdata] is only handed back to the handler; both are left out.
    [handler] records whether a handler is installed. *)
Record dispd_encoder : Type := mk_encoder {
  ref : Z;
  child_source : option Z;
  child_term_time_source : option Z;
  pipe_source : option Z;
  bus : bool;
  name_disappeared_slot : bool;
  state_change_notify_slot : bool;
  name : option string;
  state : dispd_encoder_state;
  handler : bool;
}.

Definition set_ref (e : dispd_encoder) (v : Z) : dispd_encoder :=
  mk_encoder v (child_source e) (child_term_time_source e) (pipe_source e)
    (bus e) (name_disappeared_slot e) (state_change_notify_slot e) (name e)
    (state e) (handler e).

Definition set_child_source (e : dispd_encoder) (v : option Z) : dispd_encoder :=
  mk_encoder (ref e) v (child_term_time_source e) (pipe_source e)
    (bus e) (name_disappeared_slot e) (state_change_notify_slot e) (name e)
    (state e) (handler e).

Definition set_child_term_time_source (e : dispd_encoder) (v : option Z)
  : dispd_encoder :=
  mk_encoder (ref e) (child_source e) v (pipe_source e)
    (bus e) (name_disappeared_slot e) (state_change_notify_slot e) (name e)
    (state e) (handler e).

Definition set_pipe_source (e : dispd_encoder) (v : option Z) : dispd_encoder :=
  mk_encoder (ref e) (child_source e) (child_term_time_source e) v
    (bus e) (name_disappeared_slot e) (state_change_notify_slot e) (name e)
    (state e) (handler e).

Definition set_bus (e : dispd_encoder) (v : bool) : dispd_encoder :=
  mk_encoder (ref e) (child_source e) (child_term_time_source e) (pipe_source e)
    v (name_disappeared_slot e) (state_change_notify_slot e) (name e)
    (state e) (handler e).

Definition set_name_disappeared_slot (e : dispd_encoder) (v : bool)
  : dispd_encoder :=
  mk_encoder (ref e) (child_source e) (child_term_time_source e) (pipe_source e)
    (bus e) v (state_change_notify_slot e) (name e) (state e) (handler e).

Definition set_state_change_notify_slot (e : dispd_encoder) (v : bool)
  : dispd_encoder :=
  mk_encoder (ref e) (child_source e) (child_term_time_source e) (pipe_source e)
    (bus e) (name_disappeared_slot e) v (name e) (state e) (handler e).

Definition set_name (e : dispd_encoder) (v : option string) : dispd_encoder :=
  mk_encoder (ref e) (child_source e) (child_term_time_source e) (pipe_source e)
    (bus e) (name_disappeared_slot e) (state_change_notify_slot e) v
    (state e) (handler e).

Definition set_state (e : dispd_encoder) (v : dispd_encoder_state)
  : dispd_encoder :=
  mk_encoder (ref e) (child_source e) (child_term_time_source e) (pipe_source e)
    (bus e) (name_disappeared_slot e) (state_change_notify_slot e) (name e)
    v (handler e).

Definition set_handler (e : dispd_encoder) (v : bool) : dispd_encoder :=
  mk_encoder (ref e) (child_source e) (child_term_time_source e) (pipe_source e)
    (bus e) (name_disappeared_slot e) (state_change_notify_slot e) (name e)
    (state e) v.

(** The memory [calloc] hands out: every field zero. *)
Definition zeroed : dispd_encoder :=
  mk_encoder 0 None None None false false false None
    DISPD_ENCODER_STATE_NULL false.

(** ** The world around the controller *)

(** [results n] is the value the [n]-th call that leaves the file
    returns ([calls] counts them); negative means failure, as sd-event and
    sd-bus report it and as [-errno] for a system call.  [clock] is the
    event loop's CLOCK_MONOTONIC time in microseconds and [pipe_buf] the
    bytes the worker wrote to its descriptor 3. *)
Record world : Type := mk_world {
  enc : dispd_encoder;
  results : nat -> Z;
  calls : nat;
  errno : Z;
  clock : Z;
  pipe_buf : string;
}.

Definition with_enc (w : world) (e : dispd_encoder) : world :=
  mk_world e (results w) (calls w) (errno w) (clock w) (pipe_buf w).

Definition with_calls (w : world) (n : nat) : world :=
  mk_world (enc w) (results w) n (errno w) (clock w) (pipe_buf w).

Definition with_errno (w : world) (v : Z) : world :=
  mk_world (enc w) (results w) (calls w) v (clock w) (pipe_buf w).

(** ** The monad: state and output *)

Definition M (A : Type) : Type := world -> A * world * list effect.

Definition ret {A} (a : A) : M A := fun w => (a, w, []).

Definition bind {A B} (m : M A) (f : A -> M B) : M B :=
  fun w =>
    let '(a, w1, o1) := m w in
    let '(b, w2, o2) := f a w1 in
    (b, w2, o1 ++ o2).

Notation "x <- c ;; k" := (bind c (fun x => k))
  (at level 200, c at level 100, k at level 200, right associativity).
Notation "c ;; k" := (bind c (fun _ => k))
  (at level 200, k at level 200, right associativity).

Definition get : M dispd_encoder := fun w => (enc w, w, []).
Definition put (e : dispd_encoder) : M unit := fun w => (tt, with_enc w e, []).
Definition modify (f : dispd_encoder -> dispd_encoder) : M unit :=
  fun w => (tt, with_enc w (f (enc w)), []).
Definition get_errno : M Z := fun w => (errno w, w, []).
Definition get_clock : M Z := fun w => (clock w, w, []).
Definition get_pipe_buf : M string := fun w => (pipe_buf w, w, []).
Definition emit (x : effect) : M unit := fun w => (tt, w, [x]).

(** A call whose result is not looked at ([close], [free], the unrefs). *)
Definition void (c : extcall) : M unit := emit (Call c 0).

(** A call into sd-event or sd-bus: the next result, as it is. *)
Definition ext (c : extcall) : M Z :=
  fun w => let r := results w (calls w) in
           (r, with_calls w (S (calls w)), [Call c r]).

(** A system call: a negative result [-n] stands for the call returning
    [-1] with [errno] set to [n]. *)
Definition syscall (c : extcall) : M Z :=
  fun w => let r := results w (calls w) in
           if r <? 0
           then (-1, with_errno (with_calls w (S (calls w))) (- r), [Call c r])
           else (r, with_calls w (S (calls w)), [Call c r]).

(** A call that returns a pointer ([calloc], [strdup]): [true] unless the
    next result is negative, which stands for NULL. *)
Definition ext_ptr (c : extcall) : M bool :=
  r <- ext c ;; ret (0 <=? r).

Definition result_of {A} (x : A * world * list effect) : A := fst (fst x).
Definition world_of {A} (x : A * world * list effect) : world := snd (fst x).
Definition output_of {A} (x : A * world * list effect) : list effect := snd x.

(** Modelled from the spec: [log_ERRNO], [log_vERRNO], [log_vERR] and
    [log_ENOMEM] come from shl_log.h, which is not part of the sources at
    hand.  The specification has errors "logged and propagated": the
    macros write a log line, which is not part of the model, and the
    ones with a value evaluate to the error to propagate, the negated
    [errno] for [log_ERRNO] and [- ENOMEM] for [log_ENOMEM].  The void
    ones only log. *)
Definition log_ERRNO : M Z := e <- get_errno ;; ret (- e).
Definition log_vERRNO : M unit := ret tt.
Definition log_vERR (r : Z) : M unit := ret tt.
Definition log_ENOMEM : M Z := ret (- ENOMEM).

(** Modelled from the spec: [assert_ret], [assert_retv] and [assert_vret]
    come from shl_macro.h, which is not part of the sources at hand.  The
    specification has a violated assertion "fail fast": the function
    returns at once, before it has done anything, [assert_ret] with an
    error value, here [- EINVAL].  Assertions on pointers that cannot be
    NULL in the model (the controller itself, the session, a method
    name) are always true and left out. *)
Definition assert_failed : M Z := ret (- EINVAL).

(** ** Reference counting *)

Definition dispd_encoder_ref : M unit :=
  e <- get ;;
  if 0 <? ref e then put (set_ref e (ref e + 1)) else ret tt.

(** [free (e)] is an output like any other call.  The record stays
    readable afterwards, all fields as they were, where C gives no
    meaning to a read of freed memory. *)
Definition dispd_encoder_unref : M unit :=
  e <- get ;;
  if 0 <? ref e then
    put (set_ref e (ref e - 1)) ;;
    e <- get ;;
    if negb (ref e =? 0) then ret tt
    else
      (if bus e then void c_sd_bus_unref else ret tt) ;;
      (match name e with Some _ => void c_free_name | None => ret tt end) ;;
      void c_free_encoder
  else ret tt.

Definition dispd_encoder_new : M Z :=
  p <- ext_ptr c_calloc ;;
  if negb p then log_ENOMEM
  else put (set_ref zeroed 1) ;; ret 0.

(** ** Watchers and the child process *)

Definition dispd_encoder_close_pipe : M unit :=
  e <- get ;;
  match pipe_source e with
  | None => ret tt
  | Some fd =>
      void (c_close fd) ;;
      void (c_sd_event_source_unref PIPE_SOURCE) ;;
      modify (fun e => set_pipe_source e None) ;;
      dispd_encoder_unref
  end.

Definition dispd_encoder_kill_child : M Z :=
  emit KillChild ;;
  e <- get ;;
  match child_source e with
  | None => ret 0
  | Some pid =>
      r <- syscall (c_kill pid SIGTERM) ;;
      if r <? 0 then log_ERRNO else ret 1
  end.

Definition dispd_encoder_notify_state_change (s : dispd_encoder_state)
  : M unit :=
  e <- get ;;
  if negb (handler e) then ret tt
  else
    dispd_encoder_ref ;;
    emit (Handler s) ;;
    dispd_encoder_unref.

Definition dispd_encoder_cleanup : M unit :=
  e <- get ;;
  (match child_source e with
   | Some _ =>
       void (c_sd_event_source_unref CHILD_SOURCE) ;;
       modify (fun e => set_child_source e None) ;;
       dispd_encoder_unref
   | None => ret tt
   end) ;;
  e <- get ;;
  (match child_term_time_source e with
   | Some _ =>
       void (c_sd_event_source_unref CHILD_TERM_TIME_SOURCE) ;;
       modify (fun e => set_child_term_time_source e None) ;;
       dispd_encoder_unref
   | None => ret tt
   end) ;;
  e <- get ;;
  (match child_source e with
   | Some _ =>
       void (c_sd_event_source_unref CHILD_SOURCE) ;;
       modify (fun e => set_child_source e None) ;;
       dispd_encoder_unref
   | None => ret tt
   end) ;;
  dispd_encoder_close_pipe ;;
  e <- get ;;
  (if name_disappeared_slot e then
     void (c_sd_bus_slot_unref NAME_DISAPPEARED_SLOT) ;;
     modify (fun e => set_name_disappeared_slot e false) ;;
     dispd_encoder_unref
   else ret tt) ;;
  e <- get ;;
  (if state_change_notify_slot e then
     void (c_sd_bus_slot_unref STATE_CHANGE_NOTIFY_SLOT) ;;
     modify (fun e => set_state_change_notify_slot e false) ;;
     dispd_encoder_unref
   else ret tt).

(** ** The state and its observer *)

Definition dispd_encoder_set_handler (h : bool) : M unit :=
  modify (fun e => set_handler e h).

Definition dispd_encoder_get_state : M dispd_encoder_state :=
  e <- get ;; ret (state e).

Definition dispd_encoder_set_state (s : dispd_encoder_state) : M unit :=
  e <- get ;;
  if state_eqb (state e) s then ret tt
  else
    modify (fun e => set_state e s) ;;
    dispd_encoder_notify_state_change s.

Definition on_child_terminated : M Z :=
  dispd_encoder_set_state DISPD_ENCODER_STATE_TERMINATED ;;
  dispd_encoder_cleanup ;;
  ret 0.

(** ** Spawning the worker (the parent's side) *)

(** The labels [close_pipe], [kill_encoder] and [end] of
    [dispd_encoder_spawn], each falling through to the next.  The
    function's local reference [e] carries the [_dispd_encoder_unref_]
    clean-up, which runs after the return value has been computed. *)
Definition spawn_end : M (option Z) :=
  r <- log_ERRNO ;;
  dispd_encoder_unref ;;
  ret (Some r).

Definition spawn_kill_encoder (pid : Z) : M (option Z) :=
  _ <- syscall (c_kill pid SIGKILL) ;;
  spawn_end.

Definition spawn_close_pipe (fds : Z * Z) (pid : Z) : M (option Z) :=
  void (c_close (fst fds)) ;;
  void (c_close (snd fds)) ;;
  spawn_kill_encoder pid.

(** [fds] are the two descriptors [pipe] fills in.  The result is [None]
    in the forked child, which goes on to [dispd_encoder_exec] and never
    returns to the caller. *)
Definition dispd_encoder_spawn (fds : Z * Z) : M (option Z) :=
  r <- dispd_encoder_new ;;
  if r <? 0 then (r <- log_ERRNO ;; ret (Some r))
  else
    r <- syscall c_pipe ;;
    if r <? 0 then spawn_end
    else
      pid <- syscall c_fork ;;
      if pid <? 0 then spawn_kill_encoder pid
      else if pid =? 0 then ret None
      else
        dispd_encoder_ref ;;
        r <- ext (c_sd_event_add_child pid) ;;
        if r <? 0 then spawn_close_pipe fds pid
        else
          modify (fun e => set_child_source e (Some pid)) ;;
          dispd_encoder_ref ;;
          r <- ext (c_sd_event_add_io (fst fds)) ;;
          if r <? 0 then spawn_close_pipe fds pid
          else
            modify (fun e => set_pipe_source e (Some (fst fds))) ;;
            void (c_close (snd fds)) ;;
            dispd_encoder_ref ;;
            dispd_encoder_unref ;;
            ret (Some 0).

(** ** Notifications from the bus *)

(** A PropertiesChanged body as the callback reads it: the changed
    properties in order, each with its variant, which is either a 32-bit
    integer or something the read with type ["i"] fails on. *)
Inductive prop_value : Type :=
| P_int (value : Z)
| P_other.

Definition properties : Type := list (string * prop_value).

(** The [switch] of [on_encoder_properties_changed]. *)
Definition state_of_value (value : Z) : option dispd_encoder_state :=
  match value with
  | 0 => Some DISPD_ENCODER_STATE_NULL
  | 1 => Some DISPD_ENCODER_STATE_CONFIGURED
  | 2 => Some DISPD_ENCODER_STATE_READY
  | 3 => Some DISPD_ENCODER_STATE_STARTED
  | 4 => Some DISPD_ENCODER_STATE_PAUSED
  | 5 => Some DISPD_ENCODER_STATE_TERMINATED
  | _ => None
  end.

(** The [while] loop over the entries that are left.  The result is
    [None] where the callback does not return.  Inside the array
    [sd_bus_message_at_end (m, true)] is never true, and at the end of the
    array [sd_bus_message_read] returns zero and leaves [name] as it was:
    the loop leaves only through one of its [return]s or its [break], and
    once the entries are used up it goes on comparing the name of the
    last entry, which was not ["State"], or, in an empty array, a name
    that was never set. *)
Fixpoint properties_loop (m : properties) : M (option Z) :=
  match m with
  | [] => ret None
  | (n, v) :: rest =>
      match v with
      | P_other => r <- log_ERRNO ;; ret (Some r)
      | P_int value =>
          if negb (String.eqb "State" n) then properties_loop rest
          else
            match state_of_value value with
            | None => ret (Some 0)
            | Some s => dispd_encoder_set_state s ;; ret (Some 0)
            end
      end
  end.

Definition on_encoder_properties_changed (m : properties) : M (option Z) :=
  r <- ext c_sd_bus_message_skip ;;
  if r <? 0 then (r <- log_ERRNO ;; ret (Some r))
  else
    r <- ext c_sd_bus_message_enter_container ;;
    if r <? 0 then (r <- log_ERRNO ;; ret (Some r))
    else properties_loop m.

Definition on_encoder_disappeared : M Z :=
  r <- dispd_encoder_kill_child ;;
  if r <? 0 then log_ERRNO
  else if negb (r =? 0) then ret 0
  else dispd_encoder_cleanup ;; ret 0.

(** ** The handshake *)

(** The labels [error] and [end] of [on_unique_readable]. *)
Definition unique_readable_end (r : Z) : M Z :=
  dispd_encoder_close_pipe ;;
  ret r.

Definition unique_readable_error (r : Z) : M Z :=
  log_vERRNO ;;
  _ <- dispd_encoder_kill_child ;;
  unique_readable_end r.

Definition on_unique_readable (fd : Z) : M Z :=
  r <- syscall (c_read fd) ;;
  if r <? 0 then
    (en <- get_errno ;;
     if EAGAIN =? en then ret 0 else unique_readable_error r)
  else if r =? 0 then unique_readable_error r
  else
    buf <- get_pipe_buf ;;
    p <- ext_ptr c_strdup ;;
    modify (fun e =>
      set_name e (if p then Some (substring 0 (Z.to_nat r) buf) else None)) ;;
    if negb p then unique_readable_error r
    else
      r <- ext c_sd_bus_default_system ;;
      if r <? 0 then unique_readable_error r
      else
        modify (fun e => set_bus e true) ;;
        e <- get ;;
        dispd_encoder_ref ;;
        r <- ext (c_sd_bus_add_match STATE_CHANGE_NOTIFY_SLOT (name e)) ;;
        if r <? 0 then unique_readable_error r
        else
          modify (fun e => set_state_change_notify_slot e true) ;;
          dispd_encoder_ref ;;
          r <- ext (c_sd_bus_add_match NAME_DISAPPEARED_SLOT (name e)) ;;
          (if r <? 0 then ret tt
           else modify (fun e => set_name_disappeared_slot e true)) ;;
          dispd_encoder_set_state DISPD_ENCODER_STATE_SPAWNED ;;
          unique_readable_end r.

(** ** The Configure request *)

(** Modelled from the spec: [struct wfd_session], [struct wfd_sink] and
    [struct wfd_rectangle] are declared in wfd-session.h and disp.h, which
    are not part of the sources at hand.  The record holds what
    [dispd_encoder_configure] reads: [wfd_is_out_session (s)], the sink's
    peer addresses, the two stream ports and the display dimension, which
    is [None] when [wfd_session_get_disp_dimension] returns NULL. *)
Record wfd_rectangle : Type := mk_rectangle {
  rect_x : Z;
  rect_y : Z;
  rect_width : Z;
  rect_height : Z;
}.

Record wfd_session : Type := mk_session {
  is_out_session : bool;
  remote_address : string;
  local_address : string;
  rtp_port : Z;
  rtcp_port : Z;
  disp_dimension : option wfd_rectangle;
}.

(** The variadic argument of [config_append] with its type string: ["s"]
    takes a [char *], ["u"] a [uint32_t]. *)
Inductive config_value : Type :=
| V_s (s : string)
| V_u (v : Z).

Definition type_string (v : config_value) : string :=
  match v with V_s _ => "s"%string | V_u _ => "u"%string end.

Definition uint32 (v : Z) : Z := v mod 2 ^ 32.

Definition basic_of (v : config_value) : bus_basic :=
  match v with V_s s => B_str s | V_u v => B_u32 (uint32 v) end.

(** An sd-bus call that appends to a message: on failure the message is
    left as it was. *)
Definition msg_op (c : extcall) (i : bus_item) (m : sd_bus_message)
  : M (Z * sd_bus_message) :=
  r <- ext c ;;
  ret (r, if r <? 0 then m else msg_add m i).

Definition sd_bus_message_open_container (m : sd_bus_message)
    (ty : ascii) (contents : string) : M (Z * sd_bus_message) :=
  msg_op (c_sd_bus_message_open_container ty contents) (Open ty contents) m.

Definition sd_bus_message_append (m : sd_bus_message) (b : bus_basic)
  : M (Z * sd_bus_message) :=
  msg_op (c_sd_bus_message_append b) (Basic b) m.

Definition sd_bus_message_close_container (m : sd_bus_message)
  : M (Z * sd_bus_message) :=
  msg_op c_sd_bus_message_close_container Close m.

(** [r = f (...); if (0 > r) return log_ERRNO ();] inside
    [config_append]: the function returns what [log_ERRNO] evaluates to,
    with the message as it stands. *)
Definition checked (c : M (Z * sd_bus_message))
    (k : sd_bus_message -> M (Z * sd_bus_message)) : M (Z * sd_bus_message) :=
  rm <- c ;;
  if fst rm <? 0 then (r <- log_ERRNO ;; ret (r, snd rm))
  else k (snd rm).

Notation "'check' m <- c ;; k" := (checked c (fun m => k))
  (at level 10, m name, c at level 100, k at level 200).

Definition config_append (m : sd_bus_message) (k : wfd_encoder_config)
    (v : config_value) : M (Z * sd_bus_message) :=
  check m <- sd_bus_message_open_container m "e" "iv" ;;
  check m <- sd_bus_message_append m (B_int k) ;;
  check m <- sd_bus_message_open_container m "v" (type_string v) ;;
  check m <- sd_bus_message_append m (basic_of v) ;;
  check m <- sd_bus_message_close_container m ;;
  check m <- sd_bus_message_close_container m ;;
  ret (0, m).

(** The same statement inside [dispd_encoder_configure]: [inl r] says
    that the function has returned [r], [inr m] that it goes on with the
    message [m]. *)
Definition or_return (c : M (Z * sd_bus_message))
    (k : sd_bus_message -> M (Z + sd_bus_message))
  : M (Z + sd_bus_message) :=
  rm <- c ;;
  if fst rm <? 0 then (r <- log_ERRNO ;; ret (inl r))
  else k (snd rm).

Definition and_then (c : M (Z + sd_bus_message))
    (k : sd_bus_message -> M (Z + sd_bus_message))
  : M (Z + sd_bus_message) :=
  x <- c ;;
  match x with
  | inl r => ret (inl r)
  | inr m => k m
  end.

Notation "'try' m <- c ;; k" := (or_return c (fun m => k))
  (at level 10, m name, c at level 100, k at level 200).
Notation "'block' m <- c ;; k" := (and_then c (fun m => k))
  (at level 10, m name, c at level 100, k at level 200).

(** The two [if (s->stream.rtcp_port)] blocks and the [if (rect)] block
    of [dispd_encoder_configure]. *)
Definition configure_rtcp (m : sd_bus_message) (s : wfd_session)
    (k : wfd_encoder_config) : M (Z + sd_bus_message) :=
  if negb (rtcp_port s =? 0) then
    try m <- config_append m k (V_u (rtcp_port s)) ;;
    ret (inr m)
  else ret (inr m).

Definition configure_rect (m : sd_bus_message) (s : wfd_session)
  : M (Z + sd_bus_message) :=
  match disp_dimension s with
  | None => ret (inr m)
  | Some rect =>
      try m <- config_append m WFD_ENCODER_CONFIG_X (V_u (rect_x rect)) ;;
      try m <- config_append m WFD_ENCODER_CONFIG_Y (V_u (rect_y rect)) ;;
      try m <- config_append m WFD_ENCODER_CONFIG_WIDTH
                 (V_u (rect_width rect)) ;;
      try m <- config_append m WFD_ENCODER_CONFIG_HEIGHT
                 (V_u (rect_height rect)) ;;
      ret (inr m)
  end.

(** [dispd_encoder_configure] up to [sd_bus_call]: the request as it
    stands there, or the value the function has returned before. *)
Definition configure_build (s : wfd_session) : M (Z + sd_bus_message) :=
  e <- get ;;
  let call := mk_message (name e) "Configure" [] in
  try call <- (r <- ext (c_sd_bus_message_new_method_call
                           (name e) "Configure") ;; ret (r, call)) ;;
  try call <- sd_bus_message_open_container call "a" "{iv}" ;;
  try call <- config_append call WFD_ENCODER_CONFIG_PEER_ADDRESS
                (V_s (remote_address s)) ;;
  try call <- config_append call WFD_ENCODER_CONFIG_RTP_PORT0
                (V_u (rtp_port s)) ;;
  block call <- configure_rtcp call s WFD_ENCODER_CONFIG_PEER_RTCP_PORT ;;
  try call <- config_append call WFD_ENCODER_CONFIG_LOCAL_ADDRESS
                (V_s (local_address s)) ;;
  block call <- configure_rtcp call s WFD_ENCODER_CONFIG_LOCAL_RTCP_PORT ;;
  block call <- configure_rect call s ;;
  try call <- sd_bus_message_close_container call ;;
  ret (inr call).

Definition dispd_encoder_configure (s : wfd_session) : M Z :=
  e <- get ;;
  if negb (bus e) then assert_failed
  else if negb (is_out_session s) then assert_failed
  else
    x <- configure_build s ;;
    match x with
    | inl r => ret r
    | inr call =>
        r <- ext (c_sd_bus_call call) ;;
        if r <? 0 then log_ERRNO
        else ret 0
    end.

(** ** Start, Pause and Stop *)

Definition dispd_encoder_call (method : string) : M Z :=
  e <- get ;;
  if negb (bus e) then assert_failed
  else
    r <- ext (c_sd_bus_message_new_method_call (name e) method) ;;
    if r <? 0 then
      (log_vERR r ;; _ <- dispd_encoder_kill_child ;; ret r)
    else
      r <- ext (c_sd_bus_call (mk_message (name e) method [])) ;;
      if r <? 0 then (_ <- dispd_encoder_kill_child ;; ret r)
      else ret 0.

Definition dispd_encoder_start : M Z := dispd_encoder_call "Start".

Definition dispd_encoder_pause : M Z := dispd_encoder_call "Pause".

Definition on_child_term_timeout : M Z :=
  _ <- dispd_encoder_kill_child ;;
  ret 0.

Definition uint64 (v : Z) : Z := v mod 2 ^ 64.

Definition dispd_encoder_stop : M Z :=
  r <- dispd_encoder_call "Stop" ;;
  if r <? 0 then ret r
  else
    r <- ext c_sd_event_now ;;
    if r <? 0 then
      (log_vERR r ;; _ <- dispd_encoder_kill_child ;; ret r)
    else
      now <- get_clock ;;
      dispd_encoder_ref ;;
      r <- ext (c_sd_event_add_time (uint64 (now + 1000 * 1000))) ;;
      if r <? 0 then
        (log_vERR r ;; _ <- dispd_encoder_kill_child ;; ret r)
      else
        modify (fun e =>
          set_child_term_time_source e (Some (uint64 (now + 1000 * 1000)))) ;;
        _ <- dispd_encoder_kill_child ;;
        ret r.

(** ** The event loop and the owner *)

(** What can happen to a controller: the event loop runs one of the
    callbacks registered with it, or the owner calls into the file. *)
Inductive event : Type :=
| ChildTerminated
| UniqueReadable
| PropertiesChanged (m : properties)
| NameOwnerChanged
| ChildTermTimeout
| Configure (s : wfd_session)
| Start
| Pause
| Stop
| SetHandler (h : bool)
| Ref
| Unref.

(** A callback runs only while its source or slot is registered.  The
    timer callback is let run at any time: a second [dispd_encoder_stop]
    overwrites [child_term_time_source], and the timer it replaces stays
    in the loop. *)
Definition dispatch (ev : event) : M unit :=
  e <- get ;;
  match ev with
  | ChildTerminated =>
      match child_source e with
      | Some _ => _ <- on_child_terminated ;; ret tt
      | None => ret tt
      end
  | UniqueReadable =>
      match pipe_source e with
      | Some fd => _ <- on_unique_readable fd ;; ret tt
      | None => ret tt
      end
  | PropertiesChanged m =>
      if state_change_notify_slot e
      then _ <- on_encoder_properties_changed m ;; ret tt
      else ret tt
  | NameOwnerChanged =>
      if name_disappeared_slot e
      then _ <- on_encoder_disappeared ;; ret tt
      else ret tt
  | ChildTermTimeout => _ <- on_child_term_timeout ;; ret tt
  | Configure s => _ <- dispd_encoder_configure s ;; ret tt
  | Start => _ <- dispd_encoder_start ;; ret tt
  | Pause => _ <- dispd_encoder_pause ;; ret tt
  | Stop => _ <- dispd_encoder_stop ;; ret tt
  | SetHandler h => dispd_encoder_set_handler h
  | Ref => dispd_encoder_ref
  | Unref => dispd_encoder_unref
  end.

(** A sequence of events.  Where a notification's callback does not
    return, the program stops there, and the events listed after it are
    events that never happen; the controller they are run from is the
    one that callback has left.  What holds for every sequence holds for
    the part of it that happens. *)
Fixpoint dispatch_all (evs : list event) : M unit :=
  match evs with
  | [] => ret tt
  | ev :: rest => dispatch ev ;; dispatch_all rest
  end.

(** The world before [dispd_encoder_spawn]: no controller yet, and the
    results the calls to come will return. *)
Definition boot (rs : list Z) (buf : string) : world :=
  mk_world zeroed (fun n => nth n rs 0) 0 0 0 buf.

(** ** What the statements below are written with *)

(** The registrations of a controller are all gone. *)
Definition torn_down (e : dispd_encoder) : Prop :=
  child_source e = None /\ child_term_time_source e = None /\
  pipe_source e = None /\ name_disappeared_slot e = false /\
  state_change_notify_slot e = false.

(** The controller with every watcher and subscription removed. *)
Definition cleared (e : dispd_encoder) : dispd_encoder :=
  mk_encoder (ref e) None None None (bus e) false false (name e)
    (state e) (handler e).

(** How often the controller was handed to [free]. *)
Fixpoint frees (o : list effect) : nat :=
  match o with
  | [] => 0
  | Call c_free_encoder _ :: rest => S (frees rest)
  | _ :: rest => frees rest
  end.

(** The states the codes 0 to 5 of a notification stand for, in the
    order the specification lists them. *)
Definition code_table : list dispd_encoder_state :=
  [ DISPD_ENCODER_STATE_NULL; DISPD_ENCODER_STATE_CONFIGURED;
    DISPD_ENCODER_STATE_READY; DISPD_ENCODER_STATE_STARTED;
    DISPD_ENCODER_STATE_PAUSED; DISPD_ENCODER_STATE_TERMINATED ].

(** No entry of [pre] is named ["State"]; every entry of [pre] can be
    read as an integer. *)
Definition no_state_entry (pre : properties) : Prop :=
  Forall (fun nv => fst nv <> "State"%string) pre.

Definition readable (pre : properties) : Prop :=
  Forall (fun nv => exists value, snd nv = P_int value) pre.

(** The entries of a Configure request as the specification lists them:
    peer address, RTP port, peer RTCP port unless the port is zero, local
    address, local RTCP port unless the port is zero, and the four
    rectangle entries when the session has a display rectangle.  The
    session carries one RTCP port, [stream.rtcp_port], and the code reads
    it for both RTCP entries. *)
Definition expected_entries (s : wfd_session)
  : list (wfd_encoder_config * bus_basic) :=
  [ (WFD_ENCODER_CONFIG_PEER_ADDRESS, B_str (remote_address s));
    (WFD_ENCODER_CONFIG_RTP_PORT0, B_u32 (uint32 (rtp_port s))) ]
  ++ (if rtcp_port s =? 0 then []
      else [ (WFD_ENCODER_CONFIG_PEER_RTCP_PORT,
              B_u32 (uint32 (rtcp_port s))) ])
  ++ [ (WFD_ENCODER_CONFIG_LOCAL_ADDRESS, B_str (local_address s)) ]
  ++ (if rtcp_port s =? 0 then []
      else [ (WFD_ENCODER_CONFIG_LOCAL_RTCP_PORT,
              B_u32 (uint32 (rtcp_port s))) ])
  ++ match disp_dimension s with
     | None => []
     | Some rect =>
         [ (WFD_ENCODER_CONFIG_X, B_u32 (uint32 (rect_x rect)));
           (WFD_ENCODER_CONFIG_Y, B_u32 (uint32 (rect_y rect)));
           (WFD_ENCODER_CONFIG_WIDTH, B_u32 (uint32 (rect_width rect)));
           (WFD_ENCODER_CONFIG_HEIGHT, B_u32 (uint32 (rect_height rect))) ]
     end.

(** Reading a message body back: an array of dictionary entries, each an
    integer key and a variant. *)
Fixpoint entries_of (body : list bus_item)
  : option (list (wfd_encoder_config * bus_basic)) :=
  match body with
  | [Close] => Some []
  | Open ty c :: Basic (B_int k) :: Open ty' _ :: Basic b
      :: Close :: Close :: rest =>
      if (Ascii.eqb ty "e" && String.eqb c "iv" && Ascii.eqb ty' "v")%bool
      then option_map (cons (k, b)) (entries_of rest)
      else None
  | _ => None
  end.

Definition request_entries (m : sd_bus_message)
  : option (list (wfd_encoder_config * bus_basic)) :=
  match msg_body m with
  | Open ty c :: rest =>
      if (Ascii.eqb ty "a" && String.eqb c "{iv}")%bool
      then entries_of rest else None
  | _ => None
  end.

(** The keys [config_append] asked the bus library to write, in order,
    whether or not the library did. *)
Fixpoint appended_keys (o : list effect) : list wfd_encoder_config :=
  match o with
  | [] => []
  | Call (c_sd_bus_message_append (B_int k)) _ :: rest =>
      k :: appended_keys rest
  | _ :: rest => appended_keys rest
  end.

(** [keeps_at P Q m w]: when the controller of [w] satisfies [P], so does
    the controller [m] leaves behind, and everything [m] emits satisfies
    [Q]. *)
Definition keeps_at {A} (P : dispd_encoder -> Prop) (Q : effect -> Prop)
    (m : M A) (w : world) : Prop :=
  P (enc w) -> P (enc (world_of (m w))) /\ Forall Q (output_of (m w)).

Definition keeps {A} (P : dispd_encoder -> Prop) (Q : effect -> Prop)
    (m : M A) : Prop :=
  forall w, keeps_at P Q m w.

(** The classes of calls a footprint tells apart. *)
Inductive call_class : Type :=
| K_kill | K_key | K_message | K_send | K_other.

Definition class_of (c : extcall) : call_class :=
  match c with
  | c_kill _ _ => K_kill
  | c_sd_bus_message_append (B_int _) => K_key
  | c_sd_bus_message_new_method_call _ _
  | c_sd_bus_message_open_container _ _
  | c_sd_bus_message_append _
  | c_sd_bus_message_close_container => K_message
  | c_sd_bus_call _ => K_send
  | _ => K_other
  end.

(** While the child with this pid is watched: the watcher is there, and
    whatever else was registered in [e0] is still registered in [e]. *)
Definition stays_registered (pid : Z) (e0 e : dispd_encoder) : Prop :=
  child_source e = Some pid
  /\ (child_term_time_source e0 <> None -> child_term_time_source e <> None)
  /\ (name_disappeared_slot e0 = true -> name_disappeared_slot e = true)
  /\ (state_change_notify_slot e0 = true -> state_change_notify_slot e = true).

(** The state is TERMINATED and neither the handshake nor a state-change
    notification can reach the controller any more. *)
Definition terminal (e : dispd_encoder) : Prop :=
  state e = DISPD_ENCODER_STATE_TERMINATED
  /\ pipe_source e = None /\ state_change_notify_slot e = false.

Definition no_handler (x : effect) : Prop := forall s, x <> Handler s.

(** The events that do not report a state: everything but a state-change
    notification and the handshake. *)
Definition reports_no_state (ev : event) : Prop :=
  match ev with
  | PropertiesChanged _ | UniqueReadable => False
  | _ => True
  end.

(** Neither [dispd_encoder_kill_child] nor [kill] itself. *)
Definition no_kill (x : effect) : Prop :=
  x <> KillChild /\ forall pid sig r, x <> Call (c_kill pid sig) r.

Definition no_send (x : effect) : Prop :=
  forall m r, x <> Call (c_sd_bus_call m) r.

(** Every key written is one the specification lists for the session. *)
Definition listed_key (s : wfd_session) (x : effect) : Prop :=
  forall k r, x = Call (c_sd_bus_message_append (B_int k)) r ->
              In k (map fst (expected_entries s)).


(** Every call to come succeeds. *)
Definition all_succeed (w : world) : Prop := forall n, 0 <= results w n.

(** The controller after [dispd_encoder_ref], and the deadline
    [dispd_encoder_stop] gives its timer. *)
Definition acquired (e : dispd_encoder) : dispd_encoder :=
  if 0 <? ref e then set_ref e (ref e + 1) else e.

Definition grace_deadline (w : world) : Z := uint64 (clock w + 1000 * 1000).

(** The items one entry of the request consists of, and the request
    with an entry added. *)
Definition items_of_entry (kb : wfd_encoder_config * bus_basic)
  : list bus_item :=
  [ Open "e" "iv"; Basic (B_int (fst kb));
    Open "v" (match snd kb with
              | B_str _ => "s" | B_u32 _ => "u" | B_int _ => "i"
              end)%string;
    Basic (snd kb); Close; Close ].

Definition msg_app (m : sd_bus_message) (l : list bus_item) : sd_bus_message :=
  mk_message (msg_destination m) (msg_member m) (msg_body m ++ l).

(** A controller is alive while its count is positive.  [balanced_at m w]:
    running [m] from [w] frees the controller exactly when it takes it
    from alive to not alive, and never brings it back. *)
Definition alive (e : dispd_encoder) : nat := if 0 <? ref e then 1 else 0.

Definition balanced_at {A} (m : M A) (w : world) : Prop :=
  alive (enc w)
  = (frees (output_of (m w)) + alive (enc (world_of (m w))))%nat.

Definition balanced {A} (m : M A) : Prop := forall w, balanced_at m w.

(** ** Counting references *)

(** How many registrations the controller holds, and the invariant of
    the count: an owner who holds [n] references and every registration
    are each covered by one reference. *)
Definition held (b : bool) : Z := if b then 1 else 0.

Definition is_some {A} (o : option A) : bool :=
  match o with Some _ => true | None => false end.

Definition regs (e : dispd_encoder) : Z :=
  held (is_some (child_source e))
  + held (is_some (child_term_time_source e))
  + held (is_some (pipe_source e))
  + held (name_disappeared_slot e)
  + held (state_change_notify_slot e).

Definition covered (n : Z) (e : dispd_encoder) : Prop :=
  0 <= n /\ n + regs e <= ref e.

(** What the functions that only move references and registrations make
    of the controller.  [exactly m f]: whatever else [m] does, it leaves
    the controller [f] makes of the one it found. *)
Definition released (e : dispd_encoder) : dispd_encoder :=
  if 0 <? ref e then set_ref e (ref e - 1) else e.

Definition close_pipe_enc (e : dispd_encoder) : dispd_encoder :=
  match pipe_source e with
  | Some _ => released (set_pipe_source e None)
  | None => e
  end.






Definition set_state_enc (s : dispd_encoder_state) (e : dispd_encoder)
  : dispd_encoder :=
  if state_eqb (state e) s then e
  else if handler e then released (acquired (set_state e s))
  else set_state e s.

Definition exactly (m : M unit) (f : dispd_encoder -> dispd_encoder)
  : Prop :=
  forall w, exists o, m w = (tt, with_enc w (f (enc w)), o).


(** ** The rest of the interface *)


(** [p] says whether the pointer [*e] is not NULL. *)
Definition dispd_encoder_unrefp (p : bool) : M unit :=
  if p then dispd_encoder_unref else ret tt.

(** ** Names of the states *)

(** Modelled from the spec: the header that declares
    [enum dispd_encoder_state] is not part of the sources at hand.  C
    numbers the constants of an enum from zero in the order of their
    declaration, which is taken to be the order of the [names] table. *)
Definition state_value (s : dispd_encoder_state) : Z :=
  match s with
  | DISPD_ENCODER_STATE_NULL => 0
  | DISPD_ENCODER_STATE_SPAWNED => 1
  | DISPD_ENCODER_STATE_CONFIGURED => 2
  | DISPD_ENCODER_STATE_READY => 3
  | DISPD_ENCODER_STATE_STARTED => 4
  | DISPD_ENCODER_STATE_PAUSED => 5
  | DISPD_ENCODER_STATE_TERMINATED => 6
  end.

Definition names : list string :=
  [ "NULL"; "SPAWNED"; "CONFIGURED"; "READY"; "STARTED"; "PAUSED";
    "TERMINATED" ]%string.

(** [s] is the integer the enum variable holds.  The result is [None]
    where [names[s]] would read past the table. *)
Definition state_to_name (s : Z) : option string :=
  if ((s <? 0) || (state_value DISPD_ENCODER_STATE_TERMINATED <? s))%bool
  then Some "unknown encoder state"%string
  else nth_error names (Z.to_nat s).

(** ** Spawning the worker (the child's side) *)

(** What the forked child does before the worker runs in its place. *)
Inductive child_call : Type :=
| x_close (fd : Z)
| x_sigprocmask
| x_dup2 (oldfd newfd : Z)
| x_execvpe (file : string) (argv envp : list string)
| x_exit (status : Z).

(** [snprintf (buf, size, ...)]: the buffer receives the first
    [size - 1] bytes of the formatted text. *)
Definition snprintf (size : nat) (text : string) : string :=
  substring 0 (size - 1) text.

(** [disp_name] and [disp_auth] are what [wfd_session_get_disp_name] and
    [wfd_session_get_disp_auth] return for the session.  [dup2_result] is
    what [dup2] returns, a negative [-n] standing for [-1] with [errno]
    set to [n], and [exec_ok] says whether [execvpe] found the program.
    The result is the calls made and the value returned, [None] when the
    function does not return: the worker has replaced the child, or the
    child has exited. *)
Definition dispd_encoder_exec (cmd : string) (fd : Z)
    (disp_name disp_auth : string) (dup2_result : Z) (exec_ok : bool)
  : list child_call * option Z :=
  let disp := snprintf 16 ("DISPLAY=" ++ disp_name) in
  let auth := snprintf 256 ("XAUTHORITY=" ++ disp_auth) in
  if dup2_result <? 0 then
    ([x_sigprocmask; x_dup2 fd 3], Some dup2_result)
  else
    ([x_sigprocmask; x_dup2 fd 3]
     ++ (if negb (fd =? 3) then [x_close fd] else [])
     ++ [x_execvpe cmd [cmd] [disp; auth; "G_MESSAGES_DEBUG=all"%string]]
     ++ (if exec_ok then [] else [x_exit 1]),
     None).

(** The branch of [dispd_encoder_spawn] that runs in the child, where
    [fork] has returned zero. *)
Definition spawn_child (fds : Z * Z) (disp_name disp_auth : string)
    (dup2_result : Z) (exec_ok : bool) : list child_call :=
  let x := dispd_encoder_exec "gstencoder" (snd fds) disp_name disp_auth
             dup2_result exec_ok in
  [x_close (fst fds)] ++ fst x
  ++ match snd x with
     | Some _ => [x_exit 1]
     | None => []
     end.

(** ** More of what the statements are written with *)

(** The states the handler was called with, in order. *)
Fixpoint handlers (o : list effect) : list dispd_encoder_state :=
  match o with
  | [] => []
  | Handler s :: rest => s :: handlers rest
  | _ :: rest => handlers rest
  end.

(** The signals sent, in order: the process and the signal. *)
Fixpoint signals (o : list effect) : list (Z * signal) :=
  match o with
  | [] => []
  | Call (c_kill pid sig) _ :: rest => (pid, sig) :: signals rest
  | _ :: rest => signals rest
  end.

(** The calls of an output, without the values they returned. *)
Fixpoint calls_of (o : list effect) : list extcall :=
  match o with
  | [] => []
  | Call c _ :: rest => c :: calls_of rest
  | _ :: rest => calls_of rest
  end.

(** The events that can change the state: they report what the worker
    did.  The owner's calls and the other callbacks are the rest. *)
Definition reports_state (ev : event) : bool :=
  match ev with
  | ChildTerminated | UniqueReadable | PropertiesChanged _ => true
  | _ => false
  end.

(** [m] calls the handler at most once, with the state the controller
    is in when [m] is over; and if it does not call it, then the state
    has not changed, unless no handler was installed. *)
Definition announces_at {A} (m : M A) (w : world) : Prop :=
  (handlers (output_of (m w)) = []
   /\ (handler (enc w) = true ->
       state (enc (world_of (m w))) = state (enc w)))
  \/ handlers (output_of (m w)) = [state (enc (world_of (m w)))].

(** Neither the state nor the handler is changed. *)
Definition same_observer (e0 e : dispd_encoder) : Prop :=
  state e = state e0 /\ handler e = handler e0.

(** The handshake callback is about to fail: the read returns nothing or
    an error other than EAGAIN, or one of the three steps after it
    fails. *)
Definition handshake_fails (w : world) : Prop :=
  let r := results w in
  let n := calls w in
  r n = 0
  \/ (r n < 0 /\ - r n <> EAGAIN)
  \/ (0 < r n
      /\ (r (S n) < 0
          \/ (0 <= r (S n)
              /\ (r (S (S n)) < 0
                  \/ (0 <= r (S (S n)) /\ r (S (S (S n))) < 0))))).

(** The handshake is over: the pipe watcher is gone; and since [e0] the
    name and the bus are the same and no subscription was added. *)
Definition after_handshake (e0 e : dispd_encoder) : Prop :=
  pipe_source e = None /\ name e = name e0 /\ bus e = bus e0
  /\ (name_disappeared_slot e = true -> name_disappeared_slot e0 = true)
  /\ (state_change_notify_slot e = true
      -> state_change_notify_slot e0 = true).


(** * Properties *)

(** ** Tools *)

Ltac munfold :=
  cbv beta iota zeta delta
    [bind ret get put modify get_errno get_clock get_pipe_buf emit void ext
     syscall ext_ptr log_ERRNO log_vERRNO log_vERR log_ENOMEM assert_failed
     result_of world_of output_of].

Ltac wsimpl :=
  cbn [enc results calls errno clock pipe_buf with_enc with_calls with_errno
       ref child_source child_term_time_source pipe_source bus
       name_disappeared_slot state_change_notify_slot name state handler
       set_ref set_child_source set_child_term_time_source set_pipe_source
       set_bus set_name_disappeared_slot set_state_change_notify_slot
       set_name set_state set_handler cleared fst snd app negb] in *.

Lemma state_eqb_refl (s : dispd_encoder_state) : state_eqb s s = true.
Proof. destruct s; reflexivity. Qed.

Lemma state_eqb_eq (a b : dispd_encoder_state) :
  state_eqb a b = true <-> a = b.
Proof.
  split.
  - destruct a, b; simpl; intro H; try reflexivity; discriminate H.
  - intros ->. apply state_eqb_refl.
Qed.

Lemma with_enc_same (w : world) : with_enc w (enc w) = w.
Proof. destruct w; reflexivity. Qed.

Lemma set_ref_same (e : dispd_encoder) : set_ref e (ref e) = e.
Proof. destruct e; reflexivity. Qed.

Lemma set_state_same (e : dispd_encoder) : set_state e (state e) = e.
Proof. destruct e; reflexivity. Qed.

(** ** Footprints of the functions *)

Section Footprint.

Variable P : dispd_encoder -> Prop.
Variable Q : effect -> Prop.

Lemma keeps_at_ret {A} (a : A) (w : world) : keeps_at P Q (ret a) w.
Proof. intro H. split; [exact H | constructor]. Qed.

Lemma keeps_at_bind {A B} (m : M A) (f : A -> M B) (w : world) :
  keeps_at P Q m w ->
  (forall a w', keeps_at P Q (f a) w') ->
  keeps_at P Q (bind m f) w.
Proof.
  unfold keeps_at, bind, world_of, output_of. intros Hm Hf HP.
  destruct (m w) as [[a w1] o1]. simpl in Hm.
  specialize (Hf a w1). destruct (f a w1) as [[b w2] o2]. simpl in *.
  destruct (Hm HP) as [HP1 HQ1]. destruct (Hf HP1) as [HP2 HQ2].
  split; [exact HP2 | apply Forall_app; split; assumption].
Qed.

Lemma keeps_at_get {B} (f : dispd_encoder -> M B) (w : world) :
  keeps_at P Q (f (enc w)) w -> keeps_at P Q (bind get f) w.
Proof.
  unfold keeps_at, bind, get, world_of, output_of. intros Hf HP.
  destruct (f (enc w) w) as [[b w2] o2]. simpl in *. exact (Hf HP).
Qed.

Lemma keeps_at_read {A B} (g : M A) (f : A -> M B) (w : world) :
  (forall w, exists a, g w = (a, w, [])) ->
  (forall a, keeps_at P Q (f a) w) -> keeps_at P Q (bind g f) w.
Proof.
  unfold keeps_at, bind, world_of, output_of. intros Hg Hf HP.
  destruct (Hg w) as [a ->]. specialize (Hf a).
  destruct (f a w) as [[b w2] o2]. simpl in *. exact (Hf HP).
Qed.

Lemma keeps_at_emit (x : effect) (w : world) :
  Q x -> keeps_at P Q (emit x) w.
Proof. intros Hx HP. split; [exact HP | repeat constructor; exact Hx]. Qed.

Lemma keeps_at_void (c : extcall) (w : world) :
  Q (Call c 0) -> keeps_at P Q (void c) w.
Proof. apply keeps_at_emit. Qed.

Lemma keeps_at_ext (c : extcall) (w : world) :
  (forall r, Q (Call c r)) -> keeps_at P Q (ext c) w.
Proof. intros Hx HP. split; [exact HP | repeat constructor; apply Hx]. Qed.

Lemma keeps_at_syscall (c : extcall) (w : world) :
  (forall r, Q (Call c r)) -> keeps_at P Q (syscall c) w.
Proof.
  intros Hx HP. unfold syscall, world_of, output_of.
  destruct (results w (calls w) <? 0); simpl;
    (split; [exact HP | repeat constructor; apply Hx]).
Qed.

Lemma keeps_at_ext_ptr (c : extcall) (w : world) :
  (forall r, Q (Call c r)) -> keeps_at P Q (ext_ptr c) w.
Proof.
  intros Hx. unfold ext_ptr. apply keeps_at_bind.
  - apply keeps_at_ext, Hx.
  - intros. apply keeps_at_ret.
Qed.

Lemma keeps_at_put (e : dispd_encoder) (w : world) :
  (P (enc w) -> P e) -> keeps_at P Q (put e) w.
Proof. intros He HP. split; [exact (He HP) | constructor]. Qed.

Lemma keeps_at_assume {A} (m : M A) (w : world) :
  (P (enc w) -> keeps_at P Q m w) -> keeps_at P Q m w.
Proof. intros H HP. exact (H HP HP). Qed.

Lemma keeps_at_modify (f : dispd_encoder -> dispd_encoder) (w : world) :
  (forall e, P e -> P (f e)) -> keeps_at P Q (modify f) w.
Proof. intros Hf HP. split; [apply Hf, HP | constructor]. Qed.

End Footprint.

Ltac kstep :=
  lazymatch goal with
  | |- keeps_at _ _ (bind get _) _ => apply keeps_at_get
  | |- keeps_at _ _ (bind get_errno _) _ =>
      apply keeps_at_read; [intro; eexists; reflexivity | intro]
  | |- keeps_at _ _ (bind get_clock _) _ =>
      apply keeps_at_read; [intro; eexists; reflexivity | intro]
  | |- keeps_at _ _ (bind get_pipe_buf _) _ =>
      apply keeps_at_read; [intro; eexists; reflexivity | intro]
  | |- keeps_at _ _ (bind _ _) _ => apply keeps_at_bind; [ | intros ? ? ]
  | |- keeps_at _ _ (checked _ _) _ => unfold checked
  | |- keeps_at _ _ (or_return _ _) _ => unfold or_return
  | |- keeps_at _ _ (and_then _ _) _ => unfold and_then
  | |- keeps_at _ _ (if ?c then _ else _) _ => destruct c eqn:?
  | |- keeps_at _ _ (match ?x with _ => _ end) _ => destruct x eqn:?
  | |- keeps_at _ _ (ret _) _ => apply keeps_at_ret
  | |- keeps_at _ _ (emit _) _ => apply keeps_at_emit
  | |- keeps_at _ _ (void _) _ => apply keeps_at_void
  | |- keeps_at _ _ (ext _) _ => apply keeps_at_ext; intro
  | |- keeps_at _ _ (syscall _) _ => apply keeps_at_syscall; intro
  | |- keeps_at _ _ (ext_ptr _) _ => apply keeps_at_ext_ptr; intro
  | |- keeps_at _ _ (put _) _ => apply keeps_at_put; intro
  | |- keeps_at _ _ (modify _) _ => apply keeps_at_modify; intros ? ?
  | |- keeps_at _ _ log_ERRNO _ => unfold log_ERRNO
  | |- keeps_at _ _ log_vERRNO _ => unfold log_vERRNO
  | |- keeps_at _ _ (log_vERR _) _ => unfold log_vERR
  | |- keeps_at _ _ log_ENOMEM _ => unfold log_ENOMEM
  | |- keeps_at _ _ assert_failed _ => unfold assert_failed
  end.

Section Functions.

Variable P : dispd_encoder -> Prop.
Variable Q : effect -> Prop.

Hypothesis P_ref : forall e v, P e -> P (set_ref e v).
Hypothesis P_child_none : forall e, P e -> P (set_child_source e None).
Hypothesis P_timer_none :
  forall e, P e -> P (set_child_term_time_source e None).
Hypothesis P_timer_some :
  forall e d, P e -> P (set_child_term_time_source e (Some d)).
Hypothesis P_pipe_none : forall e, P e -> P (set_pipe_source e None).
Hypothesis P_bus : forall e, P e -> P (set_bus e true).
Hypothesis P_name : forall e n, P e -> P (set_name e n).
Hypothesis P_name_slot_set :
  forall e, P e -> P (set_name_disappeared_slot e true).
Hypothesis P_name_slot_clear :
  forall e, P e -> P (set_name_disappeared_slot e false).
Hypothesis P_state_slot_set :
  forall e, P e -> P (set_state_change_notify_slot e true).
Hypothesis P_state_slot_clear :
  forall e, P e -> P (set_state_change_notify_slot e false).
Hypothesis P_state : forall e s, P e -> P (set_state e s).
Hypothesis P_handler : forall e h, P e -> P (set_handler e h).

Hypothesis Q_other : forall c r, class_of c = K_other -> Q (Call c r).
Hypothesis Q_message : forall c r, class_of c = K_message -> Q (Call c r).
Hypothesis Q_send : forall m r, Q (Call (c_sd_bus_call m) r).
Hypothesis Q_kill : forall pid r, Q (Call (c_kill pid SIGTERM) r).
Hypothesis Q_kill_child : Q KillChild.
Hypothesis Q_handler : forall s, Q (Handler s).

Ltac side :=
  solve [ assumption
        | apply Q_other; reflexivity
        | apply Q_message; reflexivity
        | apply Q_send
        | apply Q_kill | apply Q_kill_child | apply Q_handler
        | apply P_ref; assumption
        | apply P_child_none; assumption
        | apply P_timer_none; assumption
        | apply P_timer_some; assumption
        | apply P_pipe_none; assumption
        | apply P_bus; assumption
        | apply P_name; assumption
        | apply P_name_slot_set; assumption
        | apply P_name_slot_clear; assumption
        | apply P_state_slot_set; assumption
        | apply P_state_slot_clear; assumption
        | apply P_state; assumption
        | apply P_handler; assumption ].

Ltac ksolve := repeat (first [ kstep | side ]).

Lemma keeps_ref : keeps P Q dispd_encoder_ref.
Proof. intro w. unfold dispd_encoder_ref. ksolve. Qed.

Lemma keeps_unref : keeps P Q dispd_encoder_unref.
Proof. intro w. unfold dispd_encoder_unref. ksolve. Qed.

Lemma keeps_close_pipe : keeps P Q dispd_encoder_close_pipe.
Proof.
  intro w. unfold dispd_encoder_close_pipe. ksolve. apply keeps_unref.
Qed.


Lemma keeps_kill_child : keeps P Q dispd_encoder_kill_child.
Proof. intro w. unfold dispd_encoder_kill_child. ksolve. Qed.

Lemma keeps_notify_state_change (s : dispd_encoder_state) :
  keeps P Q (dispd_encoder_notify_state_change s).
Proof.
  intro w. unfold dispd_encoder_notify_state_change. ksolve.
  - apply keeps_ref.
  - apply keeps_unref.
Qed.

Lemma keeps_cleanup : keeps P Q dispd_encoder_cleanup.
Proof.
  intro w. unfold dispd_encoder_cleanup.
  ksolve; first [ apply keeps_unref | apply keeps_close_pipe ].
Qed.

Lemma keeps_set_state (s : dispd_encoder_state) :
  keeps P Q (dispd_encoder_set_state s).
Proof.
  intro w. unfold dispd_encoder_set_state. ksolve.
  apply keeps_notify_state_change.
Qed.

Lemma keeps_on_child_terminated : keeps P Q on_child_terminated.
Proof.
  intro w. unfold on_child_terminated. ksolve.
  - apply keeps_set_state.
  - apply keeps_cleanup.
Qed.

Lemma keeps_properties_loop (m : properties) :
  keeps P Q (properties_loop m).
Proof.
  induction m as [|[n v] rest IH]; intro w; simpl; ksolve.
  - apply IH.
  - apply keeps_set_state.
Qed.

Lemma keeps_on_encoder_properties_changed (m : properties) :
  keeps P Q (on_encoder_properties_changed m).
Proof.
  intro w. unfold on_encoder_properties_changed. ksolve.
  apply keeps_properties_loop.
Qed.

Lemma keeps_on_encoder_disappeared : keeps P Q on_encoder_disappeared.
Proof.
  intro w. unfold on_encoder_disappeared. ksolve.
  - apply keeps_kill_child.
  - apply keeps_cleanup.
Qed.

Lemma keeps_unique_readable_end (r : Z) :
  keeps P Q (unique_readable_end r).
Proof.
  intro w. unfold unique_readable_end. ksolve. apply keeps_close_pipe.
Qed.

Lemma keeps_unique_readable_error (r : Z) :
  keeps P Q (unique_readable_error r).
Proof.
  intro w. unfold unique_readable_error. ksolve.
  - apply keeps_kill_child.
  - apply keeps_unique_readable_end.
Qed.

Lemma keeps_on_unique_readable (fd : Z) :
  keeps P Q (on_unique_readable fd).
Proof.
  intro w. unfold on_unique_readable.
  ksolve;
    first [ apply keeps_unique_readable_error
          | apply keeps_unique_readable_end
          | apply keeps_ref
          | apply keeps_set_state ].
Qed.

Lemma keeps_call (method : string) : keeps P Q (dispd_encoder_call method).
Proof.
  intro w. unfold dispd_encoder_call. ksolve; apply keeps_kill_child.
Qed.

Lemma keeps_on_child_term_timeout : keeps P Q on_child_term_timeout.
Proof.
  intro w. unfold on_child_term_timeout. ksolve. apply keeps_kill_child.
Qed.

Lemma keeps_stop : keeps P Q dispd_encoder_stop.
Proof.
  intro w. unfold dispd_encoder_stop.
  ksolve;
    first [ apply keeps_call | apply keeps_kill_child | apply keeps_ref ].
Qed.

Lemma keeps_msg_op (c : extcall) (i : bus_item) (m : sd_bus_message) :
  (forall r, Q (Call c r)) -> keeps P Q (msg_op c i m).
Proof. intros Hc w. unfold msg_op. ksolve. apply Hc. Qed.

Lemma keeps_config_append (m : sd_bus_message) (k : wfd_encoder_config)
    (v : config_value) :
  (forall r, Q (Call (c_sd_bus_message_append (B_int k)) r)) ->
  keeps P Q (config_append m k v).
Proof.
  intros Hk w. unfold config_append, sd_bus_message_open_container,
    sd_bus_message_append, sd_bus_message_close_container.
  ksolve; apply keeps_msg_op; intro;
    first [ apply Hk | apply Q_message; destruct v; reflexivity ].
Qed.


Lemma keeps_start : keeps P Q dispd_encoder_start.
Proof. apply keeps_call. Qed.

Lemma keeps_pause : keeps P Q dispd_encoder_pause.
Proof. apply keeps_call. Qed.

Lemma keeps_set_handler (h : bool) : keeps P Q (dispd_encoder_set_handler h).
Proof. intro w. unfold dispd_encoder_set_handler. ksolve. Qed.

Section Configure.

Variable s : wfd_session.

Hypothesis Q_keys :
  forall k r, In k (map fst (expected_entries s)) ->
              Q (Call (c_sd_bus_message_append (B_int k)) r).

Ltac key :=
  intro; apply Q_keys; unfold expected_entries;
  repeat match goal with
         | H : negb _ = true |- _ => apply negb_true_iff in H; rewrite H
         | H : disp_dimension s = _ |- _ => rewrite H
         end;
  repeat match goal with
         | |- context [rtcp_port s =? 0] => destruct (rtcp_port s =? 0)
         | |- context [disp_dimension s] => destruct (disp_dimension s)
         end;
  simpl; auto 20.

Lemma keeps_configure_rtcp_peer (m : sd_bus_message) :
  keeps P Q (configure_rtcp m s WFD_ENCODER_CONFIG_PEER_RTCP_PORT).
Proof.
  intro w. unfold configure_rtcp. ksolve.
  apply keeps_config_append. key.
Qed.

Lemma keeps_configure_rtcp_local (m : sd_bus_message) :
  keeps P Q (configure_rtcp m s WFD_ENCODER_CONFIG_LOCAL_RTCP_PORT).
Proof.
  intro w. unfold configure_rtcp. ksolve.
  apply keeps_config_append. key.
Qed.

Lemma keeps_configure_rect (m : sd_bus_message) :
  keeps P Q (configure_rect m s).
Proof.
  intro w. unfold configure_rect. ksolve;
    apply keeps_config_append; key.
Qed.

Lemma keeps_configure_build : keeps P Q (configure_build s).
Proof.
  intro w. unfold configure_build, sd_bus_message_open_container,
    sd_bus_message_close_container.
  ksolve;
    first [ apply keeps_configure_rtcp_peer
          | apply keeps_configure_rtcp_local
          | apply keeps_configure_rect
          | apply keeps_msg_op; intro; apply Q_message; reflexivity
          | apply keeps_config_append; key ].
Qed.

Lemma keeps_configure : keeps P Q (dispd_encoder_configure s).
Proof.
  intro w. unfold dispd_encoder_configure. ksolve.
  apply keeps_configure_build.
Qed.

End Configure.

End Functions.

(** ** What a function leaves of the controller *)

(** The two reference operations touch the count only. *)
Lemma ref_frame (w : world) :
  exists v, dispd_encoder_ref w = (tt, with_enc w (set_ref (enc w) v), []).
Proof.
  unfold dispd_encoder_ref. munfold.
  destruct (0 <? ref (enc w)).
  - eexists; reflexivity.
  - exists (ref (enc w)). rewrite set_ref_same, with_enc_same. reflexivity.
Qed.

Lemma unref_frame (w : world) :
  exists v o, dispd_encoder_unref w = (tt, with_enc w (set_ref (enc w) v), o).
Proof.
  unfold dispd_encoder_unref. munfold. wsimpl.
  destruct (0 <? ref (enc w)).
  - wsimpl. destruct (negb (ref (enc w) - 1 =? 0)).
    + exists (ref (enc w) - 1), []. reflexivity.
    + destruct (bus (enc w)), (name (enc w)); wsimpl;
        eexists; eexists; reflexivity.
  - exists (ref (enc w)), [].
    rewrite set_ref_same, with_enc_same. reflexivity.
Qed.

Ltac frames :=
  repeat match goal with
         | |- context [dispd_encoder_unref ?w] =>
             let v := fresh "v" in
             let o := fresh "o" in
             let E := fresh "E" in
             destruct (unref_frame w) as (v & o & E); rewrite E; clear E;
             wsimpl
         | |- context [dispd_encoder_ref ?w] =>
             let v := fresh "v" in
             let E := fresh "E" in
             destruct (ref_frame w) as (v & E); rewrite E; clear E; wsimpl
         end.

Lemma close_pipe_frame (w : world) :
  exists v o,
    dispd_encoder_close_pipe w
    = (tt, with_enc w (set_ref (set_pipe_source (enc w) None) v), o).
Proof.
  unfold dispd_encoder_close_pipe. munfold.
  destruct w as [e rs n en clk buf].
  destruct e as [rf cs ts ps bs ns ss nm st hd]. wsimpl.
  destruct ps; wsimpl; frames; eexists; eexists; reflexivity.
Qed.

Lemma cleanup_frame (w : world) :
  exists v o,
    dispd_encoder_cleanup w = (tt, with_enc w (set_ref (cleared (enc w)) v), o).
Proof.
  unfold dispd_encoder_cleanup, dispd_encoder_close_pipe. munfold.
  destruct w as [e rs n en clk buf].
  destruct e as [rf cs ts ps bs ns ss nm st hd]. wsimpl.
  destruct cs, ts, ps, ns, ss;
    wsimpl; frames; eexists; eexists; reflexivity.
Qed.


Lemma set_state_frame (s : dispd_encoder_state) (w : world) :
  exists v o,
    dispd_encoder_set_state s w
    = (tt, with_enc w (set_ref (set_state (enc w) s) v), o).
Proof.
  unfold dispd_encoder_set_state, dispd_encoder_notify_state_change.
  munfold.
  destruct (state_eqb (state (enc w)) s) eqn:E.
  - apply state_eqb_eq in E. subst s. exists (ref (enc w)), [].
    rewrite set_state_same, set_ref_same, with_enc_same. reflexivity.
  - wsimpl. destruct (handler (enc w)); wsimpl.
    + frames. eexists; eexists; reflexivity.
    + exists (ref (enc w)), []. destruct w as [[] ? ? ? ? ?]; reflexivity.
Qed.

Lemma set_state_same_noop (w : world) (s : dispd_encoder_state) :
  state (enc w) = s -> dispd_encoder_set_state s w = (tt, w, []).
Proof.
  intros <-. unfold dispd_encoder_set_state. munfold.
  rewrite state_eqb_refl. reflexivity.
Qed.

Lemma kill_child_none (w : world) :
  child_source (enc w) = None ->
  dispd_encoder_kill_child w = (0, w, [KillChild]).
Proof.
  intro H. unfold dispd_encoder_kill_child. munfold. rewrite H. reflexivity.
Qed.

Lemma kill_child_delivered (w : world) (pid : Z) :
  child_source (enc w) = Some pid ->
  0 <= results w (calls w) ->
  dispd_encoder_kill_child w
  = (1, with_calls w (S (calls w)),
     [KillChild; Call (c_kill pid SIGTERM) (results w (calls w))]).
Proof.
  intros H Hr. apply Z.ltb_ge in Hr.
  unfold dispd_encoder_kill_child. munfold. rewrite H.
  cbv beta iota zeta. rewrite Hr. cbv beta iota zeta. wsimpl.
  rewrite Hr. reflexivity.
Qed.

Lemma kill_child_refused (w : world) (pid : Z) :
  child_source (enc w) = Some pid ->
  results w (calls w) < 0 ->
  dispd_encoder_kill_child w
  = (results w (calls w),
     with_errno (with_calls w (S (calls w))) (- results w (calls w)),
     [KillChild; Call (c_kill pid SIGTERM) (results w (calls w))]).
Proof.
  intros H Hr. apply Z.ltb_lt in Hr.
  unfold dispd_encoder_kill_child. munfold. rewrite H.
  cbv beta iota zeta. rewrite Hr. cbv beta iota zeta. wsimpl.
  replace (-1 <? 0) with true by reflexivity. wsimpl.
  rewrite Z.opp_involutive. reflexivity.
Qed.

(** Whatever [kill] answers, [dispd_encoder_kill_child] leaves the
    controller alone and signals the child it watches. *)
Lemma kill_child_enc (w : world) :
  enc (world_of (dispd_encoder_kill_child w)) = enc w.
Proof.
  destruct (child_source (enc w)) as [pid|] eqn:H.
  - destruct (Z.lt_ge_cases (results w (calls w)) 0).
    + rewrite (kill_child_refused w pid H); [reflexivity | assumption].
    + rewrite (kill_child_delivered w pid H); [reflexivity | assumption].
  - rewrite (kill_child_none w H). reflexivity.
Qed.

Lemma kill_child_signals (w : world) (pid : Z) :
  child_source (enc w) = Some pid ->
  output_of (dispd_encoder_kill_child w)
  = [KillChild; Call (c_kill pid SIGTERM) (results w (calls w))].
Proof.
  intro H. destruct (Z.lt_ge_cases (results w (calls w)) 0).
  - rewrite (kill_child_refused w pid H); [reflexivity | assumption].
  - rewrite (kill_child_delivered w pid H); [reflexivity | assumption].
Qed.

(** ** Setting the state *)

(** C7.  Setting the state to the value it already has does nothing: the
    controller and the rest of the world are left as they were and
    nothing is emitted, so the handler is not called. *)
Theorem set_state_current_is_noop (w : world) :
  dispd_encoder_set_state (state (enc w)) w = (tt, w, []).
Proof. apply set_state_same_noop. reflexivity. Qed.

(** ** State-change notifications *)

Lemma state_of_value_unknown (value : Z) :
  value < 0 \/ 5 < value -> state_of_value value = None.
Proof.
  intro H. unfold state_of_value.
  destruct value as [|p|p]; try lia; try reflexivity.
  do 3 (destruct p as [p|p|]; try lia; try reflexivity).
Qed.

Lemma state_of_value_table (value : Z) (s : dispd_encoder_state) :
  0 <= value ->
  nth_error code_table (Z.to_nat value) = Some s ->
  state_of_value value = Some s.
Proof.
  intros H0 H. assert (value < 6).
  { apply nth_error_Some_bound_index in H || idtac.
    destruct (Z.lt_ge_cases value 6); [assumption|].
    assert (nth_error code_table (Z.to_nat value) = None).
    { apply nth_error_None. simpl. lia. }
    congruence. }
  assert (value = 0 \/ value = 1 \/ value = 2 \/ value = 3 \/ value = 4
          \/ value = 5) as Hc by lia.
  destruct Hc as [->|[->|[->|[->|[->| ->]]]]]; simpl in H;
    inversion H; reflexivity.
Qed.

Lemma properties_loop_first (pre rest : properties) (v : prop_value)
    (w : world) :
  no_state_entry pre ->
  properties_loop (pre ++ ("State"%string, v) :: rest) w
  = properties_loop (pre ++ [("State"%string, v)]) w.
Proof.
  intro Hpre. revert w.
  induction Hpre as [|[n u] pre Hn Hpre IH]; intro w;
    cbn [properties_loop app].
  - reflexivity.
  - destruct u as [value|]; [|reflexivity].
    simpl in Hn. destruct (String.eqb_spec "State" n) as [E|E].
    + subst n. contradiction.
    + cbn [negb]. apply IH.
Qed.

Lemma properties_loop_unknown (pre rest : properties) (value : Z)
    (w : world) :
  no_state_entry pre ->
  value < 0 \/ 5 < value ->
  exists r,
    properties_loop (pre ++ ("State"%string, P_int value) :: rest) w
    = (r, w, []).
Proof.
  intros Hpre Hv. revert w.
  induction Hpre as [|[n u] pre Hn Hpre IH]; intro w;
    cbn [properties_loop app].
  - rewrite String.eqb_refl, (state_of_value_unknown value Hv).
    exists (Some 0). reflexivity.
  - destruct u as [u|].
    + simpl in Hn. destruct (String.eqb_spec "State" n) as [E|E].
      * subst n. contradiction.
      * cbn [negb]. apply IH.
    + eexists. reflexivity.
Qed.

Lemma properties_loop_known (pre rest : properties) (value : Z)
    (s : dispd_encoder_state) (w : world) :
  no_state_entry pre -> readable pre ->
  state_of_value value = Some s ->
  exists o,
    properties_loop (pre ++ ("State"%string, P_int value) :: rest) w
    = (Some 0, world_of (dispd_encoder_set_state s w), o).
Proof.
  intros Hpre Hrd Hs. revert w.
  induction Hpre as [|[n u] pre Hn Hpre IH]; intro w;
    cbn [properties_loop app].
  - rewrite String.eqb_refl, Hs. cbn [negb]. munfold.
    destruct (set_state_frame s w) as (v & o & ->).
    eexists. reflexivity.
  - inversion Hrd as [|? ? [u' Hu] Hrd']; subst. simpl in Hu. subst u.
    simpl in Hn. destruct (String.eqb_spec "State" n) as [E|E].
    + subst n. contradiction.
    + cbn [negb]. apply IH. assumption.
Qed.

(** C6.  In a state-change notification whose first entry named "State"
    carries the integer [value]: a value outside 0..5 leaves the
    controller as it was and the handler is not called; a value in 0..5
    makes the state the one the table lists for it (NULL, CONFIGURED,
    READY, STARTED, PAUSED, TERMINATED), provided the entries before it
    can be read and the message can be entered; and whatever follows that
    entry is not looked at. *)
Theorem state_notification_codes (w : world) (pre rest : properties)
    (value : Z) :
  no_state_entry pre ->
  let m := pre ++ ("State"%string, P_int value) :: rest in
  let x := on_encoder_properties_changed m w in
  (value < 0 \/ 5 < value ->
     enc (world_of x) = enc w /\ forall s, ~ In (Handler s) (output_of x))
  /\ (forall s,
        0 <= value -> nth_error code_table (Z.to_nat value) = Some s ->
        readable pre ->
        0 <= results w (calls w) -> 0 <= results w (S (calls w)) ->
        state (enc (world_of x)) = s /\ result_of x = Some 0)
  /\ x = on_encoder_properties_changed
           (pre ++ [("State"%string, P_int value)]) w.
Proof.
  intros Hpre m x. subst m x. unfold on_encoder_properties_changed.
  repeat split.
  - munfold.
    destruct (results w (calls w) <? 0); [reflexivity|]. wsimpl.
    destruct (results w (S (calls w)) <? 0); [reflexivity|].
    match goal with
    | |- context [properties_loop ?l ?w'] =>
        destruct (properties_loop_unknown pre rest value w' Hpre H) as [r ->]
    end.
    reflexivity.
  - munfold. intros s Hin.
    destruct (results w (calls w) <? 0);
      [simpl in Hin; intuition discriminate|]. wsimpl.
    destruct (results w (S (calls w)) <? 0);
      [simpl in Hin; intuition discriminate|].
    match type of Hin with
    | context [properties_loop ?l ?w'] =>
        destruct (properties_loop_unknown pre rest value w' Hpre H)
          as [r E]; rewrite E in Hin
    end.
    simpl in Hin. intuition discriminate.
  - munfold.
    destruct (Z.ltb_spec (results w (calls w)) 0); [lia|]. wsimpl.
    destruct (Z.ltb_spec (results w (S (calls w))) 0); [lia|].
    match goal with
    | |- context [properties_loop ?l ?w'] =>
        destruct (properties_loop_known pre rest value s w' Hpre H1
                    (state_of_value_table value s H H0)) as [o ->];
        destruct (set_state_frame s w') as (v & o' & ->)
    end.
    reflexivity.
  - munfold.
    destruct (Z.ltb_spec (results w (calls w)) 0); [lia|]. wsimpl.
    destruct (Z.ltb_spec (results w (S (calls w))) 0); [lia|].
    match goal with
    | |- context [properties_loop ?l ?w'] =>
        destruct (properties_loop_known pre rest value s w' Hpre H1
                    (state_of_value_table value s H H0)) as [o ->]
    end.
    reflexivity.
  - munfold.
    destruct (results w (calls w) <? 0); [reflexivity|]. wsimpl.
    destruct (results w (S (calls w)) <? 0); [reflexivity|].
    rewrite properties_loop_first by assumption. reflexivity.
Qed.

Lemma state_notification_codes_witness :
  let w := mk_world
             (mk_encoder 3 (Some 100) None None true true true
                (Some ":1.5"%string) DISPD_ENCODER_STATE_STARTED true)
             (fun _ => 0) 0 0 0 ""%string in
  let m := [("Volume"%string, P_int 7); ("State"%string, P_int 9);
            ("State"%string, P_int 5)] in
  enc (world_of (on_encoder_properties_changed m w)) = enc w
  /\ forall s, ~ In (Handler s) (output_of (on_encoder_properties_changed m w)).
Proof.
  intros w m.
  apply (state_notification_codes w [("Volume"%string, P_int 7)]
           [("State"%string, P_int 5)] 9).
  - repeat constructor. simpl. discriminate.
  - right. lia.
Defined.

(** ** Sequences of events *)

Lemma keeps_dispatch_all (P : dispd_encoder -> Prop) (Q : effect -> Prop)
    (evs : list event) :
  (forall ev, In ev evs -> keeps P Q (dispatch ev)) ->
  keeps P Q (dispatch_all evs).
Proof.
  induction evs as [|ev rest IH]; intros H w; cbn [dispatch_all].
  - apply keeps_at_ret.
  - apply keeps_at_bind.
    + apply H. left. reflexivity.
    + intros _ w'. apply IH. intros ev' Hin. apply H. right. exact Hin.
Qed.

Lemma keeps_drop {A} (P : dispd_encoder -> Prop) (Q : effect -> Prop)
    (m : M A) :
  keeps P Q m -> keeps P Q (_ <- m ;; ret tt).
Proof.
  intros H w. apply keeps_at_bind; [apply H | intros; apply keeps_at_ret].
Qed.

Lemma keeps_at_eq {A} (P : dispd_encoder -> Prop) (Q : effect -> Prop)
    (m : M A) (w : world) (a : A) (o : list effect) :
  m w = (a, w, o) -> Forall Q o -> keeps_at P Q m w.
Proof. intros E Ho HP. rewrite E. split; assumption. Qed.

(** ** The peer disappears *)

Lemma disappeared_delivered (w : world) (pid : Z) :
  child_source (enc w) = Some pid ->
  0 <= results w (calls w) ->
  on_encoder_disappeared w
  = (0, with_calls w (S (calls w)),
     [KillChild; Call (c_kill pid SIGTERM) (results w (calls w))]).
Proof.
  intros H Hr. unfold on_encoder_disappeared. munfold.
  rewrite (kill_child_delivered w pid H Hr). reflexivity.
Qed.

Lemma disappeared_refused (w : world) (pid : Z) :
  child_source (enc w) = Some pid ->
  results w (calls w) < 0 ->
  on_encoder_disappeared w
  = (results w (calls w),
     with_errno (with_calls w (S (calls w))) (- results w (calls w)),
     [KillChild; Call (c_kill pid SIGTERM) (results w (calls w))]).
Proof.
  intros H Hr. unfold on_encoder_disappeared. munfold.
  rewrite (kill_child_refused w pid H Hr).
  apply Z.ltb_lt in Hr. rewrite Hr. wsimpl.
  rewrite Z.opp_involutive. reflexivity.
Qed.

Lemma disappeared_unsupervised (w : world) :
  child_source (enc w) = None ->
  exists v o,
    on_encoder_disappeared w
    = (0, with_enc w (set_ref (cleared (enc w)) v), KillChild :: o).
Proof.
  intro H. unfold on_encoder_disappeared. munfold.
  rewrite (kill_child_none w H). cbn [Z.ltb Z.eqb Z.compare negb].
  destruct (cleanup_frame w) as (v & o & ->).
  exists v. eexists. reflexivity.
Qed.

Lemma disappeared_supervised_enc (w : world) (pid : Z) :
  child_source (enc w) = Some pid ->
  enc (world_of (on_encoder_disappeared w)) = enc w.
Proof.
  intro H. destruct (Z.lt_ge_cases (results w (calls w)) 0).
  - rewrite (disappeared_refused w pid H); [reflexivity | assumption].
  - rewrite (disappeared_delivered w pid H); [reflexivity | assumption].
Qed.

Lemma cleared_torn_down (e : dispd_encoder) (v : Z) :
  torn_down (set_ref (cleared e) v).
Proof. repeat split. Qed.

Lemma child_terminated_frame (w : world) :
  exists v o,
    on_child_terminated w
    = (0, with_enc w
            (set_ref (cleared (set_state (enc w) DISPD_ENCODER_STATE_TERMINATED))
               v), o).
Proof.
  unfold on_child_terminated. munfold.
  destruct (set_state_frame DISPD_ENCODER_STATE_TERMINATED w)
    as (v1 & o1 & ->).
  match goal with
  | |- context [dispd_encoder_cleanup ?w'] =>
      destruct (cleanup_frame w') as (v2 & o2 & ->)
  end.
  exists v2. eexists. reflexivity.
Qed.

Ltac stays :=
  unfold stays_registered in *; wsimpl;
  intuition (auto; try discriminate; try congruence).

Lemma stays_dispatch (pid : Z) (e0 : dispd_encoder) (ev : event) :
  ev <> ChildTerminated ->
  keeps (stays_registered pid e0) (fun _ => True) (dispatch ev).
Proof.
  intros Hev w. unfold dispatch. apply keeps_at_get.
  destruct ev; try contradiction.
  - destruct (pipe_source (enc w)); [|apply keeps_at_ret].
    apply keeps_drop, keeps_on_unique_readable; intros; solve [stays | exact I].
  - destruct (state_change_notify_slot (enc w)); [|apply keeps_at_ret].
    apply keeps_drop, keeps_on_encoder_properties_changed;
      intros; solve [stays | exact I].
  - destruct (name_disappeared_slot (enc w)); [|apply keeps_at_ret].
    apply keeps_at_bind; [|intros; apply keeps_at_ret].
    intros HP. split; [|apply Forall_forall; intros; exact I].
    destruct HP as [Hc HP].
    rewrite (disappeared_supervised_enc w pid Hc). split; assumption.
  - apply keeps_drop, keeps_on_child_term_timeout;
      intros; solve [stays | exact I].
  - apply keeps_drop, keeps_configure; intros; solve [stays | exact I].
  - apply keeps_drop, keeps_start; intros; solve [stays | exact I].
  - apply keeps_drop, keeps_pause; intros; solve [stays | exact I].
  - apply keeps_drop, keeps_stop; intros; solve [stays | exact I].
  - apply keeps_set_handler; intros; solve [stays | exact I].
  - apply keeps_ref; intros; solve [stays | exact I].
  - apply keeps_unref; intros; solve [stays | exact I].
Qed.

(** C8.  When the peer disappears while the child is still watched and
    the signal is delivered, the callback only signals the child: the
    controller is left exactly as it was.  Whatever happens next, as long
    as the child's exit has not been observed, the child watcher, the
    timer and the two subscriptions stay registered; the exit callback
    then removes every registration.  The disappearance callback itself
    tears down only a controller that watches no child. *)
Theorem disappearance_defers_teardown (w : world) (pid : Z)
    (evs : list event) :
  child_source (enc w) = Some pid ->
  0 <= results w (calls w) ->
  ~ In ChildTerminated evs ->
  let x := on_encoder_disappeared w in
  let y := dispatch_all evs (world_of x) in
  let z := on_child_terminated (world_of y) in
  (result_of x = 0 /\ enc (world_of x) = enc w
   /\ output_of x
      = [KillChild; Call (c_kill pid SIGTERM) (results w (calls w))])
  /\ stays_registered pid (enc w) (enc (world_of y))
  /\ torn_down (enc (world_of z))
  /\ (forall w', child_source (enc w') = None ->
        torn_down (enc (world_of (on_encoder_disappeared w'))))
  /\ (forall w', ~ torn_down (enc w') ->
        torn_down (enc (world_of (on_encoder_disappeared w'))) ->
        child_source (enc w') = None).
Proof.
  intros Hc Hr Hevs x y z. subst x y z.
  rewrite (disappeared_delivered w pid Hc Hr).
  split; [|split; [|split; [|split]]].
  - repeat split.
  - unfold world_of at 2. cbn [fst snd].
    assert (keeps (stays_registered pid (enc w)) (fun _ => True)
              (dispatch_all evs)) as K.
    { apply keeps_dispatch_all. intros ev Hin. apply stays_dispatch.
      intros ->. exact (Hevs Hin). }
    apply (K (with_calls w (S (calls w)))).
    unfold stays_registered. wsimpl. intuition.
  - match goal with
    | |- context [on_child_terminated ?w'] =>
        destruct (child_terminated_frame w') as (v & o & ->)
    end.
    apply cleared_torn_down.
  - intros w' Hn. destruct (disappeared_unsupervised w' Hn) as (v & o & ->).
    apply cleared_torn_down.
  - intros w' Hnot Htd.
    destruct (child_source (enc w')) as [pid'|] eqn:Hc'; [|reflexivity].
    rewrite (disappeared_supervised_enc w' pid' Hc') in Htd.
    contradiction.
Qed.

Lemma disappearance_defers_teardown_witness :
  let w := mk_world
             (mk_encoder 3 (Some 100) None None true true true
                (Some ":1.5"%string) DISPD_ENCODER_STATE_STARTED true)
             (fun _ => 0) 0 0 0 ""%string in
  stays_registered 100 (enc w)
    (enc (world_of (dispatch_all [Stop; ChildTermTimeout; NameOwnerChanged]
                      (world_of (on_encoder_disappeared w))))).
Proof.
  intro w.
  apply (disappearance_defers_teardown w 100
           [Stop; ChildTermTimeout; NameOwnerChanged]).
  - reflexivity.
  - simpl. lia.
  - simpl. intuition discriminate.
Defined.

(** ** After the child has exited *)

Ltac term_side :=
  solve [ unfold terminal in *; wsimpl; intuition
        | unfold no_handler; intros; discriminate ].

Lemma terminal_child_terminated : keeps terminal no_handler on_child_terminated.
Proof.
  intro w. unfold on_child_terminated. apply keeps_at_bind.
  - apply keeps_at_assume. intros [Hs _].
    apply (keeps_at_eq _ _ _ _ _ _ (set_state_same_noop w _ Hs)).
    constructor.
  - intros _ w'. apply keeps_at_bind; [|intros; apply keeps_at_ret].
    apply keeps_cleanup; intros; term_side.
Qed.

Lemma terminal_dispatch (ev : event) :
  keeps terminal no_handler (dispatch ev).
Proof.
  intro w. unfold dispatch. apply keeps_at_get. destruct ev.
  - destruct (child_source (enc w)); [|apply keeps_at_ret].
    apply keeps_drop, terminal_child_terminated.
  - destruct (pipe_source (enc w)) eqn:E; [|apply keeps_at_ret].
    apply keeps_at_assume. intros [_ [Hp _]]. congruence.
  - destruct (state_change_notify_slot (enc w)) eqn:E; [|apply keeps_at_ret].
    apply keeps_at_assume. intros [_ [_ Hs]]. congruence.
  - destruct (name_disappeared_slot (enc w)); [|apply keeps_at_ret].
    apply keeps_drop, keeps_on_encoder_disappeared; intros; term_side.
  - apply keeps_drop, keeps_on_child_term_timeout; intros; term_side.
  - apply keeps_drop, keeps_configure; intros; term_side.
  - apply keeps_drop, keeps_start; intros; term_side.
  - apply keeps_drop, keeps_pause; intros; term_side.
  - apply keeps_drop, keeps_stop; intros; term_side.
  - apply keeps_set_handler; intros; term_side.
  - apply keeps_ref; intros; term_side.
  - apply keeps_unref; intros; term_side.
Qed.

Lemma terminated_dispatch (ev : event) :
  reports_no_state ev ->
  keeps (fun e => state e = DISPD_ENCODER_STATE_TERMINATED) no_handler
    (dispatch ev).
Proof.
  intros Hev w. unfold dispatch. apply keeps_at_get.
  destruct ev; try contradiction.
  - destruct (child_source (enc w)); [|apply keeps_at_ret].
    apply keeps_drop. intro w'. unfold on_child_terminated.
    apply keeps_at_bind.
    + apply keeps_at_assume. intro Hs.
      apply (keeps_at_eq _ _ _ _ _ _ (set_state_same_noop w' _ Hs)).
      constructor.
    + intros _ w''. apply keeps_at_bind; [|intros; apply keeps_at_ret].
      apply keeps_cleanup; intros; term_side.
  - destruct (name_disappeared_slot (enc w)); [|apply keeps_at_ret].
    apply keeps_drop, keeps_on_encoder_disappeared; intros; term_side.
  - apply keeps_drop, keeps_on_child_term_timeout; intros; term_side.
  - apply keeps_drop, keeps_configure; intros; term_side.
  - apply keeps_drop, keeps_start; intros; term_side.
  - apply keeps_drop, keeps_pause; intros; term_side.
  - apply keeps_drop, keeps_stop; intros; term_side.
  - apply keeps_set_handler; intros; term_side.
  - apply keeps_ref; intros; term_side.
  - apply keeps_unref; intros; term_side.
Qed.

(** C1, as the code has it.  Once the state is TERMINATED, the child's
    exit, the peer's disappearance, the timer and the owner's calls cause
    no state transition and the handler is not called, however many of
    them follow.  And once the child's exit has been observed, which
    removes every watcher and subscription, the state is TERMINATED and
    no event of any kind changes it or calls the handler again.  (A
    TERMINATED that was only reported by a notification leaves the
    subscriptions in place, and a later notification is accepted.) *)
Theorem terminated_is_final_but_for_reports (w : world)
    (evs : list event) :
  (state (enc w) = DISPD_ENCODER_STATE_TERMINATED ->
   Forall reports_no_state evs ->
   let x := dispatch_all evs w in
   state (enc (world_of x)) = DISPD_ENCODER_STATE_TERMINATED
   /\ forall s, ~ In (Handler s) (output_of x))
  /\ (let w1 := world_of (on_child_terminated w) in
      let x := dispatch_all evs w1 in
      state (enc w1) = DISPD_ENCODER_STATE_TERMINATED
      /\ state (enc (world_of x)) = DISPD_ENCODER_STATE_TERMINATED
      /\ forall s, ~ In (Handler s) (output_of x)).
Proof.
  split.
  - intros Hs Hevs x. subst x. rewrite Forall_forall in Hevs.
    pose proof (keeps_dispatch_all _ no_handler evs
                  (fun ev Hin => terminated_dispatch ev (Hevs ev Hin)) w Hs)
      as [HP HQ].
    split; [exact HP|].
    intros s Hin. rewrite Forall_forall in HQ. exact (HQ _ Hin s eq_refl).
  - intros w1 x. subst w1 x.
    destruct (child_terminated_frame w) as (v & o & ->).
    unfold world_of at 1 2 4. cbn [fst snd].
    match goal with
    | |- context [dispatch_all evs ?w'] =>
        assert (terminal (enc w')) as HT by (repeat split);
        pose proof (keeps_dispatch_all terminal no_handler evs
                      (fun ev _ => terminal_dispatch ev) w' HT) as [HP HQ]
    end.
    split; [reflexivity|]. split; [apply HP|].
    intros s Hin. rewrite Forall_forall in HQ. exact (HQ _ Hin s eq_refl).
Qed.

Lemma terminated_is_final_but_for_reports_witness :
  let w := mk_world
             (mk_encoder 4 (Some 100) None None true true true
                (Some ":1.5"%string) DISPD_ENCODER_STATE_TERMINATED true)
             (fun _ => 0) 0 0 0 ""%string in
  let x := dispatch_all [NameOwnerChanged; Stop; ChildTermTimeout;
                         ChildTerminated; Unref] w in
  state (enc (world_of x)) = DISPD_ENCODER_STATE_TERMINATED
  /\ forall s, ~ In (Handler s) (output_of x).
Proof.
  intros w x.
  apply (terminated_is_final_but_for_reports w
           [NameOwnerChanged; Stop; ChildTermTimeout; ChildTerminated;
            Unref]).
  - reflexivity.
  - repeat constructor.
Defined.

(** C1 as stated fails: TERMINATED reported by a notification is left
    again by the next notification, and the handler is called. *)
Lemma terminated_by_notification_is_left :
  let w0 := boot [0; 0; 100; 0; 0; 4] ":1.5" in
  let w1 := world_of
              ((_ <- dispd_encoder_spawn (7, 8) ;;
                dispatch_all
                  [SetHandler true; UniqueReadable;
                   PropertiesChanged [("State"%string, P_int 5)]]) w0) in
  let x := dispatch (PropertiesChanged [("State"%string, P_int 3)]) w1 in
  state (enc w1) = DISPD_ENCODER_STATE_TERMINATED
  /\ state (enc (world_of x)) = DISPD_ENCODER_STATE_STARTED
  /\ output_of x
     = [Call c_sd_bus_message_skip 0;
        Call c_sd_bus_message_enter_container 0;
        Handler DISPD_ENCODER_STATE_STARTED].
Proof. vm_compute. repeat split. Qed.

(** ** Start, Pause and Stop *)

Ltac ltb_cases :=
  repeat match goal with
         | |- context [if ?c <? 0 then _ else _] =>
             let E := fresh "E" in
             destruct (c <? 0) eqn:E;
             [apply Z.ltb_lt in E | apply Z.ltb_ge in E];
             cbv beta iota zeta; wsimpl
         end.

Ltac in_list := simpl; intuition (auto; try discriminate; try congruence).

(** What [dispd_encoder_call] does, by the results of the two bus calls
    it makes. *)
Lemma call_unconnected (method : string) (w : world) :
  bus (enc w) = false ->
  dispd_encoder_call method w = (- EINVAL, w, []).
Proof.
  intro H. unfold dispd_encoder_call. munfold. rewrite H. reflexivity.
Qed.

Lemma call_succeeds (method : string) (w : world) :
  bus (enc w) = true ->
  0 <= results w (calls w) -> 0 <= results w (S (calls w)) ->
  dispd_encoder_call method w
  = (0, with_calls w (S (S (calls w))),
     [Call (c_sd_bus_message_new_method_call (name (enc w)) method)
        (results w (calls w));
      Call (c_sd_bus_call (mk_message (name (enc w)) method []))
        (results w (S (calls w)))]).
Proof.
  intros H H1 H2. apply Z.ltb_ge in H1, H2.
  unfold dispd_encoder_call. munfold. rewrite H. cbv beta iota zeta. wsimpl.
  rewrite H1. cbv beta iota zeta. wsimpl. rewrite H2. reflexivity.
Qed.

Lemma call_message_fails (method : string) (w : world) :
  bus (enc w) = true ->
  results w (calls w) < 0 ->
  let k := dispd_encoder_kill_child (with_calls w (S (calls w))) in
  dispd_encoder_call method w
  = (results w (calls w), world_of k,
     Call (c_sd_bus_message_new_method_call (name (enc w)) method)
       (results w (calls w)) :: output_of k).
Proof.
  intros H H1 k. subst k. apply Z.ltb_lt in H1.
  unfold dispd_encoder_call. munfold. rewrite H. cbv beta iota zeta. wsimpl.
  rewrite H1. cbv beta iota zeta.
  destruct (dispd_encoder_kill_child _) as [[r w'] o].
  cbn [fst snd app]. rewrite ?app_nil_r. reflexivity.
Qed.

Lemma call_send_fails (method : string) (w : world) :
  bus (enc w) = true ->
  0 <= results w (calls w) -> results w (S (calls w)) < 0 ->
  let k := dispd_encoder_kill_child (with_calls w (S (S (calls w)))) in
  dispd_encoder_call method w
  = (results w (S (calls w)), world_of k,
     Call (c_sd_bus_message_new_method_call (name (enc w)) method)
       (results w (calls w))
     :: Call (c_sd_bus_call (mk_message (name (enc w)) method []))
          (results w (S (calls w)))
     :: output_of k).
Proof.
  intros H H1 H2 k. subst k. apply Z.ltb_ge in H1. apply Z.ltb_lt in H2.
  unfold dispd_encoder_call. munfold. rewrite H. cbv beta iota zeta. wsimpl.
  rewrite H1. cbv beta iota zeta. wsimpl. rewrite H2. cbv beta iota zeta.
  destruct (dispd_encoder_kill_child _) as [[r w'] o].
  cbn [fst snd app]. rewrite ?app_nil_r. reflexivity.
Qed.

(** A failed call has tried to signal the child before it returns. *)
Lemma call_failure_kills (method : string) (w : world) :
  bus (enc w) = true ->
  results w (calls w) < 0
  \/ (0 <= results w (calls w) /\ results w (S (calls w)) < 0) ->
  let x := dispd_encoder_call method w in
  result_of x < 0
  /\ enc (world_of x) = enc w
  /\ In KillChild (output_of x)
  /\ (forall pid, child_source (enc w) = Some pid ->
        exists r, In (Call (c_kill pid SIGTERM) r) (output_of x))
  /\ forall d r, ~ In (Call (c_sd_event_add_time d) r) (output_of x).
Proof.
  intros H [H1|[H1 H2]] x; subst x.
  - rewrite (call_message_fails method w H H1).
    unfold result_of, world_of, output_of. cbn [fst snd].
    change (snd (fst ?x)) with (world_of x).
    change (snd ?x) with (output_of x).
    rewrite kill_child_enc.
    split; [assumption|]. split; [reflexivity|].
    destruct (child_source (enc w)) as [pid|] eqn:Hc.
    + rewrite (kill_child_signals _ pid) by exact Hc.
      split; [in_list|]. split.
      * intros pid' E. inversion E; subst. eexists. in_list.
      * intros d r. in_list.
    + rewrite kill_child_none by exact Hc. cbn [snd].
      split; [in_list|]. split; [intros pid' E; discriminate E|].
      intros d r. in_list.
  - rewrite (call_send_fails method w H H1 H2).
    unfold result_of, world_of, output_of. cbn [fst snd].
    change (snd (fst ?x)) with (world_of x).
    change (snd ?x) with (output_of x).
    rewrite kill_child_enc.
    split; [assumption|]. split; [reflexivity|].
    destruct (child_source (enc w)) as [pid|] eqn:Hc.
    + rewrite (kill_child_signals _ pid) by exact Hc.
      split; [in_list|]. split.
      * intros pid' E. inversion E; subst. eexists. in_list.
      * intros d r. in_list.
    + rewrite kill_child_none by exact Hc. cbn [snd].
      split; [in_list|]. split; [intros pid' E; discriminate E|].
      intros d r. in_list.
Qed.

Lemma ref_exact (w : world) :
  dispd_encoder_ref w = (tt, with_enc w (acquired (enc w)), []).
Proof.
  unfold dispd_encoder_ref, acquired. munfold.
  destruct (0 <? ref (enc w)); [reflexivity|].
  rewrite with_enc_same. reflexivity.
Qed.

Lemma acquired_child (e : dispd_encoder) :
  child_source (acquired e) = child_source e.
Proof. unfold acquired. destruct (0 <? ref e); reflexivity. Qed.

Lemma acquired_state (e : dispd_encoder) : state (acquired e) = state e.
Proof. unfold acquired. destruct (0 <? ref e); reflexivity. Qed.

Lemma acquired_timer (e : dispd_encoder) :
  child_term_time_source (acquired e) = child_term_time_source e.
Proof. unfold acquired. destruct (0 <? ref e); reflexivity. Qed.

(** [dispd_encoder_stop] path by path. *)
Lemma stop_after_failed_call (w : world) :
  result_of (dispd_encoder_call "Stop" w) < 0 ->
  dispd_encoder_stop w = dispd_encoder_call "Stop" w.
Proof.
  intro H. unfold dispd_encoder_stop. munfold.
  destruct (dispd_encoder_call "Stop" w) as [[r w'] o].
  unfold result_of in H. cbn [fst] in H. apply Z.ltb_lt in H. rewrite H.
  rewrite app_nil_r. reflexivity.
Qed.

Lemma stop_clock_fails (w : world) :
  bus (enc w) = true ->
  0 <= results w (calls w) -> 0 <= results w (S (calls w)) ->
  results w (S (S (calls w))) < 0 ->
  let k := dispd_encoder_kill_child (with_calls w (S (S (S (calls w))))) in
  dispd_encoder_stop w
  = (results w (S (S (calls w))), world_of k,
     [Call (c_sd_bus_message_new_method_call (name (enc w)) "Stop")
        (results w (calls w));
      Call (c_sd_bus_call (mk_message (name (enc w)) "Stop" []))
        (results w (S (calls w)));
      Call c_sd_event_now (results w (S (S (calls w))))]
     ++ output_of k).
Proof.
  intros H H1 H2 H3 k. subst k. unfold dispd_encoder_stop. munfold.
  rewrite (call_succeeds "Stop" w H H1 H2).
  apply Z.ltb_lt in H3. cbv beta iota zeta. wsimpl.
  change (0 <? 0) with false. cbv beta iota zeta. wsimpl.
  rewrite H3. cbv beta iota zeta.
  destruct (dispd_encoder_kill_child _) as [[r w'] o].
  cbn [fst snd app]. rewrite ?app_nil_r. reflexivity.
Qed.

Lemma stop_timer_fails (w : world) :
  bus (enc w) = true ->
  0 <= results w (calls w) -> 0 <= results w (S (calls w)) ->
  0 <= results w (S (S (calls w))) ->
  results w (S (S (S (calls w)))) < 0 ->
  let k := dispd_encoder_kill_child
             (with_calls (with_enc w (acquired (enc w)))
                (S (S (S (S (calls w)))))) in
  dispd_encoder_stop w
  = (results w (S (S (S (calls w)))), world_of k,
     [Call (c_sd_bus_message_new_method_call (name (enc w)) "Stop")
        (results w (calls w));
      Call (c_sd_bus_call (mk_message (name (enc w)) "Stop" []))
        (results w (S (calls w)));
      Call c_sd_event_now (results w (S (S (calls w))));
      Call (c_sd_event_add_time (grace_deadline w))
        (results w (S (S (S (calls w)))))]
     ++ output_of k).
Proof.
  intros H H1 H2 H3 H4 k. subst k. unfold dispd_encoder_stop. munfold.
  rewrite (call_succeeds "Stop" w H H1 H2).
  apply Z.ltb_ge in H3. apply Z.ltb_lt in H4. cbv beta iota zeta. wsimpl.
  change (0 <? 0) with false. cbv beta iota zeta. wsimpl.
  rewrite H3. cbv beta iota zeta. rewrite ref_exact. wsimpl.
  rewrite H4. cbv beta iota zeta.
  destruct (dispd_encoder_kill_child _) as [[r w'] o].
  cbn [fst snd app]. rewrite ?app_nil_r. reflexivity.
Qed.

Lemma stop_succeeds (w : world) :
  bus (enc w) = true ->
  0 <= results w (calls w) -> 0 <= results w (S (calls w)) ->
  0 <= results w (S (S (calls w))) ->
  0 <= results w (S (S (S (calls w)))) ->
  let k := dispd_encoder_kill_child
             (with_calls
                (with_enc w
                   (set_child_term_time_source (acquired (enc w))
                      (Some (grace_deadline w))))
                (S (S (S (S (calls w)))))) in
  dispd_encoder_stop w
  = (results w (S (S (S (calls w)))), world_of k,
     [Call (c_sd_bus_message_new_method_call (name (enc w)) "Stop")
        (results w (calls w));
      Call (c_sd_bus_call (mk_message (name (enc w)) "Stop" []))
        (results w (S (calls w)));
      Call c_sd_event_now (results w (S (S (calls w))));
      Call (c_sd_event_add_time (grace_deadline w))
        (results w (S (S (S (calls w)))))]
     ++ output_of k).
Proof.
  intros H H1 H2 H3 H4 k. subst k. unfold dispd_encoder_stop. munfold.
  rewrite (call_succeeds "Stop" w H H1 H2).
  apply Z.ltb_ge in H3, H4. cbv beta iota zeta. wsimpl.
  change (0 <? 0) with false. cbv beta iota zeta. wsimpl.
  rewrite H3. cbv beta iota zeta. rewrite ref_exact. wsimpl.
  rewrite H4. cbv beta iota zeta. wsimpl.
  destruct (dispd_encoder_kill_child _) as [[r w'] o].
  cbn [fst snd app]. rewrite ?app_nil_r. reflexivity.
Qed.

(** C10.  When the Stop call succeeds and the timer is registered,
    [dispd_encoder_stop] signals the child at once, right after arming
    the timer, and returns what [sd_event_add_time] returned, which is 0
    when that reports success as 0. *)
Theorem stop_success_kills_at_once (w : world) (pid : Z) :
  bus (enc w) = true ->
  child_source (enc w) = Some pid ->
  0 <= results w (calls w) ->
  0 <= results w (S (calls w)) ->
  0 <= results w (S (S (calls w))) ->
  0 <= results w (S (S (S (calls w)))) ->
  let x := dispd_encoder_stop w in
  result_of x = results w (S (S (S (calls w))))
  /\ child_term_time_source (enc (world_of x)) = Some (grace_deadline w)
  /\ output_of x
     = [Call (c_sd_bus_message_new_method_call (name (enc w)) "Stop")
          (results w (calls w));
        Call (c_sd_bus_call (mk_message (name (enc w)) "Stop" []))
          (results w (S (calls w)));
        Call c_sd_event_now (results w (S (S (calls w))));
        Call (c_sd_event_add_time (grace_deadline w))
          (results w (S (S (S (calls w)))));
        KillChild;
        Call (c_kill pid SIGTERM) (results w (S (S (S (S (calls w))))))].
Proof.
  intros H Hc H1 H2 H3 H4 x. subst x.
  rewrite (stop_succeeds w H H1 H2 H3 H4).
  unfold result_of, world_of, output_of. cbn [fst snd].
  change (snd (fst ?x)) with (world_of x).
  change (snd ?x) with (output_of x).
  rewrite kill_child_enc.
  rewrite (kill_child_signals _ pid)
    by (wsimpl; rewrite acquired_child; exact Hc).
  repeat split.
Qed.

Lemma stop_success_kills_at_once_witness :
  let w := mk_world
             (mk_encoder 3 (Some 100) None None true true true
                (Some ":1.5"%string) DISPD_ENCODER_STATE_STARTED true)
             (fun _ => 0) 0 0 5000 ""%string in
  result_of (dispd_encoder_stop w) = 0
  /\ child_term_time_source (enc (world_of (dispd_encoder_stop w)))
     = Some 1005000
  /\ output_of (dispd_encoder_stop w)
     = [Call (c_sd_bus_message_new_method_call (Some ":1.5"%string) "Stop") 0;
        Call (c_sd_bus_call (mk_message (Some ":1.5"%string) "Stop" [])) 0;
        Call c_sd_event_now 0;
        Call (c_sd_event_add_time 1005000) 0;
        KillChild;
        Call (c_kill 100 SIGTERM) 0].
Proof.
  intro w.
  apply (stop_success_kills_at_once w 100);
    first [reflexivity | simpl; lia].
Defined.

Lemma timeout_signals (w : world) (pid : Z) :
  child_source (enc w) = Some pid ->
  output_of (on_child_term_timeout w)
  = [KillChild; Call (c_kill pid SIGTERM) (results w (calls w))].
Proof.
  intro H. pose proof (kill_child_signals w pid H) as E.
  unfold on_child_term_timeout. munfold.
  destruct (dispd_encoder_kill_child w) as [[r w'] o].
  unfold output_of in E. cbn [snd] in *. subst o. reflexivity.
Qed.

Lemma timeout_without_child (w : world) :
  child_source (enc w) = None ->
  on_child_term_timeout w = (0, w, [KillChild]).
Proof.
  intro H. unfold on_child_term_timeout. munfold.
  rewrite (kill_child_none w H). reflexivity.
Qed.

(** C4, as the code has it.  On a controller whose bus connection is open
    and whose child is watched, every [dispd_encoder_stop] tries to signal
    the child at least once, whether the Stop call succeeds or fails.  The
    timer is armed only after a Stop call that succeeded: a failed call
    leaves no timer behind, and a successful one, once the clock is read
    and the timer registered, arms it for one second (1000000
    microseconds) after now.  When the timer fires the child is signalled
    if it is still watched, and nothing is signalled once its exit has
    been observed. *)
Theorem stop_kills_and_arms_timer_after_success (w : world) (pid : Z) :
  bus (enc w) = true ->
  child_source (enc w) = Some pid ->
  let x := dispd_encoder_stop w in
  (In KillChild (output_of x)
   /\ exists r, In (Call (c_kill pid SIGTERM) r) (output_of x))
  /\ (results w (calls w) < 0
      \/ (0 <= results w (calls w) /\ results w (S (calls w)) < 0) ->
      result_of x < 0
      /\ child_term_time_source (enc (world_of x))
         = child_term_time_source (enc w)
      /\ forall d r, ~ In (Call (c_sd_event_add_time d) r) (output_of x))
  /\ (0 <= results w (calls w) -> 0 <= results w (S (calls w)) ->
      0 <= results w (S (S (calls w))) ->
      0 <= results w (S (S (S (calls w)))) ->
      child_term_time_source (enc (world_of x))
      = Some (uint64 (clock w + 1000000))
      /\ In (Call (c_sd_event_add_time (uint64 (clock w + 1000000)))
               (results w (S (S (S (calls w))))))
            (output_of x))
  /\ (forall w', child_source (enc w') = Some pid ->
        output_of (on_child_term_timeout w')
        = [KillChild; Call (c_kill pid SIGTERM) (results w' (calls w'))])
  /\ (forall w', child_source (enc w') = None ->
        output_of (on_child_term_timeout w') = [KillChild]).
Proof.
  intros H Hc x. subst x.
  assert (forall w' : world, child_source (enc w') = Some pid ->
            In KillChild (output_of (dispd_encoder_kill_child w'))
            /\ exists r, In (Call (c_kill pid SIGTERM) r)
                           (output_of (dispd_encoder_kill_child w'))) as K.
  { intros w' Hw. rewrite (kill_child_signals w' pid Hw).
    split; [in_list | eexists; in_list]. }
  split; [|split; [|split; [|split]]].
  - destruct (Z.lt_ge_cases (results w (calls w)) 0) as [H1|H1];
      [|destruct (Z.lt_ge_cases (results w (S (calls w))) 0) as [H2|H2];
        [|destruct (Z.lt_ge_cases (results w (S (S (calls w)))) 0) as [H3|H3];
          [|destruct (Z.lt_ge_cases (results w (S (S (S (calls w))))) 0)
              as [H4|H4]]]].
    + destruct (call_failure_kills "Stop" w H (or_introl H1))
        as (Hr & _ & Hk & Hs & _).
      rewrite (stop_after_failed_call w Hr). split; [exact Hk|].
      exact (Hs pid Hc).
    + destruct (call_failure_kills "Stop" w H (or_intror (conj H1 H2)))
        as (Hr & _ & Hk & Hs & _).
      rewrite (stop_after_failed_call w Hr). split; [exact Hk|].
      exact (Hs pid Hc).
    + rewrite (stop_clock_fails w H H1 H2 H3).
      unfold output_of at 1 3. cbn [snd].
      destruct (K (with_calls w (S (S (S (calls w))))) Hc) as [Ka [r Kb]].
      split; [|exists r]; apply in_or_app; right; assumption.
    + rewrite (stop_timer_fails w H H1 H2 H3 H4).
      unfold output_of at 1 3. cbn [snd].
      match goal with
      | |- context [dispd_encoder_kill_child ?w'] =>
          destruct (K w') as [Ka [r Kb]];
          [wsimpl; rewrite acquired_child; exact Hc|]
      end.
      split; [|exists r]; apply in_or_app; right; assumption.
    + rewrite (stop_succeeds w H H1 H2 H3 H4).
      unfold output_of at 1 3. cbn [snd].
      match goal with
      | |- context [dispd_encoder_kill_child ?w'] =>
          destruct (K w') as [Ka [r Kb]];
          [wsimpl; rewrite acquired_child; exact Hc|]
      end.
      split; [|exists r]; apply in_or_app; right; assumption.
  - intro Hf.
    destruct (call_failure_kills "Stop" w H Hf) as (Hr & He & _ & _ & Ht).
    rewrite (stop_after_failed_call w Hr).
    split; [exact Hr|]. split; [rewrite He; reflexivity | exact Ht].
  - intros H1 H2 H3 H4.
    rewrite (stop_succeeds w H H1 H2 H3 H4).
    unfold world_of, output_of. cbn [fst snd].
    change (snd (fst ?x)) with (world_of x).
    rewrite kill_child_enc. split; [reflexivity|]. in_list.
  - intros w' Hw. apply timeout_signals. exact Hw.
  - intros w' Hw. rewrite (timeout_without_child w' Hw). reflexivity.
Qed.

Lemma stop_kills_and_arms_timer_after_success_witness :
  let w := mk_world
             (mk_encoder 3 (Some 100) None None true true true
                (Some ":1.5"%string) DISPD_ENCODER_STATE_STARTED true)
             (fun n => nth n [0; -5] 0) 0 0 5000 ""%string in
  In KillChild (output_of (dispd_encoder_stop w))
  /\ exists r, In (Call (c_kill 100 SIGTERM) r) (output_of (dispd_encoder_stop w)).
Proof.
  intro w.
  apply (stop_kills_and_arms_timer_after_success w 100); reflexivity.
Defined.

(** C4 as stated fails: after a Stop call that failed, no timer is
    armed. *)
Lemma stop_failed_call_arms_no_timer :
  let w0 := boot [0; 0; 100; 0; 0; 4; 0; 0; 0; 0; 0; -5] ":1.5" in
  let w1 := world_of
              ((_ <- dispd_encoder_spawn (7, 8) ;;
                dispatch_all [UniqueReadable]) w0) in
  let x := dispd_encoder_stop w1 in
  bus (enc w1) = true
  /\ result_of x = -5
  /\ child_term_time_source (enc (world_of x)) = None
  /\ output_of x
     = [Call (c_sd_bus_message_new_method_call (Some ":1.5"%string) "Stop") 0;
        Call (c_sd_bus_call (mk_message (Some ":1.5"%string) "Stop" [])) (-5);
        KillChild;
        Call (c_kill 100 SIGTERM) 0].
Proof. vm_compute. repeat split. Qed.

(** ** The Configure request *)











Ltac by_class :=
  unfold no_kill, no_send, listed_key;
  repeat split; try discriminate; intros;
  match goal with
  | E : Call _ _ = Call _ _ |- _ => inversion E; subst
  | |- _ <> _ => let E := fresh "E" in intro E; inversion E; subst
  end;
  try match goal with
      | Hc : class_of _ = _ |- _ => simpl in Hc; discriminate Hc
      end.


Lemma configure_output (s : wfd_session) (w : world) :
  Forall (fun x => no_kill x /\ listed_key s x)
    (output_of (dispd_encoder_configure s w)).
Proof.
  apply (keeps_configure (fun _ => True)
           (fun x => no_kill x /\ listed_key s x)).
  - intros c r Hc. by_class.
  - intros m r. by_class.
  - intros k r Hk. by_class. exact Hk.
  - exact I.
Qed.


(** X25.  What does hold of the two kinds of failure, for every controller.
    When the bus call of Start, Pause or Stop fails (the message cannot
    be created, or the call itself fails), the function has tried to
    signal the child before it returns the negative result of the failed
    call. *)
Lemma call_failure_is_paired_with_kill (w : world) (f : M Z) :
  In f [dispd_encoder_start; dispd_encoder_pause; dispd_encoder_stop] ->
  bus (enc w) = true ->
  results w (calls w) < 0
  \/ (0 <= results w (calls w) /\ results w (S (calls w)) < 0) ->
  result_of (f w) < 0
  /\ In KillChild (output_of (f w))
  /\ forall pid, child_source (enc w) = Some pid ->
       exists r, In (Call (c_kill pid SIGTERM) r) (output_of (f w)).
Proof.
  intros Hf Hb Hr.
  assert (result_of (dispd_encoder_call "Stop" w) < 0) as Hs
    by apply (call_failure_kills "Stop" w Hb Hr).
  destruct Hf as [<-|[<-|[<-|[]]]];
    [unfold dispd_encoder_start | unfold dispd_encoder_pause
    | rewrite (stop_after_failed_call w Hs)];
    match goal with
    | |- context [dispd_encoder_call ?n w] =>
        destruct (call_failure_kills n w Hb Hr) as (H1 & _ & H2 & H3 & _)
    end;
    (split; [exact H1|]; split; [exact H2 | exact H3]).
Qed.


(** C9, where the code departs from it.  The spawn and the handshake
    succeed, the Configure request is built and sent, and the bus call
    fails with -5.  [dispd_encoder_configure] does not signal the child
    and leaves the controller as it was, as the claim says; but it
    returns [log_ERRNO ()] where [dispd_encoder_call] returns [r]: in the
    first run, where [errno] is zero, it returns 0, which is what it
    returns on success; in the second run, where an earlier read of the
    pipe had failed with EAGAIN, it returns -11, the error of that read.
    In the third run it is Start whose bus call fails with -5: the child
    is signalled and -5 is returned. *)
Theorem failed_configure_does_not_return_the_error :
  let s := mk_session true "10.0.0.5" "10.0.0.2" 1991 0 None in
  let after rs evs :=
    world_of ((_ <- dispd_encoder_spawn (7, 8) ;; dispatch_all evs)
                (boot rs ":1.5")) in
  let w1 := after ([0; 0; 100; 0; 0; 4] ++ repeat 0 25 ++ [-5])
              [UniqueReadable] in
  let w2 := after ([0; 0; 100; 0; 0; -11; 4] ++ repeat 0 25 ++ [-5])
              [UniqueReadable; UniqueReadable] in
  let w3 := after [0; 0; 100; 0; 0; 4; 0; 0; 0; 0; 0; -5] [UniqueReadable] in
  let request :=
    mk_message (Some ":1.5"%string) "Configure"
      (Open "a" "{iv}"
       :: flat_map items_of_entry (expected_entries s) ++ [Close]) in
  let y1 := dispd_encoder_configure s w1 in
  let y2 := dispd_encoder_configure s w2 in
  let x := dispd_encoder_start w3 in
  (child_source (enc w1) = Some 100 /\ errno w1 = 0
   /\ last (output_of y1) KillChild = Call (c_sd_bus_call request) (-5)
   /\ result_of y1 = 0
   /\ signals (output_of y1) = [] /\ ~ In KillChild (output_of y1)
   /\ enc (world_of y1) = enc w1)
  /\ (child_source (enc w2) = Some 100 /\ errno w2 = EAGAIN
      /\ last (output_of y2) KillChild = Call (c_sd_bus_call request) (-5)
      /\ result_of y2 = - EAGAIN
      /\ signals (output_of y2) = [] /\ ~ In KillChild (output_of y2)
      /\ enc (world_of y2) = enc w2)
  /\ (result_of x = -5
      /\ output_of x
         = [Call (c_sd_bus_message_new_method_call (Some ":1.5"%string)
                    "Start") 0;
            Call (c_sd_bus_call (mk_message (Some ":1.5"%string) "Start" []))
              (-5);
            KillChild;
            Call (c_kill 100 SIGTERM) 0]).
Proof.
  vm_compute.
  repeat split; try reflexivity; intro H;
    repeat (destruct H as [H|H]; [discriminate H|]); exact H.
Qed.

Lemma appended_keys_app (o1 o2 : list effect) :
  appended_keys (o1 ++ o2) = appended_keys o1 ++ appended_keys o2.
Proof.
  induction o1 as [|x o1 IH]; [reflexivity|]. cbn [app appended_keys].
  destruct x as [c r| |]; try exact IH.
  destruct c; try exact IH.
  destruct b; try exact IH.
  cbn [app]. rewrite IH. reflexivity.
Qed.

Lemma appended_keys_in (k : wfd_encoder_config) (o : list effect) :
  In k (appended_keys o) ->
  exists r, In (Call (c_sd_bus_message_append (B_int k)) r) o.
Proof.
  induction o as [|x o IH]; [intros []|]. cbn [appended_keys].
  assert (In k (appended_keys o) ->
          exists r, In (Call (c_sd_bus_message_append (B_int k)) r) (x :: o))
    as Hrest.
  { intro H. destruct (IH H) as [r Hr]. exists r. right. exact Hr. }
  destruct x as [c r| |]; try exact Hrest.
  destruct c; try exact Hrest.
  destruct b; try exact Hrest.
  intros [<-|H]; [exists r; left; reflexivity | exact (Hrest H)].
Qed.

Lemma entries_of_items (l : list (wfd_encoder_config * bus_basic)) :
  entries_of (flat_map items_of_entry l ++ [Close]) = Some l.
Proof.
  induction l as [|[k b] l IH]; [reflexivity|].
  cbn [flat_map items_of_entry app entries_of fst snd].
  rewrite IH. reflexivity.
Qed.

Lemma all_succeed_ltb (w : world) (n : nat) :
  all_succeed w -> (results w n <? 0) = false.
Proof. intro H. apply Z.ltb_ge. apply H. Qed.

Lemma config_append_ok (m : sd_bus_message) (k : wfd_encoder_config)
    (v : config_value) (w : world) :
  all_succeed w ->
  exists o,
    config_append m k v w
    = ((0, msg_app m (items_of_entry (k, basic_of v))),
       with_calls w (6 + calls w), o)
    /\ appended_keys o = [k].
Proof.
  intro Hok.
  unfold config_append, checked, sd_bus_message_open_container,
    sd_bus_message_append, sd_bus_message_close_container, msg_op.
  munfold. wsimpl.
  repeat (rewrite (all_succeed_ltb w _ Hok); cbv beta iota zeta; wsimpl).
  eexists. split.
  - unfold msg_app, msg_add, items_of_entry. cbn [msg_destination msg_member
      msg_body fst snd]. rewrite <- !app_assoc. cbn [app].
    destruct v; reflexivity.
  - destruct v; reflexivity.
Qed.

Ltac append_ok Hok :=
  repeat match goal with
         | |- context [config_append ?m ?k ?v ?w'] =>
             let o := fresh "o" in
             let E := fresh "E" in
             let K := fresh "K" in
             destruct (config_append_ok m k v w') as (o & E & K);
             [exact Hok|];
             rewrite E; clear E; cbv beta iota zeta; wsimpl;
             change (0 <? 0) with false; cbv beta iota zeta; wsimpl
         | |- context [results ?w' ?n <? 0] =>
             rewrite (all_succeed_ltb w' n Hok); cbv beta iota zeta; wsimpl
         | |- context [0 <? 0] =>
             change (0 <? 0) with false; cbv beta iota zeta; wsimpl
         end.

(** The request [dispd_encoder_configure] sends when every call on the
    way succeeds. *)
Lemma configure_build_ok (s : wfd_session) (w : world) :
  all_succeed w ->
  exists w' o,
    configure_build s w
    = (inr (mk_message (name (enc w)) "Configure"
              (Open "a" "{iv}"
               :: flat_map items_of_entry (expected_entries s) ++ [Close])),
       w', o)
    /\ appended_keys o = map fst (expected_entries s)
    /\ enc w' = enc w /\ results w' = results w.
Proof.
  intro Hok.
  unfold configure_build, configure_rtcp, configure_rect, or_return,
    and_then, sd_bus_message_open_container, sd_bus_message_close_container,
    msg_op, expected_entries.
  munfold. wsimpl.
  destruct (rtcp_port s =? 0); destruct (disp_dimension s) as [rect|];
    cbv beta iota zeta; wsimpl; append_ok Hok;
    (eexists; eexists; split; [reflexivity|]; split; [|split; reflexivity];
     cbn [appended_keys]; rewrite ?appended_keys_app;
     repeat match goal with K : appended_keys _ = _ |- _ => rewrite K end;
     reflexivity).
Qed.

Lemma configure_keys_listed (s : wfd_session) (w : world)
    (k : wfd_encoder_config) :
  In k (appended_keys (output_of (dispd_encoder_configure s w))) ->
  In k (map fst (expected_entries s)).
Proof.
  intro H. destruct (appended_keys_in k _ H) as [r Hr].
  pose proof (configure_output s w) as Ho. rewrite Forall_forall in Ho.
  destruct (Ho _ Hr) as [_ Hl]. exact (Hl k r eq_refl).
Qed.

Lemma configure_ok (s : wfd_session) (w : world) :
  bus (enc w) = true -> is_out_session s = true -> all_succeed w ->
  exists w' pre r,
    dispd_encoder_configure s w
    = (0, w',
       pre ++ [Call (c_sd_bus_call
                       (mk_message (name (enc w)) "Configure"
                          (Open "a" "{iv}"
                           :: flat_map items_of_entry (expected_entries s)
                              ++ [Close]))) r])
    /\ appended_keys pre = map fst (expected_entries s).
Proof.
  intros Hb Hs Hok. unfold dispd_encoder_configure. munfold.
  rewrite Hb, Hs. cbn [negb].
  destruct (configure_build_ok s w Hok) as (w' & o & E & K & He & Hr).
  rewrite E. cbv beta iota zeta. cbn [fst snd].
  assert ((results w' (calls w') <? 0) = false) as Hl.
  { rewrite Hr. apply all_succeed_ltb. exact Hok. }
  rewrite Hl. cbn [app]. rewrite ?app_nil_r.
  eexists. exists o. eexists. split; [reflexivity | exact K].
Qed.

(** C5.  Whatever the bus answers, [dispd_encoder_configure] writes
    neither of the two RTCP port keys when the session's RTCP port is
    zero and none of the four rectangle keys when the session has no
    display rectangle.  When every call succeeds the request it sends
    holds exactly the entries the specification lists, in that order:
    peer address, RTP port, peer RTCP port, local address, local RTCP
    port, x, y, width, height, without the ones left out. *)
Theorem configure_request_entries (w : world) (s : wfd_session) :
  let y := dispd_encoder_configure s w in
  let keys := appended_keys (output_of y) in
  (rtcp_port s = 0 ->
     ~ In WFD_ENCODER_CONFIG_PEER_RTCP_PORT keys
     /\ ~ In WFD_ENCODER_CONFIG_LOCAL_RTCP_PORT keys)
  /\ (disp_dimension s = None ->
        ~ In WFD_ENCODER_CONFIG_X keys /\ ~ In WFD_ENCODER_CONFIG_Y keys
        /\ ~ In WFD_ENCODER_CONFIG_WIDTH keys
        /\ ~ In WFD_ENCODER_CONFIG_HEIGHT keys)
  /\ (bus (enc w) = true -> is_out_session s = true -> all_succeed w ->
        result_of y = 0
        /\ (exists m pre r,
              output_of y = pre ++ [Call (c_sd_bus_call m) r]
              /\ request_entries m = Some (expected_entries s))
        /\ keys = map fst (expected_entries s)
        /\ (rtcp_port s <> 0 -> disp_dimension s <> None ->
              keys = [ WFD_ENCODER_CONFIG_PEER_ADDRESS;
                       WFD_ENCODER_CONFIG_RTP_PORT0;
                       WFD_ENCODER_CONFIG_PEER_RTCP_PORT;
                       WFD_ENCODER_CONFIG_LOCAL_ADDRESS;
                       WFD_ENCODER_CONFIG_LOCAL_RTCP_PORT;
                       WFD_ENCODER_CONFIG_X; WFD_ENCODER_CONFIG_Y;
                       WFD_ENCODER_CONFIG_WIDTH;
                       WFD_ENCODER_CONFIG_HEIGHT ])).
Proof.
  intros y keys. subst y keys. split; [|split].
  - intro Hz. apply Z.eqb_eq in Hz.
    split; intro H; apply configure_keys_listed in H;
      unfold expected_entries in H; rewrite Hz in H;
      destruct (disp_dimension s); simpl in H; intuition discriminate.
  - intro Hn.
    repeat split; intro H; apply configure_keys_listed in H;
      unfold expected_entries in H; rewrite Hn in H;
      destruct (rtcp_port s =? 0); simpl in H; intuition discriminate.
  - intros Hb Hs Hok.
    destruct (configure_ok s w Hb Hs Hok) as (w' & pre & r & E & K).
    rewrite E. unfold result_of, output_of. cbn [fst snd].
    assert (appended_keys
              (pre ++ [Call (c_sd_bus_call
                 (mk_message (name (enc w)) "Configure"
                    (Open "a" "{iv}"
                     :: flat_map items_of_entry (expected_entries s)
                        ++ [Close]))) r])
            = map fst (expected_entries s)) as K'.
    { rewrite appended_keys_app, K. cbn [appended_keys].
      apply app_nil_r. }
    split; [reflexivity|]. split; [|split].
    + eexists. exists pre, r. split; [reflexivity|].
      unfold request_entries. cbn [msg_body].
      change (Ascii.eqb "a" "a" && String.eqb "{iv}" "{iv}")%bool with true.
      cbv iota. apply entries_of_items.
    + exact K'.
    + intros Hz Hd. rewrite K'. unfold expected_entries.
      apply Z.eqb_neq in Hz. rewrite Hz.
      destruct (disp_dimension s); [reflexivity | contradiction].
Qed.

Lemma configure_request_entries_witness :
  let w := mk_world
             (mk_encoder 3 (Some 100) None None true true true
                (Some ":1.5"%string) DISPD_ENCODER_STATE_SPAWNED true)
             (fun _ => 0) 0 0 0 ""%string in
  let s := mk_session true "10.0.0.5" "10.0.0.2" 1991 0
             (Some (mk_rectangle 0 0 1920 1080)) in
  ~ In WFD_ENCODER_CONFIG_PEER_RTCP_PORT
      (appended_keys (output_of (dispd_encoder_configure s w)))
  /\ ~ In WFD_ENCODER_CONFIG_LOCAL_RTCP_PORT
         (appended_keys (output_of (dispd_encoder_configure s w))).
Proof.
  intros w s. apply (configure_request_entries w s). reflexivity.
Defined.

(** ** The handshake *)

Lemma handshake_error_keeps_state (r : Z) (w : world) :
  state (enc (world_of (unique_readable_error r w))) = state (enc w)
  /\ Forall no_handler (output_of (unique_readable_error r w)).
Proof.
  apply (keeps_unique_readable_error
           (fun e => state e = state (enc w)) no_handler);
    try (intros; unfold no_handler; intros; discriminate);
    try (intros e; intros; wsimpl; assumption).
  reflexivity.
Qed.

Ltac brw :=
  repeat match goal with
         | H : ?b = true |- context [?b] => rewrite H
         | H : ?b = false |- context [?b] => rewrite H
         end.

Ltac mrun := repeat (progress (cbv beta iota zeta; wsimpl; brw)).

Ltac by_error_path :=
  match goal with
  | |- context [unique_readable_error ?r ?w'] =>
      let E := fresh "E" in
      pose proof (proj1 (handshake_error_keeps_state r w')) as E;
      unfold world_of in E;
      destruct (unique_readable_error r w') as [[? ?] ?];
      cbn [fst snd] in *; rewrite E; wsimpl
  end.

(** X14.  The state changes in the handshake only after the read, the copy of
    the name, the bus connection and the first subscription (the one for
    state changes) have all succeeded.  The second subscription is not
    among the conditions. *)
Lemma handshake_needs (fd : Z) (w : world) :
  state (enc (world_of (on_unique_readable fd w))) <> state (enc w) ->
  0 < results w (calls w)
  /\ 0 <= results w (S (calls w))
  /\ 0 <= results w (S (S (calls w)))
  /\ 0 <= results w (S (S (S (calls w)))).
Proof.
  intro Hne.
  destruct (results w (calls w) <? 0) eqn:R0.
  { exfalso; apply Hne; clear Hne.
    unfold on_unique_readable; munfold; mrun.
    change (-1 <? 0) with true. mrun.
    destruct (EAGAIN =? - results w (calls w)); [reflexivity|].
    by_error_path. reflexivity. }
  destruct (results w (calls w) =? 0) eqn:R0'.
  { exfalso; apply Hne; clear Hne.
    unfold on_unique_readable; munfold; mrun.
    by_error_path. reflexivity. }
  destruct (0 <=? results w (S (calls w))) eqn:R1; cycle 1.
  { exfalso; apply Hne; clear Hne.
    unfold on_unique_readable; munfold; mrun.
    by_error_path. reflexivity. }
  destruct (results w (S (S (calls w))) <? 0) eqn:R2.
  { exfalso; apply Hne; clear Hne.
    unfold on_unique_readable; munfold; mrun.
    by_error_path. reflexivity. }
  destruct (results w (S (S (S (calls w)))) <? 0) eqn:R3.
  { exfalso; apply Hne; clear Hne.
    unfold on_unique_readable; munfold; mrun.
    rewrite ref_exact. mrun.
    by_error_path. rewrite acquired_state. reflexivity. }
  apply Z.ltb_ge in R0, R2, R3. apply Z.eqb_neq in R0'. apply Z.leb_le in R1.
  repeat split; lia.
Qed.

(** C3, where the code departs from it.  The worker's name is read, the
    bus is opened and the subscription for state changes is installed,
    but the subscription for the peer's disappearance fails with
    [-ENOMEM]: the result of that [sd_bus_add_match] is not looked at
    before the state is set, so the state becomes SPAWNED and the handler
    is told, with no disappearance subscription in place, and the
    callback returns the error. *)
Theorem spawned_without_disappearance_subscription :
  let w0 := boot [0; 0; 100; 0; 0; 4; 0; 0; 0; -12] ":1.5" in
  let w1 := world_of
              ((_ <- dispd_encoder_spawn (7, 8) ;;
                dispatch_all [SetHandler true]) w0) in
  let x := on_unique_readable 7 w1 in
  state (enc w1) = DISPD_ENCODER_STATE_NULL
  /\ result_of x = -12
  /\ state (enc (world_of x)) = DISPD_ENCODER_STATE_SPAWNED
  /\ name_disappeared_slot (enc (world_of x)) = false
  /\ state_change_notify_slot (enc (world_of x)) = true
  /\ output_of x
     = [Call (c_read 7) 4; Call c_strdup 0; Call c_sd_bus_default_system 0;
        Call (c_sd_bus_add_match STATE_CHANGE_NOTIFY_SLOT
                (Some ":1.5"%string)) 0;
        Call (c_sd_bus_add_match NAME_DISAPPEARED_SLOT
                (Some ":1.5"%string)) (-12);
        Handler DISPD_ENCODER_STATE_SPAWNED;
        Call (c_close 7) 0;
        Call (c_sd_event_source_unref PIPE_SOURCE) 0].
Proof. vm_compute. repeat split. Qed.

(** ** The life of the controller *)

(** C2, where the code departs from it.  A controller is spawned,
    completes the handshake, is stopped, sees its child exit and is
    released by its owner.  With one [dispd_encoder_stop] every
    reference is given back and the controller is freed once.  With two,
    the second timer overwrites the first in [child_term_time_source]:
    the exit removes one timer and gives back one reference, the
    reference taken for the first timer is never given back, and the
    controller is never freed although every registration it knows of is
    gone.  The same happens when a subscription cannot be installed: the
    reference taken for it stays. *)
Theorem lost_reference_is_never_freed :
  let life rs evs :=
    (_ <- dispd_encoder_spawn (7, 8) ;; dispatch_all evs)
      (boot rs ":1.5") in
  let once :=
    life [0; 0; 100; 0; 0; 4]
      [UniqueReadable; Stop; ChildTerminated; Unref] in
  let twice :=
    life [0; 0; 100; 0; 0; 4]
      [UniqueReadable; Stop; Stop; ChildTerminated; Unref] in
  let refused :=
    life [0; 0; 100; 0; 0; 4; 0; 0; -12]
      [UniqueReadable; ChildTerminated; Unref] in
  (torn_down (enc (world_of once)) /\ ref (enc (world_of once)) = 0
   /\ frees (output_of once) = 1%nat)
  /\ (torn_down (enc (world_of twice)) /\ ref (enc (world_of twice)) = 1
      /\ frees (output_of twice) = 0%nat)
  /\ (torn_down (enc (world_of refused)) /\ ref (enc (world_of refused)) = 1
      /\ frees (output_of refused) = 0%nat).
Proof. vm_compute. repeat split. Qed.

(** ** Freeing the controller *)

Lemma frees_app (o1 o2 : list effect) :
  frees (o1 ++ o2) = (frees o1 + frees o2)%nat.
Proof.
  induction o1 as [|x o1 IH]; [reflexivity|]. cbn [app frees].
  destruct x as [c r| |]; try exact IH.
  destruct c; try exact IH. cbn [Nat.add]. rewrite IH. reflexivity.
Qed.

Lemma balanced_at_ret {A} (a : A) (w : world) : balanced_at (ret a) w.
Proof. unfold balanced_at. cbn. lia. Qed.

Lemma balanced_at_bind {A B} (m : M A) (f : A -> M B) (w : world) :
  balanced_at m w -> (forall a w', balanced_at (f a) w') ->
  balanced_at (bind m f) w.
Proof.
  unfold balanced_at, bind, world_of, output_of. intros Hm Hf.
  destruct (m w) as [[a w1] o1]. cbn [fst snd] in Hm.
  specialize (Hf a w1). destruct (f a w1) as [[b w2] o2].
  cbn [fst snd] in *. rewrite frees_app. lia.
Qed.

Lemma balanced_at_get {B} (f : dispd_encoder -> M B) (w : world) :
  balanced_at (f (enc w)) w -> balanced_at (bind get f) w.
Proof.
  unfold balanced_at, bind, get, world_of, output_of. intro Hf.
  destruct (f (enc w) w) as [[b w2] o2]. cbn [fst snd app] in *. exact Hf.
Qed.

Lemma balanced_at_read {A B} (g : M A) (f : A -> M B) (w : world) :
  (forall w, exists a, g w = (a, w, [])) ->
  (forall a, balanced_at (f a) w) -> balanced_at (bind g f) w.
Proof.
  unfold balanced_at, bind, world_of, output_of. intros Hg Hf.
  destruct (Hg w) as [a ->]. specialize (Hf a).
  destruct (f a w) as [[b w2] o2]. cbn [fst snd app] in *. exact Hf.
Qed.

Lemma balanced_at_emit (x : effect) (w : world) :
  frees [x] = 0%nat -> balanced_at (emit x) w.
Proof. unfold balanced_at, emit. cbn [output_of world_of fst snd]. lia. Qed.

Lemma balanced_at_ext (c : extcall) (w : world) :
  (forall r, frees [Call c r] = 0%nat) -> balanced_at (ext c) w.
Proof.
  intro H. unfold balanced_at, ext. cbn [output_of world_of fst snd].
  rewrite H. reflexivity.
Qed.

Lemma balanced_at_syscall (c : extcall) (w : world) :
  (forall r, frees [Call c r] = 0%nat) -> balanced_at (syscall c) w.
Proof.
  intro H. unfold balanced_at, syscall.
  destruct (results w (calls w) <? 0); cbn [output_of world_of fst snd];
    rewrite H; reflexivity.
Qed.

Lemma balanced_at_ext_ptr (c : extcall) (w : world) :
  (forall r, frees [Call c r] = 0%nat) -> balanced_at (ext_ptr c) w.
Proof.
  intro H. unfold ext_ptr. apply balanced_at_bind.
  - apply balanced_at_ext, H.
  - intros. apply balanced_at_ret.
Qed.

Lemma balanced_at_modify (f : dispd_encoder -> dispd_encoder) (w : world) :
  (forall e, ref (f e) = ref e) -> balanced_at (modify f) w.
Proof.
  intro H. unfold balanced_at, modify, alive.
  cbn [output_of world_of fst snd frees enc with_enc]. rewrite H. reflexivity.
Qed.

Lemma balanced_ref : balanced dispd_encoder_ref.
Proof.
  intro w. unfold balanced_at. rewrite ref_exact.
  cbn [output_of world_of fst snd frees enc with_enc Nat.add].
  unfold acquired, alive.
  destruct (Z.ltb_spec 0 (ref (enc w))) as [H|H]; [|rewrite (proj2 (Z.ltb_ge _ _) H); reflexivity].
  cbn [ref set_ref].
  destruct (Z.ltb_spec 0 (ref (enc w) + 1)); [reflexivity | lia].
Qed.

Lemma balanced_unref : balanced dispd_encoder_unref.
Proof.
  intro w. unfold balanced_at, dispd_encoder_unref, alive. munfold. wsimpl.
  destruct (Z.ltb_spec 0 (ref (enc w))) as [H|H]; wsimpl.
  - destruct (Z.eqb_spec (ref (enc w) - 1) 0) as [E|E]; cbn [negb]; wsimpl.
    + rewrite E.
      destruct (bus (enc w)), (name (enc w)); reflexivity.
    + destruct (Z.ltb_spec 0 (ref (enc w) - 1)); [reflexivity | lia].
  - destruct (Z.ltb_spec 0 (ref (enc w))); [lia | reflexivity].
Qed.

Ltac bstep :=
  lazymatch goal with
  | |- balanced_at (bind get _) _ => apply balanced_at_get
  | |- balanced_at (bind get_errno _) _ =>
      apply balanced_at_read; [intro; eexists; reflexivity | intro]
  | |- balanced_at (bind get_clock _) _ =>
      apply balanced_at_read; [intro; eexists; reflexivity | intro]
  | |- balanced_at (bind get_pipe_buf _) _ =>
      apply balanced_at_read; [intro; eexists; reflexivity | intro]
  | |- balanced_at (bind _ _) _ => apply balanced_at_bind; [ | intros ? ? ]
  | |- balanced_at (checked _ _) _ => unfold checked
  | |- balanced_at (or_return _ _) _ => unfold or_return
  | |- balanced_at (and_then _ _) _ => unfold and_then
  | |- balanced_at (if ?c then _ else _) _ => destruct c
  | |- balanced_at (match ?x with _ => _ end) _ => destruct x
  | |- balanced_at (ret _) _ => apply balanced_at_ret
  | |- balanced_at (emit _) _ => apply balanced_at_emit; reflexivity
  | |- balanced_at (void _) _ => apply balanced_at_emit; reflexivity
  | |- balanced_at (ext _) _ => apply balanced_at_ext; intro; reflexivity
  | |- balanced_at (syscall _) _ =>
      apply balanced_at_syscall; intro; reflexivity
  | |- balanced_at (ext_ptr _) _ =>
      apply balanced_at_ext_ptr; intro; reflexivity
  | |- balanced_at (modify _) _ => apply balanced_at_modify; intro; reflexivity
  | |- balanced_at log_ERRNO _ => unfold log_ERRNO
  | |- balanced_at log_vERRNO _ => unfold log_vERRNO
  | |- balanced_at (log_vERR _) _ => unfold log_vERR
  | |- balanced_at assert_failed _ => unfold assert_failed
  | |- balanced_at dispd_encoder_ref _ => apply balanced_ref
  | |- balanced_at dispd_encoder_unref _ => apply balanced_unref
  end.

Lemma balanced_close_pipe : balanced dispd_encoder_close_pipe.
Proof. intro w. unfold dispd_encoder_close_pipe. repeat bstep. Qed.

Lemma balanced_kill_child : balanced dispd_encoder_kill_child.
Proof. intro w. unfold dispd_encoder_kill_child. repeat bstep. Qed.

Lemma balanced_cleanup : balanced dispd_encoder_cleanup.
Proof.
  intro w. unfold dispd_encoder_cleanup.
  repeat first [ bstep | apply balanced_close_pipe ].
Qed.

Lemma balanced_set_state (s : dispd_encoder_state) :
  balanced (dispd_encoder_set_state s).
Proof.
  intro w. unfold dispd_encoder_set_state, dispd_encoder_notify_state_change.
  repeat bstep.
Qed.

Lemma balanced_properties_loop (m : properties) :
  balanced (properties_loop m).
Proof.
  induction m as [|[n v] rest IH]; intro w; cbn [properties_loop];
    repeat first [ bstep | apply IH | apply balanced_set_state ].
Qed.

Lemma balanced_unique_readable_error (r : Z) :
  balanced (unique_readable_error r).
Proof.
  intro w. unfold unique_readable_error, unique_readable_end.
  repeat first [ bstep | apply balanced_kill_child
               | apply balanced_close_pipe ].
Qed.

Lemma balanced_call (method : string) : balanced (dispd_encoder_call method).
Proof.
  intro w. unfold dispd_encoder_call.
  repeat first [ bstep | apply balanced_kill_child ].
Qed.

Lemma balanced_config_append (m : sd_bus_message) (k : wfd_encoder_config)
    (v : config_value) :
  balanced (config_append m k v).
Proof.
  intro w. unfold config_append, sd_bus_message_open_container,
    sd_bus_message_append, sd_bus_message_close_container, msg_op.
  repeat bstep.
Qed.

Lemma balanced_configure (s : wfd_session) :
  balanced (dispd_encoder_configure s).
Proof.
  intro w. unfold dispd_encoder_configure, configure_build, configure_rtcp,
    configure_rect, sd_bus_message_open_container,
    sd_bus_message_close_container, msg_op.
  repeat first [ bstep | apply balanced_config_append ].
Qed.

Lemma balanced_dispatch (ev : event) : balanced (dispatch ev).
Proof.
  intro w. unfold dispatch. apply balanced_at_get.
  destruct ev;
    unfold on_child_terminated, on_unique_readable, unique_readable_end,
      on_encoder_properties_changed, on_encoder_disappeared,
      on_child_term_timeout, dispd_encoder_start, dispd_encoder_pause,
      dispd_encoder_stop, dispd_encoder_set_handler;
    repeat first [ bstep
                 | apply balanced_set_state | apply balanced_cleanup
                 | apply balanced_unique_readable_error
                 | apply balanced_close_pipe | apply balanced_properties_loop
                 | apply balanced_kill_child | apply balanced_call
                 | apply balanced_configure ].
Qed.

Lemma balanced_dispatch_all (evs : list event) : balanced (dispatch_all evs).
Proof.
  induction evs as [|ev rest IH]; intro w; cbn [dispatch_all].
  - apply balanced_at_ret.
  - apply balanced_at_bind; [apply balanced_dispatch | intros _ w'; apply IH].
Qed.

(** What does hold of the controller's lifetime, for every sequence of
    events and calls: the controller is handed to [free] at most once,
    and it has been freed exactly when its count, positive at the start,
    is no longer positive.  A controller whose count is not positive is
    never freed (again). *)
Theorem freed_once_when_count_runs_out (w : world) (evs : list event) :
  let x := dispatch_all evs w in
  (frees (output_of x) <= 1)%nat
  /\ (0 < ref (enc w) ->
      (frees (output_of x) = 1%nat <-> ref (enc (world_of x)) <= 0))
  /\ (ref (enc w) <= 0 ->
      frees (output_of x) = 0%nat /\ ref (enc (world_of x)) <= 0).
Proof.
  intro x. subst x.
  pose proof (balanced_dispatch_all evs w) as B.
  unfold balanced_at, alive in B.
  destruct (Z.ltb_spec 0 (ref (enc w)));
    destruct (Z.ltb_spec 0 (ref (enc (world_of (dispatch_all evs w)))));
    repeat split; intros; try lia.
Qed.

(** ** Every reference is accounted for *)

Lemma with_enc_twice (w : world) (a b : dispd_encoder) :
  with_enc (with_enc w a) b = with_enc w b.
Proof. reflexivity. Qed.

Lemma exactly_unref : exactly dispd_encoder_unref released.
Proof.
  intro w. unfold dispd_encoder_unref, released. munfold. wsimpl.
  destruct (0 <? ref (enc w)).
  - wsimpl. destruct (negb (ref (enc w) - 1 =? 0)).
    + eexists. reflexivity.
    + destruct (bus (enc w)), (name (enc w)); wsimpl; eexists; reflexivity.
  - exists []. rewrite with_enc_same. reflexivity.
Qed.



Lemma exactly_get (b : dispd_encoder -> M unit)
    (f : dispd_encoder -> dispd_encoder) :
  (forall w, exists o, b (enc w) w = (tt, with_enc w (f (enc w)), o)) ->
  exactly (e <- get ;; b e) f.
Proof.
  intros Hb w. unfold bind, get. destruct (Hb w) as [o1 ->].
  eexists. reflexivity.
Qed.

(** A registration is dropped: the library lets go of it, the pointer is
    cleared, the reference is given back. *)
Lemma drop_exact (c : extcall) (f : dispd_encoder -> dispd_encoder)
    (w : world) :
  exists o,
    (void c ;; modify f ;; dispd_encoder_unref) w
    = (tt, with_enc w (released (f (enc w))), o).
Proof.
  unfold bind, void, emit, modify.
  destruct (exactly_unref (with_enc w (f (enc w)))) as [o ->].
  eexists. reflexivity.
Qed.

Lemma exactly_close_pipe : exactly dispd_encoder_close_pipe close_pipe_enc.
Proof.
  unfold dispd_encoder_close_pipe. apply exactly_get. intro w.
  unfold close_pipe_enc. destruct (pipe_source (enc w)).
  - unfold bind at 1. unfold void at 1, emit at 1.
    destruct (drop_exact (c_sd_event_source_unref PIPE_SOURCE)
                (fun e => set_pipe_source e None) w) as [o ->].
    eexists. reflexivity.
  - exists []. rewrite with_enc_same. reflexivity.
Qed.


Lemma exactly_set_state (s : dispd_encoder_state) :
  exactly (dispd_encoder_set_state s) (set_state_enc s).
Proof.
  intro w. unfold dispd_encoder_set_state, dispd_encoder_notify_state_change,
    set_state_enc.
  munfold. destruct (state_eqb (state (enc w)) s).
  - exists []. rewrite with_enc_same. reflexivity.
  - wsimpl. destruct (handler (enc w)); wsimpl.
    + rewrite ref_exact. wsimpl.
      match goal with
      | |- context [dispd_encoder_unref ?w'] =>
          destruct (exactly_unref w') as [o ->]
      end.
      eexists. reflexivity.
    + eexists. reflexivity.
Qed.




Lemma covered_less (n : Z) (e : dispd_encoder) :
  covered (n + 1) e -> 0 <= n -> covered n e.
Proof. intros [H0 H] Hn. split; lia. Qed.













Lemma error_enc (r : Z) (w : world) :
  enc (world_of (unique_readable_error r w)) = close_pipe_enc (enc w).
Proof.
  unfold unique_readable_error, unique_readable_end. munfold.
  pose proof (kill_child_enc w) as E. unfold world_of in E.
  destruct (dispd_encoder_kill_child w) as [[k w1] o1]. cbn [fst snd] in E.
  destruct (exactly_close_pipe w1) as [o2 ->]. wsimpl. rewrite E.
  reflexivity.
Qed.














(** A spawn that succeeds hands its owner a controller with the child
    watcher and the pipe watcher registered and a count of three: the
    invariant holds for an owner with one reference. *)
Lemma spawn_succeeds (fds : Z * Z) (w : world) :
  0 <= results w (calls w) ->
  0 <= results w (S (calls w)) ->
  0 < results w (S (S (calls w))) ->
  0 <= results w (S (S (S (calls w)))) ->
  0 <= results w (S (S (S (S (calls w))))) ->
  let x := dispd_encoder_spawn fds w in
  result_of x = Some 0
  /\ enc (world_of x)
     = mk_encoder 3 (Some (results w (S (S (calls w))))) None (Some (fst fds))
         false false false None DISPD_ENCODER_STATE_NULL false
  /\ covered 1 (enc (world_of x)).
Proof.
  intros H0 H1 H2 H3 H4.
  assert ((0 <=? results w (calls w)) = true) as B0 by (apply Z.leb_le; lia).
  assert ((results w (S (calls w)) <? 0) = false) as B1
    by (apply Z.ltb_ge; lia).
  assert ((results w (S (S (calls w))) <? 0) = false) as B2
    by (apply Z.ltb_ge; lia).
  assert ((results w (S (S (calls w))) =? 0) = false) as B2'
    by (apply Z.eqb_neq; lia).
  assert ((results w (S (S (S (calls w)))) <? 0) = false) as B3
    by (apply Z.ltb_ge; lia).
  assert ((results w (S (S (S (S (calls w))))) <? 0) = false) as B4
    by (apply Z.ltb_ge; lia).
  intro x. subst x.
  unfold dispd_encoder_spawn, dispd_encoder_new, dispd_encoder_ref,
    dispd_encoder_unref, zeroed.
  munfold. mrun.
  change (0 <? 0) with false. mrun.
  change (0 <? 1) with true. mrun.
  change (0 <? 1 + 1) with true. mrun.
  change (0 <? 1 + 1 + 1) with true. mrun.
  change (negb (1 + 1 + 1 + 1 - 1 =? 0)) with true. mrun.
  repeat split; cbn; lia.
Qed.

(** * Further properties of the controller *)

(** ** Footprints that depend on what the controller holds *)

(** The footprints of the functions above hold for every controller.
    Whether [dispd_encoder_kill_child] signals and whether
    [dispd_encoder_notify_state_change] calls the handler depends on the
    controller; here their footprints are given, and those of their
    callers follow. *)
Section Given.

Variable P : dispd_encoder -> Prop.
Variable Q : effect -> Prop.

Hypothesis G_ref : keeps P Q dispd_encoder_ref.
Hypothesis G_unref : keeps P Q dispd_encoder_unref.
Hypothesis G_kill_child : keeps P Q dispd_encoder_kill_child.
Hypothesis G_notify :
  forall s, keeps P Q (dispd_encoder_notify_state_change s).

Hypothesis G_child_none : forall e, P e -> P (set_child_source e None).
Hypothesis G_timer_none :
  forall e, P e -> P (set_child_term_time_source e None).
Hypothesis G_timer_some :
  forall e d, P e -> P (set_child_term_time_source e (Some d)).
Hypothesis G_pipe_none : forall e, P e -> P (set_pipe_source e None).
Hypothesis G_bus : forall e, P e -> P (set_bus e true).
Hypothesis G_name : forall e n, P e -> P (set_name e n).
Hypothesis G_name_slot_set :
  forall e, P e -> P (set_name_disappeared_slot e true).
Hypothesis G_name_slot_clear :
  forall e, P e -> P (set_name_disappeared_slot e false).
Hypothesis G_state_slot_set :
  forall e, P e -> P (set_state_change_notify_slot e true).
Hypothesis G_state_slot_clear :
  forall e, P e -> P (set_state_change_notify_slot e false).
Hypothesis G_state : forall e s, P e -> P (set_state e s).

Hypothesis G_other : forall c r, class_of c = K_other -> Q (Call c r).
Hypothesis G_message : forall c r, class_of c = K_message -> Q (Call c r).
Hypothesis G_key :
  forall k r, Q (Call (c_sd_bus_message_append (B_int k)) r).
Hypothesis G_send : forall m r, Q (Call (c_sd_bus_call m) r).

Ltac gside :=
  solve [ assumption
        | apply G_other; reflexivity
        | apply G_message; reflexivity
        | apply G_send
        | apply G_ref | apply G_unref | apply G_kill_child | apply G_notify
        | apply G_child_none; assumption
        | apply G_timer_none; assumption
        | apply G_timer_some; assumption
        | apply G_pipe_none; assumption
        | apply G_bus; assumption
        | apply G_name; assumption
        | apply G_name_slot_set; assumption
        | apply G_name_slot_clear; assumption
        | apply G_state_slot_set; assumption
        | apply G_state_slot_clear; assumption
        | apply G_state; assumption ].

Ltac gsolve := repeat (first [ gside | kstep ]).

Lemma given_close_pipe : keeps P Q dispd_encoder_close_pipe.
Proof. intro w. unfold dispd_encoder_close_pipe. gsolve. Qed.

Lemma given_cleanup : keeps P Q dispd_encoder_cleanup.
Proof.
  intro w. unfold dispd_encoder_cleanup. gsolve. apply given_close_pipe.
Qed.

Lemma given_set_state (s : dispd_encoder_state) :
  keeps P Q (dispd_encoder_set_state s).
Proof. intro w. unfold dispd_encoder_set_state. gsolve. Qed.

Lemma given_on_child_terminated : keeps P Q on_child_terminated.
Proof.
  intro w. unfold on_child_terminated. gsolve.
  - apply given_set_state.
  - apply given_cleanup.
Qed.

Lemma given_properties_loop (m : properties) : keeps P Q (properties_loop m).
Proof.
  induction m as [|[n v] rest IH]; intro w; simpl; gsolve.
  - apply IH.
  - apply given_set_state.
Qed.

Lemma given_on_encoder_properties_changed (m : properties) :
  keeps P Q (on_encoder_properties_changed m).
Proof.
  intro w. unfold on_encoder_properties_changed. gsolve.
  apply given_properties_loop.
Qed.

Lemma given_on_encoder_disappeared : keeps P Q on_encoder_disappeared.
Proof.
  intro w. unfold on_encoder_disappeared. gsolve. apply given_cleanup.
Qed.

Lemma given_unique_readable_error (r : Z) :
  keeps P Q (unique_readable_error r).
Proof.
  intro w. unfold unique_readable_error, unique_readable_end. gsolve.
  apply given_close_pipe.
Qed.

Lemma given_on_unique_readable (fd : Z) : keeps P Q (on_unique_readable fd).
Proof.
  intro w. unfold on_unique_readable, unique_readable_end.
  gsolve;
    first [ apply given_unique_readable_error
          | apply given_close_pipe
          | apply given_set_state ].
Qed.

Lemma given_call (method : string) : keeps P Q (dispd_encoder_call method).
Proof. intro w. unfold dispd_encoder_call. gsolve. Qed.

Lemma given_on_child_term_timeout : keeps P Q on_child_term_timeout.
Proof. intro w. unfold on_child_term_timeout. gsolve. Qed.

Lemma given_stop : keeps P Q dispd_encoder_stop.
Proof. intro w. unfold dispd_encoder_stop. gsolve; apply given_call. Qed.

Lemma given_configure (s : wfd_session) :
  keeps P Q (dispd_encoder_configure s).
Proof.
  apply keeps_configure.
  - exact G_message.
  - exact G_send.
  - intros k r _. apply G_key.
Qed.

(** Every event but a change of the handler, which is left to the
    caller. *)
Lemma given_dispatch (ev : event) :
  (forall h, ev = SetHandler h -> forall e, P e -> P (set_handler e h)) ->
  keeps P Q (dispatch ev).
Proof.
  intros Hh w. unfold dispatch. apply keeps_at_get. destruct ev.
  - destruct (child_source (enc w)); [|apply keeps_at_ret].
    apply keeps_drop, given_on_child_terminated.
  - destruct (pipe_source (enc w)); [|apply keeps_at_ret].
    apply keeps_drop, given_on_unique_readable.
  - destruct (state_change_notify_slot (enc w)); [|apply keeps_at_ret].
    apply keeps_drop, given_on_encoder_properties_changed.
  - destruct (name_disappeared_slot (enc w)); [|apply keeps_at_ret].
    apply keeps_drop, given_on_encoder_disappeared.
  - apply keeps_drop, given_on_child_term_timeout.
  - apply keeps_drop, given_configure.
  - apply keeps_drop, given_call.
  - apply keeps_drop, given_call.
  - apply keeps_drop, given_stop.
  - unfold dispd_encoder_set_handler. apply keeps_at_modify.
    intros e He. exact (Hh h eq_refl e He).
  - apply G_ref.
  - apply G_unref.
Qed.

End Given.

(** ** Whom the controller signals *)

Lemma watched_kill_child (c0 : option Z) :
  keeps (fun e => child_source e = c0 \/ child_source e = None)
    (fun x => forall pid sig r,
                x = Call (c_kill pid sig) r -> c0 = Some pid /\ sig = SIGTERM)
    dispd_encoder_kill_child.
Proof.
  intros w HP. rewrite kill_child_enc. split; [exact HP|].
  destruct (child_source (enc w)) as [pid|] eqn:E.
  - rewrite (kill_child_signals w pid E).
    apply Forall_cons; [intros; discriminate|].
    apply Forall_cons; [|apply Forall_nil].
    intros pid' sig r Hx; inversion Hx; subst.
    destruct HP as [H|H];
      [split; [symmetry; exact H | reflexivity] | discriminate H].
  - rewrite (kill_child_none w E).
    apply Forall_cons; [intros; discriminate | apply Forall_nil].
Qed.

Ltac not_that_call :=
  intros;
  match goal with
  | E : Call _ _ = Call _ _ |- _ => inversion E; subst
  | E : Handler _ = Call _ _ |- _ => discriminate E
  | E : KillChild = Call _ _ |- _ => discriminate E
  end;
  match goal with
  | Hc : class_of _ = _ |- _ => simpl in Hc; discriminate Hc
  end.

Ltac watched_side :=
  solve [ intros; wsimpl; assumption
        | intros; right; reflexivity
        | not_that_call
        | intros; discriminate ].

(** X2.  Every signal the controller sends after the spawn is a SIGTERM for
    the child it was watching when the events began: it never sends
    SIGKILL, it never signals another process, and it signals nobody once
    the child watcher is gone. *)
Theorem signals_only_the_watched_child (w : world) (evs : list event)
    (pid : Z) (sig : signal) (r : Z) :
  In (Call (c_kill pid sig) r) (output_of (dispatch_all evs w)) ->
  child_source (enc w) = Some pid /\ sig = SIGTERM.
Proof.
  intro Hin.
  assert (keeps (fun e => child_source e = child_source (enc w)
                          \/ child_source e = None)
            (fun x => forall pid sig r,
                        x = Call (c_kill pid sig) r ->
                        child_source (enc w) = Some pid /\ sig = SIGTERM)
            (dispatch_all evs)) as K.
  { apply keeps_dispatch_all. intros ev _. apply given_dispatch;
      first [ apply watched_kill_child
            | apply keeps_ref; watched_side
            | apply keeps_unref; watched_side
            | intro s; apply keeps_notify_state_change; watched_side
            | watched_side ]. }
  destruct (K w (or_introl eq_refl)) as [_ HQ].
  rewrite Forall_forall in HQ. exact (HQ _ Hin pid sig r eq_refl).
Qed.

Lemma signals_only_the_watched_child_witness :
  let w := mk_world
             (mk_encoder 3 (Some 100) None None true true true
                (Some ":1.5"%string) DISPD_ENCODER_STATE_STARTED true)
             (fun _ => 0) 0 0 5000 ""%string in
  child_source (enc w) = Some 100 /\ SIGTERM = SIGTERM.
Proof.
  intro w.
  apply (signals_only_the_watched_child w
           [Stop; ChildTermTimeout; ChildTerminated; ChildTermTimeout]
           100 SIGTERM 0).
  vm_compute. auto 10.
Defined.

(** ** The handler *)

Lemma silent_notify (s : dispd_encoder_state) :
  keeps (fun e => handler e = false) no_handler
    (dispd_encoder_notify_state_change s).
Proof.
  intro w. unfold dispd_encoder_notify_state_change. apply keeps_at_get.
  apply keeps_at_assume. intro H. rewrite H. apply keeps_at_ret.
Qed.

Ltac silent_side :=
  solve [ intros; wsimpl; assumption
        | unfold no_handler; intros; discriminate ].

(** X5.  While no handler is installed nothing calls one, whatever the events
    are, as long as none of them installs a handler. *)
Theorem silent_without_handler (w : world) (evs : list event) :
  handler (enc w) = false ->
  ~ In (SetHandler true) evs ->
  let x := dispatch_all evs w in
  handler (enc (world_of x)) = false
  /\ forall s, ~ In (Handler s) (output_of x).
Proof.
  intros Hh Hevs x. subst x.
  assert (keeps (fun e => handler e = false) no_handler (dispatch_all evs))
    as K.
  { apply keeps_dispatch_all. intros ev Hin. apply given_dispatch;
      first [ apply silent_notify
            | apply keeps_ref; silent_side
            | apply keeps_unref; silent_side
            | apply keeps_kill_child; silent_side
            | silent_side
            | idtac ].
    intros h -> e _. destruct h; [contradiction | reflexivity]. }
  destruct (K w Hh) as [HP HQ]. split; [exact HP|].
  intros s Hin. rewrite Forall_forall in HQ. exact (HQ _ Hin s eq_refl).
Qed.

Lemma silent_without_handler_witness :
  let w := mk_world
             (mk_encoder 3 (Some 100) None None true true true
                (Some ":1.5"%string) DISPD_ENCODER_STATE_SPAWNED false)
             (fun _ => 0) 0 0 0 ""%string in
  let x := dispatch_all
             [PropertiesChanged [("State"%string, P_int 3)]; SetHandler false;
              ChildTerminated] w in
  state (enc (world_of x)) = DISPD_ENCODER_STATE_TERMINATED
  /\ handler (enc (world_of x)) = false
  /\ forall s, ~ In (Handler s) (output_of x).
Proof.
  intros w x. split; [reflexivity|].
  apply (silent_without_handler w).
  - reflexivity.
  - simpl. intuition discriminate.
Defined.



(** ** The state *)

Ltac fixed_side :=
  solve [ intros; wsimpl; assumption
        | unfold no_handler; intros; discriminate
        | intros; exact I ].

Lemma state_fixed_dispatch (s0 : dispd_encoder_state) (ev : event) :
  reports_state ev = false ->
  keeps (fun e => state e = s0) no_handler (dispatch ev).
Proof.
  intros Hev w. unfold dispatch. apply keeps_at_get.
  destruct ev; try discriminate Hev.
  - destruct (name_disappeared_slot (enc w)); [|apply keeps_at_ret].
    apply keeps_drop, keeps_on_encoder_disappeared; fixed_side.
  - apply keeps_drop, keeps_on_child_term_timeout; fixed_side.
  - apply keeps_drop, keeps_configure; fixed_side.
  - apply keeps_drop, keeps_start; fixed_side.
  - apply keeps_drop, keeps_pause; fixed_side.
  - apply keeps_drop, keeps_stop; fixed_side.
  - apply keeps_set_handler; fixed_side.
  - apply keeps_ref; fixed_side.
  - apply keeps_unref; fixed_side.
Qed.

(** X4.  The state follows what the worker reports and nothing else: the
    owner's calls (configure, start, pause, stop, set handler, ref, unref),
    the disappearance of the peer and the termination timer never change
    the state and never call the handler. *)
Theorem state_changes_only_on_reports (w : world) (evs : list event) :
  Forall (fun ev => reports_state ev = false) evs ->
  let x := dispatch_all evs w in
  state (enc (world_of x)) = state (enc w)
  /\ forall s, ~ In (Handler s) (output_of x).
Proof.
  intros Hevs x. subst x.
  assert (keeps (fun e => state e = state (enc w)) no_handler
            (dispatch_all evs)) as K.
  { apply keeps_dispatch_all. intros ev Hin. apply state_fixed_dispatch.
    rewrite Forall_forall in Hevs. exact (Hevs ev Hin). }
  destruct (K w eq_refl) as [HP HQ]. split; [exact HP|].
  intros s Hin. rewrite Forall_forall in HQ. exact (HQ _ Hin s eq_refl).
Qed.

Lemma state_changes_only_on_reports_witness :
  let w := mk_world
             (mk_encoder 3 (Some 100) None None true true true
                (Some ":1.5"%string) DISPD_ENCODER_STATE_CONFIGURED true)
             (fun _ => 0) 0 0 0 ""%string in
  let x := dispatch_all [Start; Pause; Stop; NameOwnerChanged;
                         ChildTermTimeout] w in
  state (enc (world_of x)) = DISPD_ENCODER_STATE_CONFIGURED
  /\ forall s, ~ In (Handler s) (output_of x).
Proof.
  intros w x.
  apply (state_changes_only_on_reports w).
  repeat constructor.
Defined.

(** ** Registrations *)

Lemma child_gone_dispatch (ev : event) :
  keeps (fun e => child_source e = None) (fun _ => True) (dispatch ev).
Proof.
  apply given_dispatch;
    first [ apply keeps_ref; fixed_side
          | apply keeps_unref; fixed_side
          | apply keeps_kill_child; fixed_side
          | intro s; apply keeps_notify_state_change; fixed_side
          | fixed_side
          | intros; reflexivity ].
Qed.

Ltac over_side :=
  solve [ unfold after_handshake in *; wsimpl;
          intuition (try discriminate; auto)
        | intros; exact I ].

Lemma after_handshake_dispatch (e0 : dispd_encoder) (ev : event) :
  keeps (after_handshake e0) (fun _ => True) (dispatch ev).
Proof.
  intro w. unfold dispatch. apply keeps_at_get. destruct ev.
  - destruct (child_source (enc w)); [|apply keeps_at_ret].
    apply keeps_drop, keeps_on_child_terminated; intros; over_side.
  - destruct (pipe_source (enc w)) eqn:E; [|apply keeps_at_ret].
    apply keeps_at_assume. intros [Hp _]. congruence.
  - destruct (state_change_notify_slot (enc w)); [|apply keeps_at_ret].
    apply keeps_drop, keeps_on_encoder_properties_changed; intros; over_side.
  - destruct (name_disappeared_slot (enc w)); [|apply keeps_at_ret].
    apply keeps_drop, keeps_on_encoder_disappeared; intros; over_side.
  - apply keeps_drop, keeps_on_child_term_timeout; intros; over_side.
  - apply keeps_drop, keeps_configure; intros; over_side.
  - apply keeps_drop, keeps_start; intros; over_side.
  - apply keeps_drop, keeps_pause; intros; over_side.
  - apply keeps_drop, keeps_stop; intros; over_side.
  - apply keeps_set_handler; intros; over_side.
  - apply keeps_ref; intros; over_side.
  - apply keeps_unref; intros; over_side.
Qed.

(** X7.  A controller is not used twice.  Once the child watcher is gone it
    never comes back; and once the pipe watcher is gone, which is when
    the handshake is over, it never comes back either, the worker's name
    and the bus connection stay what they are, and no subscription is
    added. *)
Theorem registrations_do_not_come_back (w : world) (evs : list event) :
  let e' := enc (world_of (dispatch_all evs w)) in
  (child_source (enc w) = None -> child_source e' = None)
  /\ (pipe_source (enc w) = None ->
      pipe_source e' = None
      /\ name e' = name (enc w) /\ bus e' = bus (enc w)
      /\ (name_disappeared_slot e' = true
          -> name_disappeared_slot (enc w) = true)
      /\ (state_change_notify_slot e' = true
          -> state_change_notify_slot (enc w) = true)).
Proof.
  intro e'. subst e'. split.
  - intro Hc.
    assert (keeps (fun e => child_source e = None) (fun _ => True)
              (dispatch_all evs)) as K
      by (apply keeps_dispatch_all; intros; apply child_gone_dispatch).
    exact (proj1 (K w Hc)).
  - intro Hp.
    assert (keeps (after_handshake (enc w)) (fun _ => True)
              (dispatch_all evs)) as K
      by (apply keeps_dispatch_all; intros; apply after_handshake_dispatch).
    apply (K w). unfold after_handshake. auto.
Qed.

(** ** References, one at a time *)

Lemma set_ref_twice (e : dispd_encoder) (a b : Z) :
  set_ref (set_ref e a) b = set_ref e b.
Proof. reflexivity. Qed.

Lemma ref_unref_exact (w : world) :
  0 < ref (enc w) ->
  (dispd_encoder_ref ;; dispd_encoder_unref) w = (tt, w, []).
Proof.
  intro H. unfold dispd_encoder_ref, dispd_encoder_unref. munfold.
  destruct (Z.ltb_spec 0 (ref (enc w))); [|lia]. wsimpl.
  destruct (Z.ltb_spec 0 (ref (enc w) + 1)); [|lia]. wsimpl.
  destruct (Z.eqb_spec (ref (enc w) + 1 - 1) 0); [lia|]. wsimpl.
  replace (ref (enc w) + 1 - 1) with (ref (enc w)) by lia.
  rewrite with_enc_twice, set_ref_twice, set_ref_same, with_enc_same.
  reflexivity.
Qed.

(** X24.  Taking a reference and giving it back leaves a live controller as it
    was and frees nothing; [dispd_encoder_unrefp] on a NULL pointer does
    nothing. *)
Theorem ref_then_unref_is_identity (w : world) :
  0 < ref (enc w) ->
  (dispd_encoder_ref ;; dispd_encoder_unrefp true) w = (tt, w, [])
  /\ dispd_encoder_unrefp false w = (tt, w, []).
Proof.
  intro H. split; [|reflexivity]. exact (ref_unref_exact w H).
Qed.

Lemma ref_then_unref_is_identity_witness :
  let w := mk_world
             (mk_encoder 1 None None None true false false
                (Some ":1.5"%string) DISPD_ENCODER_STATE_TERMINATED true)
             (fun _ => 0) 0 0 0 ""%string in
  (dispd_encoder_ref ;; dispd_encoder_unrefp true) w = (tt, w, [])
  /\ dispd_encoder_unrefp false w = (tt, w, []).
Proof.
  intro w. apply (ref_then_unref_is_identity w). reflexivity.
Defined.

(** ** A change of state *)

Lemma set_state_exact (w : world) (s : dispd_encoder_state) :
  state (enc w) <> s -> 0 < ref (enc w) ->
  dispd_encoder_set_state s w
  = (tt, with_enc w (set_state (enc w) s),
     if handler (enc w) then [Handler s] else []).
Proof.
  intros Hs Hr. unfold dispd_encoder_set_state. munfold.
  destruct (state_eqb (state (enc w)) s) eqn:E.
  { apply state_eqb_eq in E. contradiction. }
  unfold dispd_encoder_notify_state_change. munfold. wsimpl.
  destruct (handler (enc w)) eqn:Hh; wsimpl; [|reflexivity].
  pose proof (ref_unref_exact (with_enc w (set_state (enc w) s)) Hr) as R.
  unfold dispd_encoder_ref, dispd_encoder_unref in *. munfold. wsimpl.
  revert R. munfold. wsimpl.
  destruct (Z.ltb_spec 0 (ref (enc w))); [|lia]. wsimpl.
  destruct (Z.ltb_spec 0 (ref (enc w) + 1)); [|lia]. wsimpl.
  destruct (Z.eqb_spec (ref (enc w) + 1 - 1) 0); [lia|]. wsimpl.
  intro R. inversion R as [R']. rewrite !R'. reflexivity.
Qed.

(** X21.  A change of state stores the new state and then calls the handler,
    if one is installed, exactly once with that state; the reference
    held during the call is given back, so that nothing else of the
    controller changes. *)
Theorem set_state_tells_handler_once (w : world)
    (s : dispd_encoder_state) :
  state (enc w) <> s -> 0 < ref (enc w) ->
  dispd_encoder_set_state s w
  = (tt, with_enc w (set_state (enc w) s),
     if handler (enc w) then [Handler s] else []).
Proof. exact (set_state_exact w s). Qed.

Lemma set_state_tells_handler_once_witness :
  let w := mk_world
             (mk_encoder 3 (Some 100) None None true true true
                (Some ":1.5"%string) DISPD_ENCODER_STATE_CONFIGURED true)
             (fun _ => 0) 0 0 0 ""%string in
  dispd_encoder_set_state DISPD_ENCODER_STATE_READY w
  = (tt, with_enc w (set_state (enc w) DISPD_ENCODER_STATE_READY),
     [Handler DISPD_ENCODER_STATE_READY]).
Proof.
  intro w.
  apply (set_state_tells_handler_once w DISPD_ENCODER_STATE_READY).
  - discriminate.
  - reflexivity.
Defined.


(** ** Tearing down *)















(** ** The ways a spawn ends *)

Ltac known_results :=
  repeat match goal with
         | H : 0 <= ?x |- _ =>
             lazymatch goal with
             | _ : (x <? 0) = false |- _ => fail
             | _ =>
                 assert ((x <? 0) = false) by (apply Z.ltb_ge; lia);
                 assert ((0 <=? x) = true) by (apply Z.leb_le; lia)
             end
         | H : 0 < ?x |- _ =>
             lazymatch goal with
             | _ : (x <? 0) = false |- _ => fail
             | _ =>
                 assert ((x <? 0) = false) by (apply Z.ltb_ge; lia);
                 assert ((x =? 0) = false) by (apply Z.eqb_neq; lia)
             end
         | H : ?x < 0 |- _ =>
             lazymatch goal with
             | _ : (x <? 0) = true |- _ => fail
             | _ =>
                 assert ((x <? 0) = true) by (apply Z.ltb_lt; lia);
                 assert ((0 <=? x) = false) by (apply Z.leb_gt; lia)
             end
         end.

Ltac spawn_run :=
  unfold dispd_encoder_spawn, spawn_close_pipe, spawn_kill_encoder,
    spawn_end, dispd_encoder_new, dispd_encoder_ref, dispd_encoder_unref,
    zeroed;
  munfold; mrun;
  repeat (progress
            (change (0 <? 0) with false; change (-1 <? 0) with true;
             change (0 <? 1) with true; change (0 <? 1 + 1) with true;
             change (0 <? 1 + 1 + 1) with true;
             change (negb (1 - 1 =? 0)) with false;
             change (negb (1 + 1 - 1 =? 0)) with true;
             change (negb (1 + 1 + 1 - 1 =? 0)) with true;
             change (negb (1 + 1 + 1 + 1 - 1 =? 0)) with true;
             mrun)).

(** X8.  A spawn that succeeds makes six calls, the last of which closes the
    parent's copy of the pipe's write end, and hands its owner a
    controller that watches the child and the read end of the pipe, in
    state NULL, with a count of three: one reference for each watcher and
    one for the owner. *)
Theorem spawn_hands_out_a_watched_controller (fds : Z * Z) (w : world) :
  0 <= results w (calls w) ->
  0 <= results w (S (calls w)) ->
  0 < results w (S (S (calls w))) ->
  0 <= results w (S (S (S (calls w)))) ->
  0 <= results w (S (S (S (S (calls w))))) ->
  let pid := results w (S (S (calls w))) in
  let x := dispd_encoder_spawn fds w in
  result_of x = Some 0
  /\ enc (world_of x)
     = mk_encoder 3 (Some pid) None (Some (fst fds)) false false false None
         DISPD_ENCODER_STATE_NULL false
  /\ covered 1 (enc (world_of x))
  /\ calls_of (output_of x)
     = [c_calloc; c_pipe; c_fork; c_sd_event_add_child pid;
        c_sd_event_add_io (fst fds); c_close (snd fds)].
Proof.
  intros H0 H1 H2 H3 H4 pid x. subst pid x.
  destruct (spawn_succeeds fds w H0 H1 H2 H3 H4) as (R & E & C).
  split; [exact R|]. split; [exact E|]. split; [exact C|].
  known_results. spawn_run. reflexivity.
Qed.

Lemma spawn_hands_out_a_watched_controller_witness :
  let x := dispd_encoder_spawn (7, 8) (boot [0; 0; 100; 0; 0] ""%string) in
  result_of x = Some 0
  /\ enc (world_of x)
     = mk_encoder 3 (Some 100) None (Some 7) false false false None
         DISPD_ENCODER_STATE_NULL false
  /\ covered 1 (enc (world_of x))
  /\ calls_of (output_of x)
     = [c_calloc; c_pipe; c_fork; c_sd_event_add_child 100;
        c_sd_event_add_io 7; c_close 8].
Proof.
  intro x.
  apply (spawn_hands_out_a_watched_controller (7, 8)
           (boot [0; 0; 100; 0; 0] ""%string));
    vm_compute; first [reflexivity | discriminate].
Defined.

(** X9.  When [fork] fails, the error path signals with the value [fork]
    returned: the call made is [kill (-1, SIGKILL)].  Neither end of the
    pipe is closed; the controller is freed and an error is returned. *)
Theorem spawn_fork_failure_signals_pid_minus_one (fds : Z * Z)
    (w : world) :
  0 <= results w (calls w) ->
  0 <= results w (S (calls w)) ->
  results w (S (S (calls w))) < 0 ->
  let x := dispd_encoder_spawn fds w in
  calls_of (output_of x)
  = [c_calloc; c_pipe; c_fork; c_kill (-1) SIGKILL; c_free_encoder]
  /\ (exists r, result_of x = Some r /\ r < 0)
  /\ ref (enc (world_of x)) = 0.
Proof.
  intros H0 H1 H2 x. subst x. known_results. spawn_run.
  destruct (Z.ltb_spec (results w (S (S (S (calls w))))) 0); spawn_run.
  - repeat split. eexists. split; [reflexivity|]. lia.
  - repeat split. eexists. split; [reflexivity|]. lia.
Qed.

Lemma spawn_fork_failure_signals_pid_minus_one_witness :
  let x := dispd_encoder_spawn (7, 8) (boot [0; 0; -11] ""%string) in
  calls_of (output_of x)
  = [c_calloc; c_pipe; c_fork; c_kill (-1) SIGKILL; c_free_encoder]
  /\ (exists r, result_of x = Some r /\ r < 0)
  /\ ref (enc (world_of x)) = 0.
Proof.
  intro x.
  apply (spawn_fork_failure_signals_pid_minus_one (7, 8)
           (boot [0; 0; -11] ""%string));
    vm_compute; first [reflexivity | discriminate].
Defined.

(** X10.  When a watcher cannot be registered, the child that was just forked
    is killed with SIGKILL after both ends of the pipe were closed.  The
    controller is not freed: the reference taken for the watcher that
    failed is not given back, so the count stays positive although the
    owner was handed nothing.  What is returned is the negated [errno],
    not the error of the registration. *)
Theorem spawn_watcher_failure_kills_the_child (fds : Z * Z) (w : world) :
  0 <= results w (calls w) ->
  0 <= results w (S (calls w)) ->
  0 < results w (S (S (calls w))) ->
  results w (S (S (S (calls w)))) < 0
  \/ (0 <= results w (S (S (S (calls w))))
      /\ results w (S (S (S (S (calls w))))) < 0) ->
  let pid := results w (S (S (calls w))) in
  let x := dispd_encoder_spawn fds w in
  (exists pre,
     calls_of (output_of x)
     = pre ++ [c_close (fst fds); c_close (snd fds); c_kill pid SIGKILL])
  /\ frees (output_of x) = 0%nat
  /\ 0 < ref (enc (world_of x))
  /\ pipe_source (enc (world_of x)) = None
  /\ result_of x = Some (- errno (world_of x)).
Proof.
  intros H0 H1 H2 [H3|[H3 H4]] pid x; subst pid x; known_results; spawn_run.
  - destruct (Z.ltb_spec (results w (S (S (S (S (calls w)))))) 0);
      spawn_run; repeat split; try lia;
      exists [c_calloc; c_pipe; c_fork;
              c_sd_event_add_child (results w (S (S (calls w))))];
      reflexivity.
  - destruct (Z.ltb_spec (results w (S (S (S (S (S (calls w))))))) 0);
      spawn_run; repeat split; try lia;
      exists [c_calloc; c_pipe; c_fork;
              c_sd_event_add_child (results w (S (S (calls w))));
              c_sd_event_add_io (fst fds)];
      reflexivity.
Qed.

Lemma spawn_watcher_failure_kills_the_child_witness :
  let x := dispd_encoder_spawn (7, 8) (boot [0; 0; 100; 0; -12] ""%string) in
  (exists pre,
     calls_of (output_of x)
     = pre ++ [c_close 7; c_close 8; c_kill 100 SIGKILL])
  /\ frees (output_of x) = 0%nat
  /\ 0 < ref (enc (world_of x))
  /\ pipe_source (enc (world_of x)) = None
  /\ result_of x = Some (- errno (world_of x)).
Proof.
  intro x.
  apply (spawn_watcher_failure_kills_the_child (7, 8)
           (boot [0; 0; 100; 0; -12] ""%string));
    try (vm_compute; first [reflexivity | discriminate]).
  right. split; vm_compute; first [reflexivity | discriminate].
Defined.

(** X11.  A spawn that fails before the [fork] starts no process and signals
    nobody: when the pipe cannot be created, the controller is freed at
    once and the error of [pipe] is returned. *)
Theorem spawn_pipe_failure_frees_the_controller (fds : Z * Z) (w : world) :
  0 <= results w (calls w) ->
  results w (S (calls w)) < 0 ->
  let x := dispd_encoder_spawn fds w in
  output_of x
  = [Call c_calloc (results w (calls w));
     Call c_pipe (results w (S (calls w)));
     Call c_free_encoder 0]
  /\ result_of x = Some (results w (S (calls w)))
  /\ ref (enc (world_of x)) = 0.
Proof.
  intros H0 H1 x. subst x. known_results. spawn_run.
  repeat split. f_equal. lia.
Qed.

Lemma spawn_pipe_failure_frees_the_controller_witness :
  let x := dispd_encoder_spawn (7, 8) (boot [0; -24] ""%string) in
  output_of x = [Call c_calloc 0; Call c_pipe (-24); Call c_free_encoder 0]
  /\ result_of x = Some (-24)
  /\ ref (enc (world_of x)) = 0.
Proof.
  intro x.
  apply (spawn_pipe_failure_frees_the_controller (7, 8)
           (boot [0; -24] ""%string));
    vm_compute; first [reflexivity | discriminate].
Defined.

(** ** The ways a handshake ends *)

(** X15.  A read that fails with EAGAIN is not an error: the callback returns
    zero and has done nothing else, so the pipe stays watched and the
    callback runs again when there is something to read. *)
Theorem handshake_waits_on_eagain (fd : Z) (w : world) :
  results w (calls w) = - EAGAIN ->
  on_unique_readable fd w
  = (0, with_errno (with_calls w (S (calls w))) EAGAIN,
     [Call (c_read fd) (- EAGAIN)]).
Proof.
  intro H. unfold on_unique_readable. munfold. rewrite H. reflexivity.
Qed.

Lemma handshake_waits_on_eagain_witness :
  let w := mk_world
             (mk_encoder 3 (Some 100) None (Some 7) false false false None
                DISPD_ENCODER_STATE_NULL true)
             (fun _ => -11) 0 0 0 ""%string in
  on_unique_readable 7 w
  = (0, with_errno (with_calls w 1) EAGAIN, [Call (c_read 7) (- EAGAIN)]).
Proof.
  intro w. apply (handshake_waits_on_eagain 7 w). reflexivity.
Defined.

Lemma close_pipe_enc_pipe (e : dispd_encoder) :
  pipe_source (close_pipe_enc e) = None.
Proof.
  unfold close_pipe_enc, released.
  destruct (pipe_source e) eqn:E; [|exact E].
  destruct (0 <? ref (set_pipe_source e None)); reflexivity.
Qed.

Lemma close_pipe_enc_frame (e : dispd_encoder) :
  state (close_pipe_enc e) = state e
  /\ name_disappeared_slot (close_pipe_enc e) = name_disappeared_slot e
  /\ state_change_notify_slot (close_pipe_enc e)
     = state_change_notify_slot e
  /\ child_source (close_pipe_enc e) = child_source e.
Proof.
  unfold close_pipe_enc, released.
  destruct (pipe_source e); [|repeat split].
  destruct (0 <? ref (set_pipe_source e None)); repeat split.
Qed.

Lemma handlers_app (o1 o2 : list effect) :
  handlers (o1 ++ o2) = handlers o1 ++ handlers o2.
Proof.
  induction o1 as [|x o1 IH]; [reflexivity|].
  destruct x; simpl; rewrite IH; reflexivity.
Qed.

Lemma handlers_none (o : list effect) :
  Forall no_handler o -> handlers o = [].
Proof.
  induction 1 as [|x o Hx Ho IH]; [reflexivity|].
  destruct x; simpl; try exact IH. exfalso. exact (Hx s eq_refl).
Qed.

(** The error path of the handshake. *)
Lemma error_unfold (r : Z) (w : world) :
  let k := dispd_encoder_kill_child w in
  let c := dispd_encoder_close_pipe (world_of k) in
  unique_readable_error r w
  = (r, world_of c, output_of k ++ output_of c).
Proof.
  unfold unique_readable_error, unique_readable_end. munfold.
  destruct (dispd_encoder_kill_child w) as [[k w1] o1]. cbn [fst snd].
  destruct (dispd_encoder_close_pipe w1) as [[u w2] o2].
  cbn [fst snd app]. rewrite app_nil_r. reflexivity.
Qed.

Lemma kill_child_mark (w : world) :
  In KillChild (output_of (dispd_encoder_kill_child w)).
Proof.
  destruct (child_source (enc w)) as [pid|] eqn:E.
  - rewrite (kill_child_signals w pid E). left. reflexivity.
  - rewrite (kill_child_none w E). left. reflexivity.
Qed.

Lemma error_path (r : Z) (w : world) :
  let x := unique_readable_error r w in
  result_of x = r
  /\ In KillChild (output_of x)
  /\ (forall pid, child_source (enc w) = Some pid ->
        exists r', In (Call (c_kill pid SIGTERM) r') (output_of x))
  /\ enc (world_of x) = close_pipe_enc (enc w)
  /\ handlers (output_of x) = [].
Proof.
  intro x. subst x.
  pose proof (error_enc r w) as E.
  pose proof (proj2 (handshake_error_keeps_state r w)) as Hh.
  apply handlers_none in Hh.
  split; [|split; [|split; [|split; [exact E | exact Hh]]]];
    rewrite error_unfold; unfold result_of, output_of; cbn [fst snd].
  - reflexivity.
  - apply in_or_app. left. apply kill_child_mark.
  - intros pid Hc. eexists. apply in_or_app. left.
    fold (output_of (dispd_encoder_kill_child w)).
    rewrite (kill_child_signals w pid Hc). right. left. reflexivity.
Qed.

Lemma acquired_name_slot (e : dispd_encoder) :
  name_disappeared_slot (acquired e) = name_disappeared_slot e.
Proof. unfold acquired. destruct (0 <? ref e); reflexivity. Qed.

Lemma acquired_state_slot (e : dispd_encoder) :
  state_change_notify_slot (acquired e) = state_change_notify_slot e.
Proof. unfold acquired. destruct (0 <? ref e); reflexivity. Qed.

Ltac on_error_path :=
  match goal with
  | |- context [unique_readable_error ?r ?w'] =>
      let R := fresh "R" in
      let K := fresh "K" in
      let S := fresh "Hsig" in
      let E := fresh "E" in
      let Hh := fresh "Hh" in
      destruct (error_path r w') as (R & K & S & E & Hh);
      pose proof (close_pipe_enc_pipe (enc w'));
      destruct (close_pipe_enc_frame (enc w')) as (? & ? & ? & ?);
      unfold result_of, world_of, output_of in *;
      destruct (unique_readable_error r w') as [[? ?] ?];
      cbn [fst snd] in *; rewrite ?app_nil_r; rewrite ?E; wsimpl;
      repeat match goal with
             | H : context [child_source (acquired ?e)] |- _ =>
                 rewrite (acquired_child e) in H
             | H : context [state (acquired ?e)] |- _ =>
                 rewrite (acquired_state e) in H
             | H : context [name_disappeared_slot (acquired ?e)] |- _ =>
                 rewrite (acquired_name_slot e) in H
             | H : context [state_change_notify_slot (acquired ?e)] |- _ =>
                 rewrite (acquired_state_slot e) in H
             end;
      wsimpl
  end.

Ltac zrun :=
  mrun;
  repeat (progress
            (change (0 <? 0) with false; change (0 =? 0) with true;
             change (-1 <? 0) with true; mrun)).

Ltac failed_handshake :=
  on_error_path;
  repeat split;
  try assumption;
  try (simpl; rewrite ?handlers_app; simpl; assumption);
  try (simpl; tauto);
  try (intros pid Hpid;
       match goal with
       | S : forall pid, _ -> exists r', In _ _ |- _ =>
           destruct (S pid Hpid) as [r' Hr']; exists r'; simpl; tauto
       end).

(** X17.  A handshake that fails (the read returns nothing or an error other
    than EAGAIN, the name cannot be copied, the bus cannot be opened, or
    the subscription for state changes is refused) tries to signal the
    child and closes the pipe; the state stays what it was, the handler
    is not called and no subscription has been added. *)
Theorem handshake_failure_kills_and_closes (fd : Z) (w : world) :
  handshake_fails w ->
  let x := on_unique_readable fd w in
  In KillChild (output_of x)
  /\ (forall pid, child_source (enc w) = Some pid ->
        exists r, In (Call (c_kill pid SIGTERM) r) (output_of x))
  /\ pipe_source (enc (world_of x)) = None
  /\ state (enc (world_of x)) = state (enc w)
  /\ name_disappeared_slot (enc (world_of x)) = name_disappeared_slot (enc w)
  /\ state_change_notify_slot (enc (world_of x))
     = state_change_notify_slot (enc w)
  /\ handlers (output_of x) = [].
Proof.
  intros H x. subst x. unfold handshake_fails in H. cbv zeta in H.
  unfold on_unique_readable. munfold.
  destruct H as [R0|[[R0 Rn]|[R0 H]]].
  - rewrite R0. zrun. failed_handshake.
  - known_results. zrun.
    destruct (Z.eqb_spec EAGAIN (- results w (calls w))) as [E|E];
      [congruence|]. mrun. failed_handshake.
  - known_results. mrun.
    destruct H as [R1|[R1 [R2|[R2 R3]]]]; known_results; mrun.
    + failed_handshake.
    + failed_handshake.
    + rewrite ref_exact. mrun. failed_handshake.
Qed.

Lemma handshake_failure_kills_and_closes_witness :
  let w := mk_world
             (mk_encoder 3 (Some 100) None (Some 7) false false false None
                DISPD_ENCODER_STATE_NULL true)
             (fun _ => 0) 0 0 0 ""%string in
  let x := on_unique_readable 7 w in
  In KillChild (output_of x)
  /\ (forall pid, child_source (enc w) = Some pid ->
        exists r, In (Call (c_kill pid SIGTERM) r) (output_of x))
  /\ pipe_source (enc (world_of x)) = None
  /\ state (enc (world_of x)) = state (enc w)
  /\ name_disappeared_slot (enc (world_of x)) = name_disappeared_slot (enc w)
  /\ state_change_notify_slot (enc (world_of x))
     = state_change_notify_slot (enc w)
  /\ handlers (output_of x) = [].
Proof.
  intros w x. apply (handshake_failure_kills_and_closes 7 w).
  left. reflexivity.
Defined.

Lemma handshake_closes_pipe (fd : Z) (w : world) :
  results w (calls w) <> - EAGAIN ->
  pipe_source (enc (world_of (on_unique_readable fd w))) = None.
Proof.
  intro Hn. unfold on_unique_readable; munfold.
  destruct (results w (calls w) <? 0) eqn:R0.
  { zrun.
    destruct (Z.eqb_spec EAGAIN (- results w (calls w))) as [E|E];
      [exfalso; lia|].
    mrun. on_error_path. assumption. }
  destruct (results w (calls w) =? 0) eqn:R0'.
  { zrun. on_error_path. assumption. }
  destruct (0 <=? results w (S (calls w))) eqn:R1; cycle 1.
  { mrun. on_error_path. assumption. }
  destruct (results w (S (S (calls w))) <? 0) eqn:R2.
  { mrun. on_error_path. assumption. }
  destruct (results w (S (S (S (calls w)))) <? 0) eqn:R3.
  { mrun. rewrite ref_exact. mrun. on_error_path. assumption. }
  mrun. rewrite ref_exact. mrun. rewrite ref_exact. mrun.
  unfold unique_readable_end. munfold.
  destruct (results w (S (S (S (S (calls w))))) <? 0) eqn:R4; mrun;
    match goal with
    | |- context [dispd_encoder_set_state ?s ?w'] =>
        destruct (exactly_set_state s w') as [o1 ->]
    end;
    cbv beta iota zeta;
    match goal with
    | |- context [dispd_encoder_close_pipe ?w'] =>
        destruct (exactly_close_pipe w') as [o2 ->]
    end;
    wsimpl; apply close_pipe_enc_pipe.
Qed.

(** X18.  The handshake runs once: whatever a run that did not end in EAGAIN
    has come to, it has closed the pipe and removed its watcher, so that
    the callback is never run again. *)
Theorem handshake_runs_once (fd : Z) (w : world) :
  results w (calls w) <> - EAGAIN ->
  let w' := world_of (on_unique_readable fd w) in
  pipe_source (enc w') = None
  /\ dispatch UniqueReadable w' = (tt, w', []).
Proof.
  intros Hn w'.
  assert (pipe_source (enc w') = None) as Hp
    by exact (handshake_closes_pipe fd w Hn).
  split; [exact Hp|].
  clearbody w'. unfold dispatch. munfold. rewrite Hp. reflexivity.
Qed.

Lemma handshake_runs_once_witness :
  let w := mk_world
             (mk_encoder 3 (Some 100) None (Some 7) false false false None
                DISPD_ENCODER_STATE_NULL true)
             (fun n => nth n [4; 0; 0; 0; -12] 0) 0 0 0 ":1.5"%string in
  let w' := world_of (on_unique_readable 7 w) in
  pipe_source (enc w') = None
  /\ dispatch UniqueReadable w' = (tt, w', []).
Proof.
  intros w w'. apply (handshake_runs_once 7 w). vm_compute. discriminate.
Defined.

Lemma encoder_ext (e : dispd_encoder) (rf : Z) (cs ts ps : option Z)
    (bs ns ss : bool) (nm : option string) (st : dispd_encoder_state)
    (hd : bool) :
  ref e = rf -> child_source e = cs -> child_term_time_source e = ts ->
  pipe_source e = ps -> bus e = bs -> name_disappeared_slot e = ns ->
  state_change_notify_slot e = ss -> name e = nm -> state e = st ->
  handler e = hd ->
  e = mk_encoder rf cs ts ps bs ns ss nm st hd.
Proof. destruct e; simpl; intros; subst; reflexivity. Qed.

Ltac fields :=
  cbn [ref child_source child_term_time_source pipe_source bus
       name_disappeared_slot state_change_notify_slot name state handler
       set_ref set_child_source set_child_term_time_source set_pipe_source
       set_bus set_name_disappeared_slot set_state_change_notify_slot
       set_name set_state set_handler].

Lemma close_pipe_exact (w : world) (pfd : Z) :
  pipe_source (enc w) = Some pfd -> 1 < ref (enc w) ->
  dispd_encoder_close_pipe w
  = (tt,
     with_enc w (set_ref (set_pipe_source (enc w) None) (ref (enc w) - 1)),
     [Call (c_close pfd) 0; Call (c_sd_event_source_unref PIPE_SOURCE) 0]).
Proof.
  intros Hp Hr. unfold dispd_encoder_close_pipe, dispd_encoder_unref.
  munfold. rewrite Hp. wsimpl.
  destruct (Z.ltb_spec 0 (ref (enc w))); [|lia]. wsimpl.
  destruct (Z.eqb_spec (ref (enc w) - 1) 0); [lia|]. reflexivity.
Qed.

Lemma acquired_alive (e : dispd_encoder) :
  0 < ref e -> acquired e = set_ref e (ref e + 1).
Proof.
  intro H. unfold acquired. destruct (Z.ltb_spec 0 (ref e)); [|lia].
  reflexivity.
Qed.

(** X16.  A handshake in which every step succeeds: the worker's name is
    stored, the bus is opened, the two subscriptions are installed for
    that name, the state becomes SPAWNED and the handler is told so once,
    and then the pipe is closed.  The count ends one higher: two
    references for the subscriptions, less the one the pipe watcher
    held. *)
Theorem handshake_success_subscribes_and_reports (fd pfd : Z)
    (w : world) :
  pipe_source (enc w) = Some pfd ->
  0 < ref (enc w) ->
  state (enc w) <> DISPD_ENCODER_STATE_SPAWNED ->
  0 < results w (calls w) ->
  0 <= results w (S (calls w)) ->
  0 <= results w (S (S (calls w))) ->
  0 <= results w (S (S (S (calls w)))) ->
  0 <= results w (S (S (S (S (calls w))))) ->
  let x := on_unique_readable fd w in
  exists nm,
    result_of x = results w (S (S (S (S (calls w)))))
    /\ enc (world_of x)
       = mk_encoder (ref (enc w) + 1) (child_source (enc w))
           (child_term_time_source (enc w)) None true true true (Some nm)
           DISPD_ENCODER_STATE_SPAWNED (handler (enc w))
    /\ output_of x
       = [Call (c_read fd) (results w (calls w));
          Call c_strdup (results w (S (calls w)));
          Call c_sd_bus_default_system (results w (S (S (calls w))));
          Call (c_sd_bus_add_match STATE_CHANGE_NOTIFY_SLOT (Some nm))
            (results w (S (S (S (calls w)))));
          Call (c_sd_bus_add_match NAME_DISAPPEARED_SLOT (Some nm))
            (results w (S (S (S (S (calls w))))))]
         ++ (if handler (enc w)
             then [Handler DISPD_ENCODER_STATE_SPAWNED] else [])
         ++ [Call (c_close pfd) 0;
             Call (c_sd_event_source_unref PIPE_SOURCE) 0].
Proof.
  intros Hp Hr Hs R0 R1 R2 R3 R4 x. subst x.
  exists (substring 0 (Z.to_nat (results w (calls w))) (pipe_buf w)).
  known_results.
  unfold on_unique_readable, unique_readable_end. munfold. mrun.
  rewrite ref_exact. rewrite acquired_alive by exact Hr. mrun.
  rewrite ref_exact, acquired_alive by (wsimpl; lia). mrun.
  match goal with
  | |- context [dispd_encoder_set_state ?s ?w'] =>
      assert (dispd_encoder_set_state s w'
              = (tt, with_enc w' (set_state (enc w') s),
                 if handler (enc w') then [Handler s] else [])) as Es
        by (apply set_state_exact; cbn [enc with_enc with_calls]; fields;
            solve [exact Hs | lia])
  end.
  rewrite Es. clear Es. mrun.
  match goal with
  | |- context [dispd_encoder_close_pipe ?w'] =>
      assert (dispd_encoder_close_pipe w'
              = (tt,
                 with_enc w'
                   (set_ref (set_pipe_source (enc w') None)
                      (ref (enc w') - 1)),
                 [Call (c_close pfd) 0;
                  Call (c_sd_event_source_unref PIPE_SOURCE) 0])) as Ec
        by (apply close_pipe_exact; cbn [enc with_enc with_calls]; fields;
            solve [exact Hp | lia])
  end.
  rewrite Ec. clear Ec. mrun.
  split; [reflexivity|]. split.
  - apply encoder_ext; fields; solve [reflexivity | lia].
  - destruct (handler (enc w)); reflexivity.
Qed.

Lemma handshake_success_subscribes_and_reports_witness :
  let w := mk_world
             (mk_encoder 3 (Some 100) None (Some 7) false false false None
                DISPD_ENCODER_STATE_NULL true)
             (fun n => nth n [4] 0) 0 0 0 ":1.5"%string in
  let x := on_unique_readable 7 w in
  exists nm,
    result_of x = 0
    /\ enc (world_of x)
       = mk_encoder 4 (Some 100) None None true true true (Some nm)
           DISPD_ENCODER_STATE_SPAWNED true
    /\ output_of x
       = [Call (c_read 7) 4; Call c_strdup 0; Call c_sd_bus_default_system 0;
          Call (c_sd_bus_add_match STATE_CHANGE_NOTIFY_SLOT (Some nm)) 0;
          Call (c_sd_bus_add_match NAME_DISAPPEARED_SLOT (Some nm)) 0]
         ++ [Handler DISPD_ENCODER_STATE_SPAWNED]
         ++ [Call (c_close 7) 0;
             Call (c_sd_event_source_unref PIPE_SOURCE) 0].
Proof.
  intros w x.
  apply (handshake_success_subscribes_and_reports 7 7 w);
    vm_compute; first [reflexivity | discriminate].
Defined.

(** ** What a notification can do *)

Lemma state_of_value_in_table (value : Z) (s : dispd_encoder_state) :
  state_of_value value = Some s -> In s code_table.
Proof.
  unfold state_of_value, code_table.
  destruct value as [|p|p]; [|do 3 (try destruct p as [p|p|])|];
    intro H; inversion H; simpl; auto 10.
Qed.

Lemma unchanged_is_state_only {A} (x : A * world * list effect)
    (w : world) :
  enc (world_of x) = enc w -> handlers (output_of x) = [] ->
  enc (world_of x) = set_state (enc w) (state (enc (world_of x)))
  /\ (state (enc (world_of x)) <> state (enc w) ->
      In (state (enc (world_of x))) code_table
      /\ handlers (output_of x)
         = if handler (enc w) then [state (enc (world_of x))] else [])
  /\ (state (enc (world_of x)) = state (enc w) ->
      handlers (output_of x) = []).
Proof.
  intros E Hh. rewrite E. split; [|split].
  - symmetry. apply set_state_same.
  - intro Hn. contradiction Hn. reflexivity.
  - intros _. exact Hh.
Qed.

Lemma loop_changes_state_only (m : properties) (w : world) :
  0 < ref (enc w) ->
  let x := properties_loop m w in
  enc (world_of x) = set_state (enc w) (state (enc (world_of x)))
  /\ (state (enc (world_of x)) <> state (enc w) ->
      In (state (enc (world_of x))) code_table
      /\ handlers (output_of x)
         = if handler (enc w) then [state (enc (world_of x))] else [])
  /\ (state (enc (world_of x)) = state (enc w) ->
      handlers (output_of x) = []).
Proof.
  intros Hr x. subst x.
  induction m as [|[n v] rest IH]; cbn [properties_loop].
  - apply unchanged_is_state_only; reflexivity.
  - destruct v as [value|].
    + destruct (negb (String.eqb "State" n)); [exact IH|].
      destruct (state_of_value value) as [s|] eqn:Es;
        [|apply unchanged_is_state_only; reflexivity].
      munfold.
      destruct (state_eqb (state (enc w)) s) eqn:E.
      * apply state_eqb_eq in E.
        rewrite (set_state_same_noop w s E).
        apply unchanged_is_state_only; reflexivity.
      * assert (state (enc w) <> s) as Hn
          by (intro Hs; apply state_eqb_eq in Hs; congruence).
        rewrite (set_state_exact w s Hn Hr). cbn [fst snd enc with_enc].
        rewrite app_nil_r. cbn [state set_state].
        split; [reflexivity|]. split.
        -- intros _. split; [exact (state_of_value_in_table value s Es)|].
           destruct (handler (enc w)); reflexivity.
        -- intro Hs. congruence.
    + apply unchanged_is_state_only; reflexivity.
Qed.

(** X19.  A state-change notification changes nothing of the controller but
    the state, and the state only to one of the six states the codes
    stand for: it never makes it SPAWNED.  When the state has changed,
    the handler, if one is installed, was called once with the new state;
    when it has not, the handler was not called. *)
Theorem notification_changes_the_state_only (m : properties) (w : world) :
  0 < ref (enc w) ->
  let x := on_encoder_properties_changed m w in
  enc (world_of x) = set_state (enc w) (state (enc (world_of x)))
  /\ (state (enc (world_of x)) <> state (enc w) ->
      In (state (enc (world_of x))) code_table
      /\ handlers (output_of x)
         = if handler (enc w) then [state (enc (world_of x))] else [])
  /\ (state (enc (world_of x)) = state (enc w) ->
      handlers (output_of x) = []).
Proof.
  intros Hr x. subst x. unfold on_encoder_properties_changed.
  cbv beta iota zeta delta [bind ret ext log_ERRNO get_errno].
  destruct (results w (calls w) <? 0);
    [apply (unchanged_is_state_only _ w); reflexivity|].
  cbn [calls with_calls results].
  destruct (results w (S (calls w)) <? 0);
    [apply (unchanged_is_state_only _ w); reflexivity|].
  match goal with
  | |- context [properties_loop m ?w'] =>
      pose proof (loop_changes_state_only m w' Hr) as L;
      unfold world_of, output_of in *;
      destruct (properties_loop m w') as [[r w2] o2]
  end.
  cbn [fst snd app handlers enc with_calls] in *. exact L.
Qed.

Lemma notification_changes_the_state_only_witness :
  let w := mk_world
             (mk_encoder 3 (Some 100) None None true true true
                (Some ":1.5"%string) DISPD_ENCODER_STATE_SPAWNED true)
             (fun _ => 0) 0 0 0 ""%string in
  let x := on_encoder_properties_changed
             [("Volume"%string, P_int 7); ("State"%string, P_int 1);
              ("State"%string, P_int 3)] w in
  state (enc (world_of x)) = DISPD_ENCODER_STATE_CONFIGURED
  /\ enc (world_of x) = set_state (enc w) (state (enc (world_of x)))
  /\ (state (enc (world_of x)) <> state (enc w) ->
      In (state (enc (world_of x))) code_table
      /\ handlers (output_of x)
         = if handler (enc w) then [state (enc (world_of x))] else [])
  /\ (state (enc (world_of x)) = state (enc w) ->
      handlers (output_of x) = []).
Proof.
  intros w x. split; [reflexivity|].
  apply (notification_changes_the_state_only
           [("Volume"%string, P_int 7); ("State"%string, P_int 1);
            ("State"%string, P_int 3)] w).
  reflexivity.
Defined.




(** ** Calls before the bus is open *)

(** X27.  Until the handshake has opened the bus, the owner's calls are
    refused: configure, start, pause and stop return -EINVAL and have done
    nothing, neither to the controller nor to the worker. *)
Theorem unconnected_calls_do_nothing (w : world) (s : wfd_session)
    (f : M Z) :
  bus (enc w) = false ->
  In f [dispd_encoder_configure s; dispd_encoder_start; dispd_encoder_pause;
        dispd_encoder_stop] ->
  f w = (- EINVAL, w, []).
Proof.
  intros Hb [<-|[<-|[<-|[<-|[]]]]].
  - unfold dispd_encoder_configure. munfold. rewrite Hb. reflexivity.
  - apply call_unconnected, Hb.
  - apply call_unconnected, Hb.
  - unfold dispd_encoder_stop. munfold.
    rewrite (call_unconnected "Stop" w Hb). reflexivity.
Qed.

Lemma unconnected_calls_do_nothing_witness :
  let w := world_of (dispd_encoder_spawn (7, 8)
                       (boot [0; 0; 100; 0; 0] ""%string)) in
  dispd_encoder_stop w = (- EINVAL, w, []).
Proof.
  intro w.
  apply (unconnected_calls_do_nothing w
           (mk_session true "10.0.0.5" "10.0.0.2" 1991 0 None)).
  - reflexivity.
  - simpl. auto.
Defined.

(** ** Instances *)


Lemma handshake_needs_witness :
  let w := mk_world
             (mk_encoder 3 (Some 100) None (Some 7) false false false None
                DISPD_ENCODER_STATE_NULL true)
             (fun n => nth n [4; 0; 0; 0; -12] 0) 0 0 0 ":1.5"%string in
  0 < results w (calls w)
  /\ 0 <= results w (S (calls w))
  /\ 0 <= results w (S (S (calls w)))
  /\ 0 <= results w (S (S (S (calls w)))).
Proof.
  intro w. apply (handshake_needs 7 w). vm_compute. discriminate.
Defined.

Lemma call_failure_is_paired_with_kill_witness :
  let w := mk_world
             (mk_encoder 3 (Some 100) None None true true true
                (Some ":1.5"%string) DISPD_ENCODER_STATE_CONFIGURED true)
             (fun n => nth n [0; -5] 0) 0 0 0 ""%string in
  result_of (dispd_encoder_pause w) < 0
  /\ In KillChild (output_of (dispd_encoder_pause w))
  /\ forall pid, child_source (enc w) = Some pid ->
       exists r, In (Call (c_kill pid SIGTERM) r)
                   (output_of (dispd_encoder_pause w)).
Proof.
  intro w.
  apply (call_failure_is_paired_with_kill w dispd_encoder_pause).
  - right. left. reflexivity.
  - reflexivity.
  - right. simpl. lia.
Defined.


(** ** One report for each event *)

Lemma announces_quiet {A} (m : M A) (w : world) :
  keeps_at (same_observer (enc w)) no_handler m w -> announces_at m w.
Proof.
  intro K. destruct (K (conj eq_refl eq_refl)) as [[Hs _] Hq].
  left. split; [apply handlers_none, Hq | intros _; exact Hs].
Qed.

Lemma announces_after_quiet {A B} (m : M A) (f : A -> M B) (w : world) :
  keeps_at (same_observer (enc w)) no_handler m w ->
  (forall a w', announces_at (f a) w') ->
  announces_at (bind m f) w.
Proof.
  intros K Hf. destruct (K (conj eq_refl eq_refl)) as [[Hs Hh] Hq].
  apply handlers_none in Hq.
  unfold announces_at, bind, world_of, output_of in *.
  destruct (m w) as [[a w1] o1]. cbn [fst snd] in *.
  specialize (Hf a w1). destruct (f a w1) as [[b w2] o2]. cbn [fst snd] in *.
  rewrite handlers_app, Hq. cbn [app].
  destruct Hf as [[H1 H2]|H1]; [left | right; exact H1].
  split; [exact H1|]. intro Ht. rewrite <- Hs. apply H2. congruence.
Qed.

Lemma announces_then_quiet {A B} (m : M A) (f : A -> M B) (w : world) :
  announces_at m w ->
  (forall a w',
     keeps_at (fun e => state e = state (enc w')) no_handler (f a) w') ->
  announces_at (bind m f) w.
Proof.
  intros Hm K.
  unfold announces_at, bind, world_of, output_of in *.
  destruct (m w) as [[a w1] o1]. cbn [fst snd] in *.
  destruct (K a w1 eq_refl) as [Hs Hq]. apply handlers_none in Hq.
  unfold world_of, output_of in *.
  destruct (f a w1) as [[b w2] o2]. cbn [fst snd] in *.
  rewrite handlers_app, Hq, app_nil_r, Hs. exact Hm.
Qed.

Lemma announces_get {B} (f : dispd_encoder -> M B) (w : world) :
  announces_at (f (enc w)) w -> announces_at (bind get f) w.
Proof.
  unfold announces_at, bind, get, world_of, output_of.
  destruct (f (enc w) w) as [[b w2] o2]. cbn [fst snd app]. exact (fun H => H).
Qed.

Lemma unref_says_nothing (w : world) :
  handlers (output_of (dispd_encoder_unref w)) = [].
Proof.
  apply handlers_none.
  apply (keeps_unref (fun _ => True) no_handler); try exact I;
    intros; try exact I; unfold no_handler; intros; discriminate.
Qed.

Lemma announces_set_state (s : dispd_encoder_state) (w : world) :
  announces_at (dispd_encoder_set_state s) w.
Proof.
  destruct (state_eqb (state (enc w)) s) eqn:E.
  - apply state_eqb_eq in E. unfold announces_at.
    rewrite (set_state_same_noop w s E). left. split; reflexivity.
  - unfold announces_at.
    assert (state (enc (world_of (dispd_encoder_set_state s w))) = s) as Hs
      by (destruct (set_state_frame s w) as (v & o & ->); reflexivity).
    rewrite Hs.
    unfold dispd_encoder_set_state, dispd_encoder_notify_state_change.
    munfold. rewrite E. wsimpl.
    destruct (handler (enc w)) eqn:Hh; wsimpl.
    + right. rewrite ref_exact. cbn [fst snd app].
      match goal with
      | |- context [dispd_encoder_unref ?w'] =>
          pose proof (unref_says_nothing w') as U; unfold output_of in U;
          destruct (dispd_encoder_unref w') as [[u w2] o2]
      end.
      cbn [fst snd app handlers] in *. rewrite U. reflexivity.
    + left. split; [reflexivity | intro H; discriminate H].
Qed.

Ltac quiet_side :=
  solve [ unfold same_observer in *; wsimpl; assumption
        | intros; wsimpl; assumption
        | unfold no_handler; intros; discriminate ].

Lemma announces_on_child_terminated (w : world) :
  announces_at on_child_terminated w.
Proof.
  unfold on_child_terminated. apply announces_then_quiet.
  - apply announces_set_state.
  - intros _ w'. apply keeps_at_bind; [|intros; apply keeps_at_ret].
    apply keeps_cleanup; quiet_side.
Qed.

Lemma announces_properties_loop (m : properties) (w : world) :
  announces_at (properties_loop m) w.
Proof.
  induction m as [|[n v] rest IH]; cbn [properties_loop].
  - apply announces_quiet, keeps_at_ret.
  - destruct v as [value|].
    + destruct (negb (String.eqb "State" n)); [exact IH|].
      destruct (state_of_value value) as [s|].
      * apply announces_then_quiet; [apply announces_set_state|].
        intros; apply keeps_at_ret.
      * apply announces_quiet, keeps_at_ret.
    + apply announces_quiet. unfold log_ERRNO.
      repeat first [kstep | quiet_side].
Qed.

Lemma announces_on_encoder_properties_changed (m : properties)
    (w : world) :
  announces_at (on_encoder_properties_changed m) w.
Proof.
  unfold on_encoder_properties_changed.
  apply announces_after_quiet; [repeat first [kstep | quiet_side]|].
  intros r w1. destruct (r <? 0).
  { apply announces_quiet. unfold log_ERRNO.
    repeat first [kstep | quiet_side]. }
  apply announces_after_quiet; [repeat first [kstep | quiet_side]|].
  intros r' w2. destruct (r' <? 0).
  { apply announces_quiet. unfold log_ERRNO.
    repeat first [kstep | quiet_side]. }
  apply announces_properties_loop.
Qed.

Lemma quiet_error (r : Z) (w : world) :
  announces_at (unique_readable_error r) w.
Proof.
  apply announces_quiet. apply keeps_unique_readable_error; quiet_side.
Qed.

Ltac quiet_step :=
  apply announces_after_quiet;
  [ first [ apply keeps_ref; quiet_side
          | solve [eapply keeps_at_eq; [reflexivity | constructor]]
          | repeat first [kstep | quiet_side] ]
  | intros ? ? ].

Ltac report_step :=
  lazymatch goal with
  | |- announces_at (if ?c then _ else _) _ => destruct c
  | |- announces_at (unique_readable_error _) _ => apply quiet_error
  | |- announces_at (ret _) _ => apply announces_quiet, keeps_at_ret
  | |- announces_at (bind (dispd_encoder_set_state _) _) _ =>
      apply announces_then_quiet;
      [ apply announces_set_state
      | intros _ ?; apply keeps_unique_readable_end; quiet_side ]
  | |- announces_at (bind get _) _ => apply announces_get
  | |- announces_at (bind _ _) _ => quiet_step
  end.

Lemma announces_on_unique_readable (fd : Z) (w : world) :
  announces_at (on_unique_readable fd) w.
Proof. unfold on_unique_readable. repeat report_step. Qed.

Lemma announces_drop {A} (m : M A) (w : world) :
  announces_at m w -> announces_at (_ <- m ;; ret tt) w.
Proof.
  intro H. apply announces_then_quiet; [exact H|].
  intros; apply keeps_at_ret.
Qed.

Lemma announces_dispatch (ev : event) (w : world) :
  announces_at (dispatch ev) w.
Proof.
  unfold dispatch. apply announces_get. destruct ev.
  - destruct (child_source (enc w));
      [|apply announces_quiet, keeps_at_ret].
    apply announces_drop, announces_on_child_terminated.
  - destruct (pipe_source (enc w));
      [|apply announces_quiet, keeps_at_ret].
    apply announces_drop, announces_on_unique_readable.
  - destruct (state_change_notify_slot (enc w));
      [|apply announces_quiet, keeps_at_ret].
    apply announces_drop, announces_on_encoder_properties_changed.
  - destruct (name_disappeared_slot (enc w));
      [|apply announces_quiet, keeps_at_ret].
    apply announces_quiet, keeps_drop, keeps_on_encoder_disappeared;
      quiet_side.
  - apply announces_quiet, keeps_drop, keeps_on_child_term_timeout;
      quiet_side.
  - apply announces_quiet, keeps_drop, keeps_configure; quiet_side.
  - apply announces_quiet, keeps_drop, keeps_start; quiet_side.
  - apply announces_quiet, keeps_drop, keeps_pause; quiet_side.
  - apply announces_quiet, keeps_drop, keeps_stop; quiet_side.
  - left. split; [reflexivity | intros _; reflexivity].
  - apply announces_quiet, keeps_ref; quiet_side.
  - apply announces_quiet, keeps_unref; quiet_side.
Qed.

(** X3.  Whatever the event, the handler is called at most once while it is
    dealt with, and then with the state the controller is in when the
    event is over, so that the observer is never told a state that is
    out of date; and while a handler is installed, no change of state
    goes unreported. *)
Theorem one_report_per_event (ev : event) (w : world) :
  let x := dispatch ev w in
  (handlers (output_of x) = []
   \/ handlers (output_of x) = [state (enc (world_of x))])
  /\ (handler (enc w) = true ->
      state (enc (world_of x)) <> state (enc w) ->
      handlers (output_of x) = [state (enc (world_of x))]).
Proof.
  intro x. subst x.
  destruct (announces_dispatch ev w) as [[H1 H2]|H1].
  - split; [left; exact H1|]. intros Hh Hn. exfalso. exact (Hn (H2 Hh)).
  - split; [right; exact H1|]. intros _ _. exact H1.
Qed.

(** ** Names of the states *)

Lemma state_to_name_outside (s : Z) :
  s < 0 \/ 6 < s -> state_to_name s = Some "unknown encoder state"%string.
Proof.
  intro H. unfold state_to_name. cbn [state_value].
  destruct (Z.ltb_spec s 0); [reflexivity|].
  destruct (Z.ltb_spec 6 s); [reflexivity | lia].
Qed.

Lemma state_to_name_inside (s : Z) :
  0 <= s <= 6 ->
  exists st, state_value st = s
             /\ state_to_name s = nth_error names (Z.to_nat s)
             /\ state_to_name s <> None
             /\ state_to_name s <> Some "unknown encoder state"%string.
Proof.
  intro H.
  assert (s = 0 \/ s = 1 \/ s = 2 \/ s = 3 \/ s = 4 \/ s = 5 \/ s = 6)
    as Hc by lia.
  destruct Hc as [->|[->|[->|[->|[->|[->| ->]]]]]];
    [ exists DISPD_ENCODER_STATE_NULL | exists DISPD_ENCODER_STATE_SPAWNED
    | exists DISPD_ENCODER_STATE_CONFIGURED | exists DISPD_ENCODER_STATE_READY
    | exists DISPD_ENCODER_STATE_STARTED | exists DISPD_ENCODER_STATE_PAUSED
    | exists DISPD_ENCODER_STATE_TERMINATED ];
    repeat split; discriminate.
Qed.

(** X28.  [state_to_name] never reads outside its table: whatever integer the
    state variable holds, there is a name.  Outside the range of the
    enumeration it is the fall-back text; inside, it is the name of the
    state, never the fall-back text, and two states never share a
    name. *)
Theorem state_to_name_stays_in_the_table :
  (forall s : Z, exists n, state_to_name s = Some n)
  /\ (forall s : Z,
        s < 0 \/ 6 < s ->
        state_to_name s = Some "unknown encoder state"%string)
  /\ (forall st : dispd_encoder_state,
        state_to_name (state_value st)
        = nth_error names (Z.to_nat (state_value st))
        /\ state_to_name (state_value st)
           <> Some "unknown encoder state"%string)
  /\ (forall a b : dispd_encoder_state,
        state_to_name (state_value a) = state_to_name (state_value b) ->
        a = b).
Proof.
  split; [|split; [|split]].
  - intro s. destruct (Z.lt_ge_cases s 0) as [H|H].
    { eexists. apply state_to_name_outside. left. exact H. }
    destruct (Z.lt_ge_cases 6 s) as [H'|H'].
    { eexists. apply state_to_name_outside. right. exact H'. }
    destruct (state_to_name_inside s (conj H H')) as (st & _ & _ & Hn & _).
    destruct (state_to_name s) as [n|]; [exists n; reflexivity|].
    contradiction Hn. reflexivity.
  - exact state_to_name_outside.
  - intro st. destruct st; split; first [reflexivity | discriminate].
  - intros a b. destruct a, b; intro H; first [reflexivity | discriminate H].
Qed.

(** ** The child's side of the spawn *)

Lemma length_append (a b : string) :
  String.length (a ++ b) = (String.length a + String.length b)%nat.
Proof.
  induction a as [|c a IH]; simpl; [reflexivity|]. rewrite IH. reflexivity.
Qed.

Lemma substring_0_length (n : nat) (s : string) :
  String.length (substring 0 n s) = Nat.min n (String.length s).
Proof.
  revert s. induction n as [|n IH]; intro s.
  - destruct s; reflexivity.
  - destruct s as [|c s]; [reflexivity|]. simpl. rewrite IH. reflexivity.
Qed.

Lemma substring_0_all (n : nat) (s : string) :
  (String.length s <= n)%nat -> substring 0 n s = s.
Proof.
  revert s. induction n as [|n IH]; intros s H.
  - destruct s; [reflexivity | simpl in H; lia].
  - destruct s as [|c s]; [reflexivity|]. simpl in *.
    rewrite IH; [reflexivity | lia].
Qed.

Lemma substring_0_prefix (n : nat) (s : string) :
  prefix (substring 0 n s) s = true.
Proof.
  revert s. induction n as [|n IH]; intro s.
  - destruct s; reflexivity.
  - destruct s as [|c s]; [reflexivity|]. simpl.
    destruct (ascii_dec c c) as [_|N]; [apply IH|].
    contradiction N. reflexivity.
Qed.

Lemma snprintf_cut (size : nat) (text : string) :
  prefix (snprintf size text) text = true
  /\ (String.length (snprintf size text) <= size - 1)%nat
  /\ (snprintf size text = text <-> (String.length text <= size - 1)%nat).
Proof.
  unfold snprintf. split; [apply substring_0_prefix|]. split.
  - rewrite substring_0_length. lia.
  - split.
    + intro H. rewrite <- H at 1. rewrite substring_0_length. lia.
    + apply substring_0_all.
Qed.

(** X12.  The worker's environment is built in buffers of 16 and 256 bytes:
    what is passed for DISPLAY is the first 15 bytes of the text, so that
    a display name longer than 7 bytes arrives cut short, and XAUTHORITY
    is cut after 255 bytes, that is for a path longer than 244.  The
    worker is started with these two variables and G_MESSAGES_DEBUG and
    nothing else of the parent's environment. *)
Theorem exec_environment_is_cut_to_the_buffers (cmd : string) (fd : Z)
    (disp_name disp_auth : string) (dup2_result : Z) (exec_ok : bool) :
  0 <= dup2_result ->
  exists disp auth,
    In (x_execvpe cmd [cmd] [disp; auth; "G_MESSAGES_DEBUG=all"%string])
       (fst (dispd_encoder_exec cmd fd disp_name disp_auth dup2_result
               exec_ok))
    /\ prefix disp ("DISPLAY=" ++ disp_name) = true
    /\ (String.length disp <= 15)%nat
    /\ (disp = ("DISPLAY=" ++ disp_name)%string
        <-> (String.length disp_name <= 7)%nat)
    /\ prefix auth ("XAUTHORITY=" ++ disp_auth) = true
    /\ (String.length auth <= 255)%nat
    /\ (auth = ("XAUTHORITY=" ++ disp_auth)%string
        <-> (String.length disp_auth <= 244)%nat).
Proof.
  intro H.
  exists (snprintf 16 ("DISPLAY=" ++ disp_name)),
         (snprintf 256 ("XAUTHORITY=" ++ disp_auth)).
  destruct (snprintf_cut 16 ("DISPLAY=" ++ disp_name)) as (P1 & L1 & E1).
  destruct (snprintf_cut 256 ("XAUTHORITY=" ++ disp_auth)) as (P2 & L2 & E2).
  rewrite length_append in E1, E2.
  change (String.length "DISPLAY=") with 8%nat in E1.
  change (String.length "XAUTHORITY=") with 11%nat in E2.
  split; [|split; [exact P1|split; [exact L1|split;
    [|split; [exact P2|split; [exact L2|]]]]]].
  - unfold dispd_encoder_exec.
    destruct (Z.ltb_spec dup2_result 0); [lia|]. cbn [fst].
    apply in_or_app. right. apply in_or_app. right.
    apply in_or_app. left. left. reflexivity.
  - rewrite E1. change (16 - 1)%nat with 15%nat. lia.
  - rewrite E2. change (256 - 1)%nat with 255%nat. lia.
Qed.

Lemma exec_environment_is_cut_to_the_buffers_witness :
  exists disp auth,
    In (x_execvpe "gstencoder" ["gstencoder"%string]
          [disp; auth; "G_MESSAGES_DEBUG=all"%string])
       (fst (dispd_encoder_exec "gstencoder" 8 "localhost:10.0"
               "/root/.Xauthority" 3 true))
    /\ prefix disp ("DISPLAY=" ++ "localhost:10.0") = true
    /\ (String.length disp <= 15)%nat
    /\ (disp = ("DISPLAY=" ++ "localhost:10.0")%string
        <-> (String.length "localhost:10.0" <= 7)%nat)
    /\ prefix auth ("XAUTHORITY=" ++ "/root/.Xauthority") = true
    /\ (String.length auth <= 255)%nat
    /\ (auth = ("XAUTHORITY=" ++ "/root/.Xauthority")%string
        <-> (String.length "/root/.Xauthority" <= 244)%nat).
Proof.
  apply (exec_environment_is_cut_to_the_buffers "gstencoder" 8
           "localhost:10.0" "/root/.Xauthority" 3 true).
  discriminate.
Defined.

(** X13.  The forked child never goes back into the caller's code.  It closes
    its copy of the pipe's read end first, and it ends either as the
    worker, when [dup2] and [execvpe] have both succeeded, or in
    [_exit (1)].  The worker is only started once the write end of the
    pipe is its descriptor 3, and that descriptor is not closed. *)
Theorem child_becomes_the_worker_or_exits (fds : Z * Z)
    (disp_name disp_auth : string) (dup2_result : Z) (exec_ok : bool) :
  let o := spawn_child fds disp_name disp_auth dup2_result exec_ok in
  hd_error o = Some (x_close (fst fds))
  /\ ((0 <= dup2_result /\ exec_ok = true
       /\ exists env,
            last o (x_exit 0)
            = x_execvpe "gstencoder" ["gstencoder"%string] env)
      \/ ((dup2_result < 0 \/ exec_ok = false)
          /\ last o (x_exit 0) = x_exit 1))
  /\ (forall f a e,
        In (x_execvpe f a e) o ->
        0 <= dup2_result /\ In (x_dup2 (snd fds) 3) o)
  /\ (fst fds <> 3 -> ~ In (x_close 3) o).
Proof.
  intro o. subst o. unfold spawn_child, dispd_encoder_exec.
  destruct (Z.ltb_spec dup2_result 0) as [R|R];
    destruct exec_ok;
    destruct (Z.eqb_spec (snd fds) 3) as [E|E];
    cbn [fst snd app negb hd_error last];
    (split; [reflexivity|]);
    (split;
     [ first [ left; split; [exact R|]; split; [reflexivity|];
               eexists; reflexivity
             | right; split; [auto | reflexivity] ]
     | ]);
    (split;
     [ intros f a e H; simpl in H;
       repeat (destruct H as [H|H]; [try discriminate H|]);
       try contradiction;
       (split; [exact R | simpl; auto])
     | intros Hn H; simpl in H;
       repeat (destruct H as [H|H];
               [try discriminate H; inversion H; congruence|]);
       exact H ]).
Qed.

